(** * Carpool Connect: booking, listing, routing, health and validation

    A shallow embedding of the request handlers of the carpool application
    (routes/index.js, routes/api.js, utils/api.js, utils/helpers.js,
    utils/validators.js, utils/auth.js) and the properties of its booking
    workflow, trip listing and trip page, fallback routing and geocoding,
    health endpoints, and input validation.

    Conventions used throughout:
    - the relational store (Supabase/PostgREST) is an explicit value of type
      [DB]; every query of a handler is a function on it that returns the
      PostgREST pair [{ data, error }];
    - the two constraints of the schema that the booking workflow runs into
      are part of the store: the unique (trip, passenger) pair of a booking
      and the positive seat count of a trip; a statement that would break
      one is refused and changes nothing;
    - a store call can also fail for reasons outside the program (network,
      row level security): each handler gets a record of faults saying, call
      by call, whether the store answers with an error instead of executing
      the call;
    - handlers are written in a small state-and-early-return monad: the state
      is the store together with the trace of issued store calls and
      [console.error] lines, [reply] is [return res.redirect(...)], and
      [throw] is a JavaScript exception caught by the handler's [try/catch]. *)

From Stdlib Require Import ZArith List String Ascii Bool Lia.
From Stdlib Require QArith DecimalString.
From Stdlib Require Reals Lra Machin.
From Stdlib Require Permutation.
Import ListNotations.

Set Implicit Arguments.

(* ====================================================================== *)
(** ** JavaScript primitives shared by the handlers *)
(* ====================================================================== *)

Module JS.

Local Open Scope Z_scope.
Local Open Scope string_scope.

(** Truthiness of a value that is either [undefined]/[null] or a string. *)
Definition truthy (v : option string) : bool :=
  match v with
  | Some s => negb (s =? "")
  | None => false
  end.

(** [v || d] for a possibly missing string [v] and a string default. *)
Definition or_else (v : option string) (d : string) : string :=
  match v with
  | Some s => if s =? "" then d else s
  | None => d
  end.

(** [v || null] *)
Definition or_null (v : option string) : option string :=
  if truthy v then v else None.

(** Strings are sequences of bytes here.  On a string of ASCII characters
    the bytes are the UTF-16 units of the JavaScript string: [length]
    counts the same, and the white space of [\s] and [trim] is [is_space]
    below.  Beyond ASCII the two differ (a character takes several bytes,
    and [\s] and [trim] know white space such as U+00A0), so what is stated
    about lengths and white space is stated for [ascii_only] strings. *)
Definition ascii_only (s : string) : bool :=
  forallb (fun c => (nat_of_ascii c <? 128)%nat) (list_ascii_of_string s).

(** White space skipped by [trim], [parseInt] and [parseFloat], and matched
    by [\s]: the ASCII part of the ECMAScript set. *)
Definition is_space (c : ascii) : bool :=
  match nat_of_ascii c with
  | 9 | 10 | 11 | 12 | 13 | 32 => true
  | _ => false
  end%nat.

Fixpoint trimStart (s : string) : string :=
  match s with
  | String c r => if is_space c then trimStart r else s
  | EmptyString => EmptyString
  end.

Fixpoint trimEnd (s : string) : string :=
  match s with
  | String c r =>
      let r' := trimEnd r in
      if is_space c && (r' =? "") then "" else String c r'
  | EmptyString => EmptyString
  end.

Definition trim (s : string) : string := trimEnd (trimStart s).

(** [hay.includes(needle)] *)
Fixpoint includes (needle hay : string) : bool :=
  prefix needle hay ||
  match hay with
  | String _ r => includes needle r
  | EmptyString => false
  end.

(** Value of a digit in the given radix. *)
Definition digit_value (radix : Z) (c : ascii) : option Z :=
  let n := Z.of_nat (nat_of_ascii c) in
  let v := (if (48 <=? n) && (n <=? 57) then n - 48
            else if (97 <=? n) && (n <=? 122) then n - 87
            else if (65 <=? n) && (n <=? 90) then n - 55
            else radix)%Z in
  if (v <? radix)%Z then Some v else None.

(** The longest prefix of digits, read in the radix; [None] when empty. *)
Fixpoint read_digits (radix : Z) (s : string) (acc : option Z) : option Z :=
  match s with
  | String c r =>
      match digit_value radix c with
      | Some v =>
          read_digits radix r
            (Some (radix * match acc with Some a => a | None => 0 end + v))
      | None => acc
      end
  | EmptyString => acc
  end.

(** [parseInt(s)] without a radix argument: leading white space, an
    optional sign, an optional [0x] prefix, then digits; [None] is [NaN].
    The result is the exact integer: it is the number of the program up
    to 2^53 in absolute value, beyond which the program holds the nearest
    double. *)
Definition parseInt (s : string) : option Z :=
  let s1 := trimStart s in
  let '(negative, s2) :=
    match s1 with
    | String "-" r => (true, r)
    | String "+" r => (false, r)
    | _ => (false, s1)
    end in
  let '(radix, s3) :=
    match s2 with
    | String "0" (String "x" r) => (16, r)
    | String "0" (String "X" r) => (16, r)
    | _ => (10, s2)
    end in
  match read_digits radix s3 None with
  | Some n => Some (if negative then - n else n)
  | None => None
  end.

(** [parseInt(v)] of a possibly missing query or body field. *)
Definition parseInt_opt (v : option string) : option Z :=
  match v with
  | Some s => parseInt s
  | None => None
  end.

(** [n || d] on a number: [NaN] and [0] are falsy. *)
Definition num_or (n : option Z) (d : Z) : Z :=
  match n with
  | Some 0 => d
  | Some v => v
  | None => d
  end.

(** [Math.ceil(a / b)] for an integer [a] and a positive integer [b]. *)
Definition ceil_div (a b : Z) : Z := - ((- a) / b).

End JS.

(* ====================================================================== *)
(** ** The relational store *)
(* ====================================================================== *)

Module Store.

Local Open Scope string_scope.

Record Profile := {
  profile_id : string;
  full_name : string;
  phone : string;
  bio : string;
  avatar_url : option string
}.

Record Trip := {
  id : string;
  driver_id : string;
  origin_text : string;
  destination_text : string;
  departure_timestamp : Z;       (* instant, in milliseconds *)
  available_seats : Z;
  price : option QArith_base.Q   (* DECIMAL column, NULL when absent *)
}.

Record Booking := {
  booking_id : nat;
  trip_id : string;
  passenger_id : string;
  booked_at : Z
}.

Record DB := {
  profiles : list Profile;
  trips : list Trip;
  bookings : list Booking
}.

(** A PostgREST error object and the [{ data, error }] answer of a query. *)
Record PgError := { code : string; message : string }.

Record Resp (A : Type) := { data : option A; error : option PgError }.

Definition ok {A} (a : A) : Resp A := {| data := Some a; error := None |}.
Definition failed {A} (e : PgError) : Resp A := {| data := None; error := Some e |}.

(** [.single()]: exactly one row, otherwise error PGRST116. *)
Definition PGRST116 : PgError :=
  {| code := "PGRST116";
     message := "JSON object requested, multiple (or no) rows returned" |}.

Definition single {A} (rows : list A) : Resp A :=
  match rows with
  | [r] => ok r
  | _ => failed PGRST116
  end.

(** Unique-constraint violation (primary key, [no_duplicate_booking]). *)
Definition duplicate_key : PgError :=
  {| code := "23505";
     message := "duplicate key value violates unique constraint" |}.

(** [from('profiles').select(..).eq('id', uid)] *)
Definition profiles_by_id (d : DB) (uid : string) : list Profile :=
  filter (fun p => profile_id p =? uid) (profiles d).

(** [from('trips').select('*').eq('id', tid)] *)
Definition trips_by_id (d : DB) (tid : string) : list Trip :=
  filter (fun t => id t =? tid) (trips d).

(** [from('bookings').select('id').eq('trip_id', tid).eq('passenger_id', uid)] *)
Definition bookings_of (d : DB) (tid uid : string) : list Booking :=
  filter (fun b => (trip_id b =? tid) && (passenger_id b =? uid)) (bookings d).

(** Primary keys of new bookings are generated by the store. *)
Definition fresh_booking_id (d : DB) : nat :=
  S (list_max (map booking_id (bookings d))).

(** [from('profiles').insert([p])]: the primary key [id] is unique. *)
Definition insert_profile (d : DB) (p : Profile) : Resp unit * DB :=
  match profiles_by_id d (profile_id p) with
  | [] => (ok tt, {| profiles := profiles d ++ [p];
                     trips := trips d;
                     bookings := bookings d |})
  | _ => (failed duplicate_key, d)
  end.

(** The row a booking insert adds. *)
Definition new_booking (d : DB) (tid uid : string) (at_ : Z) : Booking :=
  {| booking_id := fresh_booking_id d; trip_id := tid;
     passenger_id := uid; booked_at := at_ |}.

(** [from('bookings').insert([{trip_id, passenger_id, booked_at}]).select()]:
    the schema declares [CONSTRAINT no_duplicate_booking UNIQUE (trip_id,
    passenger_id)]. *)
Definition insert_booking (d : DB) (tid uid : string) (at_ : Z)
  : Resp (list Booking) * DB :=
  match bookings_of d tid uid with
  | [] =>
      let b := new_booking d tid uid at_ in
      (ok [b], {| profiles := profiles d;
                  trips := trips d;
                  bookings := bookings d ++ [b] |})
  | _ => (failed duplicate_key, d)
  end.

(** [from('trips').update({ available_seats: n }).eq('id', tid)] *)
Definition set_seats (n : Z) (t : Trip) : Trip :=
  {| id := id t; driver_id := driver_id t; origin_text := origin_text t;
     destination_text := destination_text t;
     departure_timestamp := departure_timestamp t;
     available_seats := n; price := price t |}.

(** The schema declares [available_seats INTEGER NOT NULL CHECK
    (available_seats > 0)] on trips: a statement that would leave a row
    with a count of 0 or less is refused with error 23514 and changes
    nothing. *)
Definition seats_check : PgError :=
  {| code := "23514";
     message := "new row for relation trips violates check constraint valid_seats" |}.

(** The update of the rows with key [tid] to [n] seats is refused. *)
Definition refuses_seats (d : DB) (tid : string) (n : Z) : bool :=
  (n <=? 0)%Z && existsb (fun t => id t =? tid) (trips d).

Definition update_seats (d : DB) (tid : string) (n : Z) : Resp unit * DB :=
  if refuses_seats d tid n then (failed seats_check, d)
  else
    (ok tt, {| profiles := profiles d;
               trips := map (fun t => if id t =? tid then set_seats n t else t)
                            (trips d);
               bookings := bookings d |}).

(** The trips of the store satisfy that constraint. *)
Definition seats_positive (d : DB) : Prop :=
  forall t, In t (trips d) -> (0 < available_seats t)%Z.

(** Uniqueness of bookings per (trip, passenger) pair. *)
Definition unique_bookings (d : DB) : Prop :=
  forall tid uid, (List.length (bookings_of d tid uid) <= 1)%nat.

End Store.

(* ====================================================================== *)
(** ** Handler monad: store state, effect trace, early reply, exceptions *)
(* ====================================================================== *)

Module Handler.

Import Store.

(** Store calls issued by the booking handler, as they appear in the trace. *)
Inductive call :=
| SelectProfile (uid : string)
| InsertProfile (uid : string)
| SelectTrip (tid : string)
| SelectBookings (tid uid : string)
| InsertBooking (tid uid : string)
| UpdateSeats (tid : string) (seats : Z)
| SelectDriver (uid : string).

Inductive event :=
| Issued (c : call)
| ConsoleError (line : string).

Record St := { db : DB; trace : list event }.

(** Outcome of a handler fragment: it goes on with a value, it has already
    sent the response ([return res.redirect(..)]), or it threw. *)
Inductive outcome (R A : Type) :=
| Next (a : A)
| Replied (r : R)
| Thrown (msg : string).

Arguments Next {R A} a.
Arguments Replied {R A} r.
Arguments Thrown {R A} msg.

Definition M (R A : Type) := St -> outcome R A * St.

Definition ret {R A} (a : A) : M R A := fun s => (Next a, s).

Definition bind {R A B} (m : M R A) (k : A -> M R B) : M R B :=
  fun s =>
    match m s with
    | (Next a, s') => k a s'
    | (Replied r, s') => (Replied r, s')
    | (Thrown msg, s') => (Thrown msg, s')
    end.

Definition reply {R A} (r : R) : M R A := fun s => (Replied r, s).

Definition throw {R A} (msg : string) : M R A := fun s => (Thrown msg, s).

(** [try { body } catch (error) { handler(error.message) }] around a body
    whose normal completion and early returns both produce the response. *)
Definition try_catch {R} (body : M R R) (handler : string -> M R R) : M R R :=
  fun s =>
    match body s with
    | (Thrown msg, s') => handler msg s'
    | other => other
    end.

Definition emit {R} (e : event) : M R unit :=
  fun s => (Next tt, {| db := db s; trace := trace s ++ [e] |}).

Definition console_error {R} (line : string) : M R unit :=
  emit (ConsoleError line).

Definition when {R} (b : bool) (m : M R unit) : M R unit :=
  if b then m else ret tt.

(** A store call: recorded in the trace; answered with the injected fault,
    if any, and otherwise executed on the store. *)
Definition query {R A} (c : call) (fault : option PgError)
           (run : DB -> Resp A * DB) : M R (Resp A) :=
  fun s =>
    let tr := trace s ++ [Issued c] in
    match fault with
    | Some e => (Next (failed e), {| db := db s; trace := tr |})
    | None =>
        let '(r, d') := run (db s) in
        (Next r, {| db := d'; trace := tr |})
    end.

End Handler.

Declare Scope handler_scope.
Delimit Scope handler_scope with handler.
Notation "x <- c ;; k" := (Handler.bind c (fun x => k))
  (at level 61, c at next level, right associativity) : handler_scope.
Notation "c ;;; k" := (Handler.bind c (fun _ => k))
  (at level 61, right associativity) : handler_scope.

(* ====================================================================== *)
(** ** Process environment and the Supabase client constructor *)
(* ====================================================================== *)

Module Config.

Record Env := {
  SUPABASE_URL : option string;
  SUPABASE_SERVICE_ROLE_KEY : option string;
  SUPABASE_ANON_KEY : option string;
  OPENROUTESERVICE_API_KEY : option string;
  NODE_ENV : option string
}.

(** [a || b] on two possibly missing strings. *)
Definition or_key (a b : option string) : option string :=
  if JS.truthy a then a else b.

(** [createClient(url, key)] of supabase-js throws when either argument is
    missing or empty. *)
Definition createClient {R} (url key : option string) : Handler.M R unit :=
  if negb (JS.truthy url) then Handler.throw "supabaseUrl is required."
  else if negb (JS.truthy key) then Handler.throw "supabaseKey is required."
  else Handler.ret tt.

End Config.

(* ====================================================================== *)
(** ** POST /trips/:id/book *)
(* ====================================================================== *)

Module Booking.

Import Store Handler Config.
Local Open Scope string_scope.
Local Open Scope handler_scope.

Record User := {
  user_id : string;
  email : string;
  meta_full_name : option string;
  meta_phone : option string;
  meta_bio : option string;
  meta_avatar_url : option string
}.

Record Request := {
  user : option User;          (* req.user, set by optionalAuth *)
  params_id : string;          (* req.params.id *)
  originalUrl : string
}.

(** [driver || { full_name: 'Driver' }] in the confirmation page. *)
Inductive driver_view :=
| DriverProfile (p : Profile)
| DriverPlaceholder (name : string).

(** What the handler sends.  [RedirectTrip t e d] is the redirect to
    [/trips/t?error=e], with [&details=encodeURIComponent(d)] when [d] is
    present; [RenderBooking] is the page [trips/booking]; [Unhandled] is an
    exception that escapes to [asyncHandler]. *)
Inductive response :=
| RedirectLogin (redirect : string)
| RedirectTrip (tripId : string) (error : string) (details : option string)
| RenderBooking (trip : Trip) (driver : driver_view) (bookingId : nat)
| Unhandled (msg : string).

(** Behaviour of the store during one request, call by call: [Some e] makes
    the call answer [{ data: null, error: e }] without being executed.
    [booking_rows_hidden] is the case of an insert that is executed but whose
    [.select()] returns no row. *)
Record Faults := {
  on_profile_check : option PgError;
  on_profile_insert : option PgError;
  on_trip_query : option PgError;
  on_booking_check : option PgError;
  on_booking_insert : option PgError;
  booking_rows_hidden : bool;
  on_seat_update : option PgError;
  on_driver_query : option PgError
}.

Definition no_faults : Faults :=
  {| on_profile_check := None; on_profile_insert := None;
     on_trip_query := None; on_booking_check := None;
     on_booking_insert := None; booking_rows_hidden := false;
     on_seat_update := None; on_driver_query := None |}.

Definition new_profile (u : User) : Profile :=
  {| profile_id := user_id u;
     full_name := JS.or_else (meta_full_name u) "User";
     phone := JS.or_else (meta_phone u) "";
     bio := JS.or_else (meta_bio u) "";
     avatar_url := JS.or_null (meta_avatar_url u) |}.

Definition hide_rows {A} (hidden : bool) (r : Resp (list A)) : Resp (list A) :=
  if hidden then {| data := option_map (fun _ => []) (data r); error := error r |}
  else r.

(** The route handler, block by block as the source numbers its steps.

    STEP 1: ensure user profile exists. *)
Definition ensure_profile (f : Faults) (u : User) (tripId : string)
  : M response unit :=
  let userId := user_id u in
  existing <- query (SelectProfile userId) (on_profile_check f)
                    (fun d => (single (profiles_by_id d userId), d)) ;;
  when (match error existing with
        | Some e => negb (code e =? "PGRST116")
        | None => false
        end)
       (console_error "Error checking profile") ;;;
  match data existing with
  | None =>
      created <- query (InsertProfile userId) (on_profile_insert f)
                       (fun d => insert_profile d (new_profile u)) ;;
      match error created with
      | Some e =>
          console_error "Error creating profile" ;;;
          reply (RedirectTrip tripId "profile_failed" (Some (message e)))
      | None => ret tt
      end
  | Some _ => ret tt
  end.

(** STEP 2: get trip details. *)
Definition get_trip (f : Faults) (tripId : string) : M response Trip :=
  found <- query (SelectTrip tripId) (on_trip_query f)
                 (fun d => (single (trips_by_id d tripId), d)) ;;
  match error found, data found with
  | None, Some trip => ret trip
  | _, _ =>
      console_error "Trip not found" ;;;
      reply (RedirectTrip tripId "trip_not_found" None)
  end.

(** STEP 3: validate booking eligibility. *)
Definition validate_eligibility (f : Faults) (userId tripId : string) (trip : Trip)
  : M response unit :=
  if userId =? driver_id trip then
    reply (RedirectTrip tripId "driver_booking" None)
  else if (available_seats trip <=? 0)%Z then
    reply (RedirectTrip tripId "no_seats" None)
  else
    existingBooking <- query (SelectBookings tripId userId) (on_booking_check f)
                             (fun d => (ok (bookings_of d tripId userId), d)) ;;
    when (match error existingBooking with Some _ => true | None => false end)
         (console_error "Error checking existing booking") ;;;
    match data existingBooking with
    | Some (_ :: _) => reply (RedirectTrip tripId "already_booked" None)
    | _ => ret tt
    end.

(** STEP 4: create booking record. *)
Definition create_booking (f : Faults) (now : Z) (userId tripId : string)
  : M response Booking :=
  booking <- query (InsertBooking tripId userId) (on_booking_insert f)
                   (fun d => let '(r, d') := insert_booking d tripId userId now in
                             (hide_rows (booking_rows_hidden f) r, d')) ;;
  match error booking, data booking with
  | Some e, _ =>
      console_error "Booking creation error" ;;;
      reply (RedirectTrip tripId "booking_failed" (Some (message e)))
  | None, None
  | None, Some [] =>
      console_error "Booking created but no data returned" ;;;
      reply (RedirectTrip tripId "booking_failed" (Some "No booking data returned"))
  | None, Some (b :: _) => ret b
  end.

(** STEP 5: decrement available seats; on an error: continue anyway, the
    booking was created. *)
Definition decrement_seats (f : Faults) (tripId : string) (trip : Trip)
  : M response unit :=
  updated <- query (UpdateSeats tripId (available_seats trip - 1)) (on_seat_update f)
                   (fun d => update_seats d tripId (available_seats trip - 1)) ;;
  when (match error updated with Some _ => true | None => false end)
       (console_error "Error updating seats").

(** STEP 6: fetch driver profile for the confirmation page. *)
Definition fetch_driver (f : Faults) (trip : Trip) : M response driver_view :=
  driver <- query (SelectDriver (driver_id trip)) (on_driver_query f)
                  (fun d => (single (profiles_by_id d (driver_id trip)), d)) ;;
  when (match error driver with Some _ => true | None => false end)
       (console_error "Error fetching driver profile") ;;;
  ret (match data driver with
       | Some p => DriverProfile p
       | None => DriverPlaceholder "Driver"
       end).

(** Steps 4 to 7: the booking is created, the seat count decremented, and
    STEP 7 renders the confirmation page. *)
Definition finish_booking (f : Faults) (now : Z) (userId tripId : string)
           (trip : Trip) : M response response :=
  booking <- create_booking f now userId tripId ;;
  decrement_seats f tripId trip ;;;
  driver <- fetch_driver f trip ;;
  ret (RenderBooking trip driver (booking_id booking)).

(** Steps 1 to 3 on their own, returning the trip they loaded: the part of
    a request that only reads bookings and trips. *)
Definition eligibility_checks (f : Faults) (u : User) (tripId : string)
  : M response Trip :=
  ensure_profile f u tripId ;;;
  trip <- get_trip f tripId ;;
  validate_eligibility f (user_id u) tripId trip ;;;
  ret trip.

(** The [try] block of the handler. *)
Definition book_trip_try (env : Env) (f : Faults) (now : Z) (req : Request)
  : M response response :=
  match user req with
  | None => reply (RedirectLogin (originalUrl req))
  | Some u =>
      let tripId := params_id req in
      let userId := user_id u in
      createClient (SUPABASE_URL env)
                   (or_key (SUPABASE_SERVICE_ROLE_KEY env) (SUPABASE_ANON_KEY env)) ;;;
      ensure_profile f u tripId ;;;
      trip <- get_trip f tripId ;;
      validate_eligibility f userId tripId trip ;;;
      finish_booking f now userId tripId trip
  end.

(** The [catch] block. *)
Definition book_trip_catch (req : Request) (msg : string) : M response response :=
  console_error "Booking error" ;;;
  ret (RedirectTrip (params_id req) "booking_failed" (Some msg)).

Definition book_trip (env : Env) (f : Faults) (now : Z) (req : Request)
  : M response response :=
  try_catch (book_trip_try env f now req) (book_trip_catch req).

(** The response that leaves the server: the one the handler sent, or the
    error page of [asyncHandler] for an exception that escaped. *)
Definition sent (o : outcome response response) : response :=
  match o with
  | Next r => r
  | Replied r => r
  | Thrown msg => Unhandled msg
  end.

(** The route: the handler run on a store, the response it sends and the
    state it leaves. *)
Definition POST_trips_book (env : Env) (f : Faults) (now : Z) (req : Request)
           (s : St) : response * St :=
  (sent (fst (book_trip env f now req s)), snd (book_trip env f now req s)).

(** The handler started on a store with an empty trace. *)
Definition start (d : DB) : St := {| db := d; trace := [] |}.

Definition is_confirmation (r : response) : bool :=
  match r with
  | RenderBooking _ _ _ => true
  | _ => false
  end.

(** [createClient] does not throw: the store URL and one of the two keys are
    set. *)
Definition client_configured (env : Env) : bool :=
  JS.truthy (SUPABASE_URL env)
  && JS.truthy (or_key (SUPABASE_SERVICE_ROLE_KEY env) (SUPABASE_ANON_KEY env)).

(** Step 1 lets the request through: the caller's profile row is found, or
    it is missing and its creation is accepted. *)
Definition profile_step_passes (f : Faults) (u : User) (d : DB) : bool :=
  match on_profile_check f, profiles_by_id d (user_id u) with
  | None, [_] => true
  | _, [] => match on_profile_insert f with None => true | Some _ => false end
  | _, _ => false
  end.

(** A store call that writes a booking or a seat count. *)
Definition writes (e : event) : bool :=
  match e with
  | Issued (InsertBooking _ _) | Issued (UpdateSeats _ _) => true
  | _ => false
  end.

(** The handler has issued neither the booking insert nor the seat update. *)
Definition no_writes (s : St) : Prop := existsb writes (trace s) = false.

(** The rejections of the handler, condition by condition in the order the
    handler tests them, on the store [d] it starts from. *)
Inductive rejection (env : Env) (f : Faults) (req : Request) (d : DB)
  : response -> Prop :=
| rej_login :
    user req = None ->
    rejection env f req d (RedirectLogin (originalUrl req))
| rej_client u m :
    user req = Some u ->
    client_configured env = false ->
    rejection env f req d (RedirectTrip (params_id req) "booking_failed" (Some m))
| rej_profile u m :
    user req = Some u ->
    client_configured env = true ->
    profile_step_passes f u d = false ->
    rejection env f req d (RedirectTrip (params_id req) "profile_failed" (Some m))
| rej_trip u :
    user req = Some u ->
    client_configured env = true ->
    profile_step_passes f u d = true ->
    match on_trip_query f, trips_by_id d (params_id req) with
    | None, [_] => False
    | _, _ => True
    end ->
    rejection env f req d (RedirectTrip (params_id req) "trip_not_found" None)
| rej_driver u t :
    user req = Some u ->
    client_configured env = true ->
    profile_step_passes f u d = true ->
    on_trip_query f = None ->
    trips_by_id d (params_id req) = [t] ->
    user_id u = driver_id t ->
    rejection env f req d (RedirectTrip (params_id req) "driver_booking" None)
| rej_seats u t :
    user req = Some u ->
    client_configured env = true ->
    profile_step_passes f u d = true ->
    on_trip_query f = None ->
    trips_by_id d (params_id req) = [t] ->
    user_id u <> driver_id t ->
    (available_seats t <= 0)%Z ->
    rejection env f req d (RedirectTrip (params_id req) "no_seats" None)
| rej_booked u t :
    user req = Some u ->
    client_configured env = true ->
    profile_step_passes f u d = true ->
    on_trip_query f = None ->
    trips_by_id d (params_id req) = [t] ->
    user_id u <> driver_id t ->
    (0 < available_seats t)%Z ->
    on_booking_check f = None ->
    bookings_of d (params_id req) (user_id u) <> [] ->
    rejection env f req d (RedirectTrip (params_id req) "already_booked" None).

(** The conditions under which the handler goes on to create the booking. *)
Definition eligible (env : Env) (f : Faults) (req : Request) (d : DB)
           (u : User) (t : Trip) : Prop :=
  user req = Some u /\
  client_configured env = true /\
  profile_step_passes f u d = true /\
  on_trip_query f = None /\
  trips_by_id d (params_id req) = [t] /\
  user_id u <> driver_id t /\
  (0 < available_seats t)%Z /\
  (on_booking_check f = None -> bookings_of d (params_id req) (user_id u) = []).

(** The seat update of step 5 fails: for a reason outside the program, or
    because the store refuses the new count. *)
Definition seat_update_refused (f : Faults) (d : DB) (tid : string) (t : Trip)
  : bool :=
  match on_seat_update f with
  | Some _ => true
  | None => refuses_seats d tid (available_seats t - 1)
  end.

(** From [s] to [s1] the bookings and the trips stay as they are, and the
    calls issued in between write neither. *)
Definition calm (s s1 : St) : Prop :=
  trips (db s1) = trips (db s) /\
  bookings (db s1) = bookings (db s) /\
  exists evs, trace s1 = (trace s ++ evs)%list /\ existsb writes evs = false.

End Booking.

(* ====================================================================== *)
(** ** GET /trips: pagination, filters, listing *)
(* ====================================================================== *)

Module Listing.

Import Store Config.
Import QArith_base.
Local Open Scope Z_scope.
Local Open Scope string_scope.

(** Application constant: trips per page by default. *)
Definition TRIPS_LIMIT : Z := 10.

Record Query := {
  q_page : option string;
  q_limit : option string;
  q_origin : option string;
  q_destination : option string;
  q_min_price : option string;
  q_max_price : option string
}.

Record Pagination := { page : Z; limit : Z; offset : Z }.

(** The numbers are exact integers: [page], [limit] and [offset] are those
    of the program as long as [page] stays below 2^53 / 50, where no
    product or parsed number is rounded; [limit] is the program's for
    every query. *)
Definition parsePaginationParams (q : Query) : Pagination :=
  let page := Z.max 1 (JS.num_or (JS.parseInt_opt (q_page q)) 1) in
  let limit := Z.min 50 (Z.max 1 (JS.num_or (JS.parseInt_opt (q_limit q)) TRIPS_LIMIT)) in
  {| page := page; limit := limit; offset := (page - 1) * limit |}.

(** A JavaScript number holding a price bound: [None] is [NaN]. *)
Definition number := option Q.

(** The [filters] object; a missing key is [None].  [price_gte] and
    [price_lte] are the two keys of [filters.price]. *)
Record Filters := {
  departure_gte : Z;
  origin_ilike : option string;
  destination_ilike : option string;
  price_gte : option number;
  price_lte : option number
}.

(** A trip row with the embedded [profiles (...)] record of its driver. *)
Record TripRow := { row : Trip; driver : option Profile }.

(** What [fetchTrips] returns: [count] is [null] when the count query
    answered without a count. *)
Record Fetched := {
  fetched_data : list TripRow;
  fetched_count : option Z;
  fetched_error : option PgError
}.

Record QueryFaults := {
  on_count : option PgError;
  on_data : option PgError
}.

Record PageInfo := {
  info_page : Z;
  info_limit : Z;
  info_total : option Z;
  info_totalPages : Z
}.

Inductive listing_response :=
| TripList (trips : list TripRow) (pagination : PageInfo)
| ServerError (status : Z) (error : string) (details : option string).

(** Truthiness of a number: [NaN] and zero are falsy. *)
Definition number_truthy (n : number) : bool :=
  match n with
  | Some q => negb (Qeq_bool q 0)
  | None => false
  end.

(** Insertion into a list ordered by ascending departure: the new row goes
    behind the rows with the same departure. *)
Fixpoint insert_by_departure (t : Trip) (l : list Trip) : list Trip :=
  match l with
  | [] => [t]
  | u :: r =>
      if (departure_timestamp t <? departure_timestamp u)%Z then t :: l
      else u :: insert_by_departure t r
  end.

(** [.order('departure_timestamp', { ascending: true })].  The query names
    no second key, and the store leaves the order of rows with the same
    departure open; this function lists them in one of the possible orders
    (the reverse of the stored one).  What is stated about the position of
    rows is stated for pairwise different departures, where the order is
    determined, or holds for every order of the ties. *)
Definition order_by_departure (l : list Trip) : list Trip :=
  fold_right insert_by_departure [] l.

(** [.range(from, to)]: rows [from .. to], both included. *)
Definition range {A} (from to : Z) (l : list A) : list A :=
  firstn (Z.to_nat (to - from + 1)) (skipn (Z.to_nat from) l).

Section WithExternals.

(** [parseFloat] of JavaScript and the [ILIKE] operator of the store
    ([ilike pattern text]) are taken as given. *)
Variable parseFloat : string -> number.
Variable ilike : string -> string -> bool.

(** [if (req.query.k) filters.x = f(req.query.k)] *)
Definition when_given {A} (v : option string) (f : string -> A) : option A :=
  match v with
  | Some s => if s =? "" then None else Some (f s)
  | None => None
  end.

Definition buildTripFilters (q : Query) (now : Z) : Filters :=
  {| departure_gte := now;
     origin_ilike := when_given (q_origin q) (fun s => "%" ++ s ++ "%");
     destination_ilike := when_given (q_destination q) (fun s => "%" ++ s ++ "%");
     price_gte := when_given (q_min_price q) parseFloat;
     price_lte := when_given (q_max_price q) parseFloat |}.

(** The filters that [fetchTrips] applies to the data query: each one is
    applied only when its value is truthy. *)
Definition matches (f : Filters) (t : Trip) : bool :=
  (departure_gte f <=? departure_timestamp t)%Z
  && match origin_ilike f with
     | Some pat => if pat =? "" then true else ilike pat (origin_text t)
     | None => true
     end
  && match destination_ilike f with
     | Some pat => if pat =? "" then true else ilike pat (destination_text t)
     | None => true
     end
  && match price_gte f with
     | Some (Some lo) =>
         if Qeq_bool lo 0 then true
         else match price t with Some p => Qle_bool lo p | None => false end
     | _ => true
     end
  && match price_lte f with
     | Some (Some hi) =>
         if Qeq_bool hi 0 then true
         else match price t with Some p => Qle_bool p hi | None => false end
     | _ => true
     end.

Definition with_driver (d : DB) (t : Trip) : TripRow :=
  {| row := t; driver := hd_error (profiles_by_id d (driver_id t)) |}.

(** [fetchTrips(pagination, filters)]: the count comes from
    [from('trips').select('*', { count: 'exact' })], the rows from the
    filtered, ordered and ranged query. *)
Definition fetchTrips (env : Env) (fl : QueryFaults) (d : DB)
           (pagination : Pagination) (filters : Filters) : Fetched :=
  if negb (JS.truthy (SUPABASE_URL env)) then
    {| fetched_data := []; fetched_count := Some 0;
       fetched_error := Some {| code := "FETCH_ERROR";
                                message := "supabaseUrl is required." |} |}
  else if negb (JS.truthy (SUPABASE_SERVICE_ROLE_KEY env)) then
    {| fetched_data := []; fetched_count := Some 0;
       fetched_error := Some {| code := "FETCH_ERROR";
                                message := "supabaseKey is required." |} |}
  else
    let count :=
      match on_count fl with
      | Some _ => None
      | None => Some (Z.of_nat (List.length (trips d)))
      end in
    match on_data fl with
    | Some e =>
        {| fetched_data := []; fetched_count := Some 0; fetched_error := Some e |}
    | None =>
        let rows := range (offset pagination)
                          (offset pagination + limit pagination - 1)
                          (order_by_departure (filter (matches filters) (trips d))) in
        {| fetched_data := map (with_driver d) rows;
           fetched_count := count;
           fetched_error := None |}
    end.

(** The route handler. [null / limit] is [0] in JavaScript. *)
Definition GET_trips (env : Env) (fl : QueryFaults) (now : Z) (q : Query) (d : DB)
  : listing_response :=
  let pagination := parsePaginationParams q in
  let filters := buildTripFilters q now in
  let r := fetchTrips env fl d pagination filters in
  match fetched_error r with
  | Some e =>
      ServerError 500 "Failed to load trips. Please try again later."
        (match NODE_ENV env with
         | Some "development" => Some (message e)
         | _ => None
         end)
  | None =>
      TripList (fetched_data r)
        {| info_page := page pagination;
           info_limit := limit pagination;
           info_total := fetched_count r;
           info_totalPages :=
             JS.ceil_div (match fetched_count r with Some c => c | None => 0 end)
                         (limit pagination) |}
  end.

End WithExternals.

End Listing.

(* ====================================================================== *)
(** ** utils/api.js: fetch with retry, routing, API key format *)
(* ====================================================================== *)

Module Api.

Import Config.
Import Reals.
Local Open Scope string_scope.

(** JavaScript numbers are idealised as real numbers; [None] is [NaN]
    (rounding of doubles and the infinities are not modelled). *)
Definition num := option R.

Definition lift1 (f : R -> R) (a : num) : num := option_map f a.

Definition lift2 (f : R -> R -> R) (a b : num) : num :=
  match a, b with
  | Some x, Some y => Some (f x y)
  | _, _ => None
  end.

Definition lit (x : R) : num := Some x.

Definition Math_PI : num := Some PI.
Definition Math_sin : num -> num := lift1 sin.
Definition Math_cos : num -> num := lift1 cos.
Definition Math_min : num -> num -> num := lift2 Rmin.
Definition Math_max : num -> num -> num := lift2 Rmax.

(** [Math.sqrt]: [NaN] on negative arguments. *)
Definition Math_sqrt (a : num) : num :=
  match a with
  | Some x => if Rlt_dec x 0 then None else Some (sqrt x)
  | None => None
  end.

(** [Math.atan2(y, x)] on finite arguments (signed zeros are not
    distinguished; a zero [y] counts as [+0]). *)
Definition atan2 (y x : R) : R :=
  if Rlt_dec 0 x then atan (y / x)
  else if Rlt_dec x 0 then
         if Rle_dec 0 y then (atan (y / x) + PI)%R else (atan (y / x) - PI)%R
       else if Rlt_dec 0 y then (PI / 2)%R
            else if Rlt_dec y 0 then (- (PI / 2))%R
                 else 0%R.

Definition Math_atan2 : num -> num -> num := lift2 atan2.

Declare Scope js_scope.
Delimit Scope js_scope with js.
Notation "a + b" := (lift2 Rplus a b) : js_scope.
Notation "a - b" := (lift2 Rminus a b) : js_scope.
Notation "a * b" := (lift2 Rmult a b) : js_scope.
Notation "a / b" := (lift2 Rdiv a b) : js_scope.

(** [API_CONFIG] *)
Definition TIMEOUT_DEFAULT : Z := 10000.
Definition TIMEOUT_SHORT : Z := 5000.
Definition TIMEOUT_LONG : Z := 15000.
Definition RETRIES_DEFAULT : nat := 2.
Definition RETRIES_MAX : nat := 3.
Definition AVG_KMH : R := 50.
Definition EARTH_RADIUS : R := 6371.

Record Point := { lat : num; lng : num }.

(** GeoJSON geometry: [coordinates] is a list of [[lng, lat]] pairs. *)
Record Geometry := { type : string; coordinates : list (num * num) }.

Record Route := {
  distance : num;      (* meters *)
  duration : num;      (* seconds *)
  geometry : Geometry;
  bbox : list num
}.

(** [getSimpleRoute(origin, destination)] *)
Definition getSimpleRoute (origin destination : Point) : Route :=
  let dLat := (((lat destination - lat origin) * Math_PI) / lit 180)%js in
  let dLon := (((lng destination - lng origin) * Math_PI) / lit 180)%js in
  let a :=
    (Math_sin (dLat / lit 2) * Math_sin (dLat / lit 2) +
     Math_cos ((lat origin * Math_PI) / lit 180) *
       Math_sin (dLon / lit 2) *
       Math_sin (dLon / lit 2))%js in
  let c := (lit 2 * Math_atan2 (Math_sqrt a) (Math_sqrt (lit 1 - a)))%js in
  let distance := (lit EARTH_RADIUS * c)%js in
  let duration := ((distance / lit AVG_KMH) * lit 3600)%js in
  {| distance := (distance * lit 1000)%js;
     duration := duration;
     geometry := {| type := "LineString";
                    coordinates := [ (lng origin, lat origin);
                                     (lng destination, lat destination) ] |};
     bbox := [ Math_min (lng origin) (lng destination);
               Math_min (lat origin) (lat destination);
               Math_max (lng origin) (lng destination);
               Math_max (lat origin) (lat destination) ] |}.

(** A point with finite coordinates. *)
Definition pt (la lo : R) : Point := {| lat := Some la; lng := Some lo |}.

(** On finite coordinates: the value of [a] in [getSimpleRoute], and the
    distance in kilometres computed from it. *)
Definition simple_a (lat1 lng1 lat2 lng2 : R) : R :=
  (sin ((lat2 - lat1) * PI / 180 / 2) * sin ((lat2 - lat1) * PI / 180 / 2) +
   cos (lat1 * PI / 180) * sin ((lng2 - lng1) * PI / 180 / 2)
     * sin ((lng2 - lng1) * PI / 180 / 2))%R.

Definition simple_km (lat1 lng1 lat2 lng2 : R) : R :=
  (EARTH_RADIUS * (2 * atan2 (sqrt (simple_a lat1 lng1 lat2 lng2))
                             (sqrt (1 - simple_a lat1 lng1 lat2 lng2))))%R.

(** The haversine formula as it is usually stated, for comparison: the
    great-circle distance in kilometres between two points given in
    degrees, on a sphere of radius 6371 km. *)
Definition haversine_km (lat1 lng1 lat2 lng2 : R) : R :=
  let phi1 := (lat1 * PI / 180)%R in
  let phi2 := (lat2 * PI / 180)%R in
  let dphi := ((lat2 - lat1) * PI / 180)%R in
  let dlam := ((lng2 - lng1) * PI / 180)%R in
  let a := (sin (dphi / 2) * sin (dphi / 2) +
            cos phi1 * cos phi2 * (sin (dlam / 2) * sin (dlam / 2)))%R in
  (6371 * (2 * atan2 (sqrt a) (sqrt (1 - a))))%R.

(** The route the haversine definition gives: distance in meters, duration
    at 50 km/h in seconds, and the two end points. *)
Definition haversine_route (lat1 lng1 lat2 lng2 : R) : num * num * list (num * num) :=
  (Some (haversine_km lat1 lng1 lat2 lng2 * 1000)%R,
   Some (haversine_km lat1 lng1 lat2 lng2 / 50 * 3600)%R,
   [ (Some lng1, Some lat1); (Some lng2, Some lat2) ]).

(** *** Errors, HTTP responses and the network *)

Record JsError := { name : string; message : string }.

Definition Error (msg : string) : JsError := {| name := "Error"; message := msg |}.

Record OrsRoute := {
  summary : option (num * num);            (* distance, duration *)
  ors_geometry : option (list (num * num));
  ors_bbox : list num
}.

Record OrsData := { routes : option (list OrsRoute) }.

(** An HTTP response; [body] is [None] when it is not JSON. *)
Record HttpResponse := {
  ok : bool;
  status : Z;
  statusText : string;
  body : option OrsData
}.

Inductive attempt :=
| NetworkError (e : JsError)
| Responded (r : HttpResponse).

(** The behaviour of the remote service: the outcome of the n-th call. *)
Definition Net := nat -> attempt.

Definition show_Z (z : Z) : string :=
  DecimalString.NilZero.string_of_int (Z.to_int z).

Definition retryableErrors : list string :=
  [ "AbortError"; "ETIMEDOUT"; "ECONNRESET"; "ENOTFOUND"; "ECONNREFUSED";
    "ConnectTimeoutError"; "fetch failed" ].

Definition isRetryableError (error : JsError) : bool :=
  if existsb (fun retryError =>
                (name error =? retryError) || JS.includes retryError (message error))
             retryableErrors
  then true
  else if JS.includes "HTTP 5" (message error) then true
  else false.

(** [fetchWithTimeout(url, options, timeoutMs, retries)]; [i] counts the
    calls made so far. *)
Fixpoint fetchWithTimeout (net : Net) (i : nat) (retries : nat)
  : HttpResponse + JsError :=
  let failed error :=
    match retries with
    | S k => if isRetryableError error then fetchWithTimeout net (S i) k
             else inr error
    | O => inr error
    end in
  match net i with
  | Responded response =>
      if ok response then inl response
      else failed (Error ("HTTP " ++ show_Z (status response) ++ ": "
                                  ++ statusText response))
  | NetworkError error => failed error
  end.

(** [validateApiKey(apiKey, service)] and the characters its pattern admits. *)
Definition key_char (c : ascii) : bool :=
  let n := nat_of_ascii c in
  ((97 <=? n) && (n <=? 122) || (65 <=? n) && (n <=? 90)
   || (48 <=? n) && (n <=? 57) || (n =? 95) || (n =? 45))%nat.

(** [/^[a-zA-Z0-9_-]+$/.test(key)] *)
Definition key_format (key : string) : bool :=
  negb (key =? "") && forallb key_char (list_ascii_of_string key).

Definition validateApiKey (apiKey : option string) (service : string) : bool :=
  match apiKey with
  | None => false
  | Some key =>
      if key =? "" then false
      else if service =? "openrouteservice" then
             (50 <=? String.length key)%nat && key_format key
           else (0 <? String.length key)%nat
  end.

(** [getOpenRouteServiceRoute(origin, destination, apiKey)] *)
Definition getOpenRouteServiceRoute (net : Net) (origin destination : Point)
           (apiKey : string) : Route + JsError :=
  match fetchWithTimeout net 0 RETRIES_DEFAULT with
  | inr e => inr e
  | inl response =>
      if negb (ok response) then
        inr (Error ("OpenRouteService API error: " ++ statusText response))
      else
        match body response with
        | None => inr {| name := "SyntaxError"; message := "Unexpected token" |}
        | Some data =>
            match routes data with
            | None | Some [] => inr (Error "No route found between points")
            | Some (route :: _) =>
                match ors_geometry route, summary route with
                | Some coords, Some (dist, dur) =>
                    inl {| distance := dist;
                           duration := dur;
                           geometry := {| type := "LineString";
                                          coordinates := coords |};
                           bbox := ors_bbox route |}
                | _, _ =>
                    inr {| name := "TypeError";
                           message := "Cannot read properties of undefined" |}
                end
            end
        end
  end.

(** [getRoute(origin, destination, apiKey)] *)
Definition getRoute (net : Net) (origin destination : Point)
           (apiKey : option string) : Route + JsError :=
  let body : Route + JsError :=
    if JS.truthy apiKey && validateApiKey apiKey "openrouteservice" then
      match getOpenRouteServiceRoute net origin destination
                                     (JS.or_else apiKey "") with
      | inl r => inl r
      | inr orsError => inl (getSimpleRoute origin destination)
      end
    else inl (getSimpleRoute origin destination) in
  match body with
  | inl r => inl r
  | inr error => inr (Error ("Route calculation failed: " ++ message error))
  end.

(** *** POST /api/route *)

Record RouteBody := { origin : option Point; destination : option Point }.

Inductive route_response :=
| RouteJson (result : Route)
| RouteBadRequest (error : string)
| RouteUnavailable (error : string) (details : option string).

(** Truthiness of a coordinate: missing, [NaN] and [0] are falsy. *)
Definition num_truthy (n : num) : bool :=
  match n with
  | Some x => if Req_dec_T x 0 then false else true
  | None => false
  end.

Definition POST_api_route (env : Env) (net : Net) (b : RouteBody) : route_response :=
  match origin b, destination b with
  | Some o, Some d =>
      if negb (num_truthy (lat o)) || negb (num_truthy (lng o))
         || negb (num_truthy (lat d)) || negb (num_truthy (lng d))
      then RouteBadRequest "Valid origin and destination coordinates are required"
      else
        match getRoute net o d None with
        | inl result => RouteJson result
        | inr error =>
            RouteUnavailable
              "Routing service temporarily unavailable. Please try again."
              (match NODE_ENV env with
               | Some "development" => Some (message error)
               | _ => None
               end)
        end
  | _, _ => RouteBadRequest "Valid origin and destination coordinates are required"
  end.

End Api.

(* ====================================================================== *)
(** ** GET /api/health *)
(* ====================================================================== *)

Module Health.

Import Config Api.
Local Open Scope string_scope.

Record ServiceHealth := {
  status : string;
  error : option string;
  responseTime : option Z
}.

(** The object [checkApiHealth] returns. *)
Record HealthReport := {
  supabase : ServiceHealth;
  openrouteservice : ServiceHealth;
  timestamp : string
}.

(** Outcome of the probe [await supabase.from('trips').select('id').limit(1)]
    through the wrapped client: the query answers (possibly with an error in
    its [{ data, error }] pair) or its promise is rejected (time-out). *)
Inductive probe :=
| Answered (error : option Store.PgError)
| Rejected (msg : string).

(** The wrapped client of utils/supabase.js throws when it cannot be
    initialised. *)
Definition supabase_probe (env : Env) (p : probe) : unit + string :=
  if negb (JS.truthy (SUPABASE_URL env)) || negb (JS.truthy (SUPABASE_ANON_KEY env))
  then inr "SUPABASE_URL and SUPABASE_ANON_KEY environment variables are required"
  else match p with
       | Answered _ => inl tt
       | Rejected msg => inr msg
       end.

(** [checkApiHealth()]; [elapsed_db] and [elapsed_ors] are the differences
    of the two [Date.now()] readings around each probe. *)
Definition checkApiHealth (env : Env) (p : probe) (net : Net)
           (elapsed_db elapsed_ors : Z) (now : string) : HealthReport :=
  let supabase :=
    match supabase_probe env p with
    | inl _ => {| status := "healthy"; error := None;
                  responseTime := Some elapsed_db |}
    | inr msg => {| status := "unhealthy"; error := Some msg;
                    responseTime := None |}
    end in
  let apiKey := OPENROUTESERVICE_API_KEY env in
  let openrouteservice :=
    if JS.truthy apiKey && validateApiKey apiKey "openrouteservice" then
      match fetchWithTimeout net 0 1 with
      | inl _ => {| status := "healthy"; error := None;
                    responseTime := Some elapsed_ors |}
      | inr e => {| status := "unhealthy"; error := Some (message e);
                    responseTime := None |}
      end
    else {| status := "not_configured"; error := None; responseTime := None |} in
  {| supabase := supabase; openrouteservice := openrouteservice; timestamp := now |}.

(** The values stored in the report: two objects and a string. *)
Inductive value :=
| VObject (service : ServiceHealth)
| VString (s : string).

(** [Object.values(health)], in insertion order of the keys. *)
Definition Object_values (h : HealthReport) : list value :=
  [ VObject (supabase h); VObject (openrouteservice h); VString (timestamp h) ].

(** [v.status]: [undefined] ([None]) on a string. *)
Definition status_of (v : value) : option string :=
  match v with
  | VObject service => Some (status service)
  | VString _ => None
  end.

Record health_response := {
  http_status : Z;
  overall : string;
  services : HealthReport
}.

(** The route handler. *)
Definition GET_api_health (env : Env) (p : probe) (net : Net)
           (elapsed_db elapsed_ors : Z) (now : string) : health_response :=
  let health := checkApiHealth env p net elapsed_db elapsed_ors now in
  let allHealthy :=
    forallb (fun service =>
               match status_of service with
               | Some s => (s =? "healthy") || (s =? "not_configured")
               | None => false
               end)
            (Object_values health) in
  {| http_status := if allHealthy then 200%Z else 503%Z;
     overall := if allHealthy then "healthy" else "degraded";
     services := health |}.

(** The statuses of the services that were checked. *)
Definition checked_services (h : HealthReport) : list string :=
  [ status (supabase h); status (openrouteservice h) ].

Definition service_fine (s : string) : bool :=
  (s =? "healthy") || (s =? "not_configured").

End Health.

(* ====================================================================== *)
(** ** validateTripData and POST /trips/create *)
(* ====================================================================== *)

Module TripCreation.

Import Config.
Import QArith_base.
Local Open Scope string_scope.

(** [req.body] of the creation form: a missing field is [None]. *)
Record Body := {
  origin_text : option string;
  destination_text : option string;
  departure_timestamp : option string;
  available_seats : option string;
  price : option string;
  description : option string
}.

Record FormRequest := {
  user : option string;      (* req.user.id *)
  accept : option string;    (* req.headers.accept *)
  body : Body
}.

Inductive form_reply :=
| Redirect (url : string)
| Json (status : Z) (success : bool) (message : string).

(** The response together with the flash messages (kind, text) queued for
    the next page. *)
Record form_response := { flashes : list (string * string); reply : form_reply }.

(** The store answering the insert: [Some e] is a failure of its own;
    [new_id] is the key it generates. *)
Record InsertFaults := {
  on_insert : option Store.PgError;
  new_id : string
}.

(** The row [createTripData] builds. [NaN] seats and price reach the store
    as [null]. *)
Record TripData := {
  td_driver_id : string;
  td_origin_text : string;
  td_destination_text : string;
  td_departure_timestamp : Z;
  td_available_seats : option Z;
  td_price : option Q
}.

Definition not_null_violation : Store.PgError :=
  {| Store.code := "23502";
     Store.message := "null value in column violates not-null constraint" |}.

(** [from('trips').insert([tripData]).select().single()] *)
Definition insert_trip (d : Store.DB) (key : string) (t : TripData)
  : Store.Resp Store.Trip * Store.DB :=
  match td_available_seats t with
  | None => (Store.failed not_null_violation, d)
  | Some seats =>
      match Store.trips_by_id d key with
      | [] =>
          let r := {| Store.id := key;
                      Store.driver_id := td_driver_id t;
                      Store.origin_text := td_origin_text t;
                      Store.destination_text := td_destination_text t;
                      Store.departure_timestamp := td_departure_timestamp t;
                      Store.available_seats := seats;
                      Store.price := td_price t |} in
          (Store.ok r, {| Store.profiles := Store.profiles d;
                          Store.trips := Store.trips d ++ [r];
                          Store.bookings := Store.bookings d |})
      | _ => (Store.failed Store.duplicate_key, d)
      end
  end.

Definition handleFormResponse (req : FormRequest) (fl : list (string * string))
           (success : bool) (message redirectUrl : string) : form_response :=
  if match accept req with
     | Some a => JS.includes "text/html" a
     | None => false
     end
  then
    if success
    then {| flashes := fl ++ [("success", message)]; reply := Redirect "/trips" |}
    else {| flashes := fl ++ [("error", message)]; reply := Redirect redirectUrl |}
  else {| flashes := fl;
          reply := Json (if success then 201%Z else 400%Z) success message |}.

Section WithExternals.

(** [new Date(s).getTime()], [None] for an invalid date, and [parseFloat],
    [None] for [NaN], are taken as given. *)
Variable Date_parse : string -> option Z.
Variable parseFloat : string -> option Q.

(** [!v?.trim()] *)
Definition blank (v : option string) : bool :=
  match v with
  | Some s => JS.trim s =? ""
  | None => true
  end.

(** [validateTripData(data)], at the instant [now] of [new Date()]. *)
Definition validateTripData (now : Z) (data : Body) : list string :=
  (if blank (origin_text data) then ["Origin address is required"] else [])
  ++ (if blank (destination_text data) then ["Destination address is required"] else [])
  ++ (match departure_timestamp data with
      | None => ["Departure time is required"]
      | Some s =>
          if s =? "" then ["Departure time is required"]
          else match Date_parse s with
               | Some t => if (t <=? now)%Z
                           then ["Departure time must be in the future"] else []
               | None => []   (* the comparison with an invalid date is false *)
               end
      end)
  ++ (match available_seats data with
      | None => ["Number of seats is required"]
      | Some s =>
          if s =? "" then ["Number of seats is required"]
          else match JS.parseInt s with
               | Some seats =>
                   if (seats <? 1)%Z || (7 <? seats)%Z
                   then ["Number of seats must be between 1 and 7"] else []
               | None => ["Number of seats must be between 1 and 7"]
               end
      end)
  ++ (match price data with
      | Some p =>
          if p =? "" then []
          else match parseFloat p with
               | Some v => if Qle_bool 0 v then []
                           else ["Price must be a positive number"]
               | None => ["Price must be a positive number"]
               end
      | None => []
      end).

(** [errors.join(', ')] *)
Definition join (l : list string) : string := String.concat ", " l.

(** [createTripData(req, routeData)], scalar columns: it throws on a field
    it calls a method on when the field is missing, and [toISOString]
    throws on an invalid date.  The route geometry it attaches is not a
    column of the model. *)
Definition createTripData (driver : string) (b : Body) : TripData + string :=
  match origin_text b, destination_text b with
  | Some o, Some d =>
      match option_map Date_parse (departure_timestamp b) with
      | Some (Some t) =>
          inl {| td_driver_id := driver;
                 td_origin_text := JS.trim o;
                 td_destination_text := JS.trim d;
                 td_departure_timestamp := t;
                 td_available_seats := JS.parseInt_opt (available_seats b);
                 td_price := match price b with
                             | Some p => if p =? "" then None else parseFloat p
                             | None => None
                             end |}
      | _ => inr "Invalid time value"
      end
  | _, _ => inr "Cannot read properties of undefined (reading 'trim')"
  end.

(** [insertTrip(tripData)]: the client is created with the service role key
    when there is one, with the anon key otherwise; an exception becomes an
    error result. *)
Definition insertTrip (env : Env) (f : InsertFaults) (t : TripData) (d : Store.DB)
  : Store.Resp Store.Trip * Store.DB :=
  let key := if JS.truthy (SUPABASE_SERVICE_ROLE_KEY env)
             then SUPABASE_SERVICE_ROLE_KEY env else SUPABASE_ANON_KEY env in
  if negb (JS.truthy (SUPABASE_URL env)) then
    (Store.failed {| Store.code := "DB_ERROR";
                     Store.message := "supabaseUrl is required." |}, d)
  else if negb (JS.truthy key) then
    (Store.failed {| Store.code := "DB_ERROR";
                     Store.message := "supabaseKey is required." |}, d)
  else
    match on_insert f with
    | Some e => (Store.failed e, d)
    | None => insert_trip d (new_id f) t
    end.

Definition login_redirect : string := "/auth/login?redirect=%2Ftrips%2Fcreate".

(** The route handler (messages without their pictographs). *)
Definition POST_trips_create (env : Env) (f : InsertFaults) (now : Z) (req : FormRequest)
           (d : Store.DB) : form_response * Store.DB :=
  match user req with
  | None =>
      (handleFormResponse req [] false
         "Authentication required to create trips. Please sign in first."
         login_redirect, d)
  | Some driver =>
      match validateTripData now (body req) with
      | (_ :: _) as validationErrors =>
          (handleFormResponse req [] false (join validationErrors) "/trips/create", d)
      | [] =>
          match createTripData driver (body req) with
          | inr msg =>
              (* catch (error) *)
              (handleFormResponse req
                 [("error", "Failed to create trip: " ++ msg ++ ". Please try again.")]
                 false
                 "An unexpected error occurred while creating the trip. Please try again."
                 "/trips/create", d)
          | inl tripData =>
              let '(result, d') := insertTrip env f tripData d in
              match Store.error result, Store.data result with
              | Some e, _ =>
                  if Store.code e =? "PGRST204" then
                    (handleFormResponse req [] false
                       "Failed to create trip. The database schema may not support this operation. Please contact support."
                       "/trips/create", d')
                  else if Store.code e =? "42501" then
                    (handleFormResponse req [] false
                       "Authentication required to create trips. Please sign in first."
                       login_redirect, d')
                  else if Store.code e =? "XX000" then
                    (handleFormResponse req [] false
                       "Route data format error. Please try again with different addresses."
                       "/trips/create", d')
                  else
                    (handleFormResponse req [] false
                       ("Failed to create trip. Database error: "
                          ++ (if Store.message e =? "" then "Unknown error"
                              else Store.message e)
                          ++ ". Please try again.")
                       "/trips/create", d')
              | None, Some created =>
                  (handleFormResponse req
                     [("success", "Trip created successfully! Your trip from "
                                    ++ Store.origin_text created ++ " to "
                                    ++ Store.destination_text created
                                    ++ " has been created.")]
                     true "Trip created successfully!" "/trips", d')
              | None, None =>
                  (handleFormResponse req
                     [("error", "Failed to create trip: Cannot read properties of null. Please try again.")]
                     false
                     "An unexpected error occurred while creating the trip. Please try again."
                     "/trips/create", d')
              end
          end
      end
  end.

End WithExternals.

(** *** Instances of the external functions, for examples

    A date parser for strings of the form [YYYY-MM-DDTHH:mm] (the value of a
    [datetime-local] input), read as UTC and returned in milliseconds since
    the epoch; every other string is an invalid date. *)

Definition digit (c : ascii) : option Z := JS.digit_value 10 c.

Definition number_of (cs : list ascii) : option Z :=
  fold_left (fun acc c =>
               match acc, digit c with
               | Some a, Some v => Some (10 * a + v)%Z
               | _, _ => None
               end) cs (Some 0%Z).

Definition leap_year (y : Z) : bool :=
  ((y mod 4 =? 0) && negb (y mod 100 =? 0) || (y mod 400 =? 0))%Z.

Definition days_in_month (y m : Z) : Z :=
  (if m =? 2 then (if leap_year y then 29 else 28)
   else if (m =? 4) || (m =? 6) || (m =? 9) || (m =? 11) then 30
   else 31)%Z.

(** Days from 1970-01-01 to the given civil date. *)
Definition days_from_civil (y m d : Z) : Z :=
  (let y' := if m <=? 2 then y - 1 else y in
   let era := y' / 400 in
   let yoe := y' - era * 400 in
   let doy := (153 * (if 2 <? m then m - 3 else m + 9) + 2) / 5 + d - 1 in
   let doe := yoe * 365 + yoe / 4 - yoe / 100 + doy in
   era * 146097 + doe - 719468)%Z.

Definition Date_parse_minutes (s : string) : option Z :=
  match list_ascii_of_string s with
  | [y1; y2; y3; y4; "-"; m1; m2; "-"; d1; d2; "T"; h1; h2; ":"; n1; n2]%char =>
      match number_of [y1; y2; y3; y4], number_of [m1; m2], number_of [d1; d2],
            number_of [h1; h2], number_of [n1; n2] with
      | Some y, Some m, Some d, Some h, Some n =>
          if ((1 <=? m) && (m <=? 12) && (1 <=? d) && (d <=? days_in_month y m)
              && (h <=? 23) && (n <=? 59))%Z
          then Some (((days_from_civil y m d * 24 + h) * 60 + n) * 60000)%Z
          else None
      | _, _, _, _, _ => None
      end
  | _ => None
  end.

(** A [parseFloat] for plain decimal notation: white space, an optional
    sign, digits with an optional fractional part; no exponent. *)
Fixpoint leading_digits (s : string) : list Z * string :=
  match s with
  | String c r =>
      match digit c with
      | Some v => let '(ds, rest) := leading_digits r in (v :: ds, rest)
      | None => ([], s)
      end
  | EmptyString => ([], s)
  end.

Definition decimal_value (ds : list Z) : Z :=
  fold_left (fun acc v => 10 * acc + v)%Z ds 0%Z.

Definition parseFloat_decimal (s : string) : option Q :=
  let s1 := JS.trimStart s in
  let '(negative, s2) :=
    match s1 with
    | String "-" r => (true, r)
    | String "+" r => (false, r)
    | _ => (false, s1)
    end in
  let '(whole, s3) := leading_digits s2 in
  let frac :=
    match s3 with
    | String "." r => fst (leading_digits r)
    | _ => []
    end in
  match whole, frac with
  | [], [] => None
  | _, _ =>
      let v := Qplus (inject_Z (decimal_value whole))
                     (Qmake (decimal_value frac)
                            (Pos.pow 10 (Pos.of_nat (List.length frac)))) in
      Some (if negative then Qopp v else v)
  end.

(** A creation form that is complete except for its departure time [s]. *)
Definition form_leaving (s : string) : Body :=
  {| origin_text := Some "Pune"; destination_text := Some "Mumbai";
     departure_timestamp := Some s; available_seats := Some "3";
     price := None; description := None |}.

Definition request_of (b : Body) : FormRequest :=
  {| user := Some "dan"; accept := Some "application/json"; body := b |}.

Definition insert_answers : InsertFaults := {| on_insert := None; new_id := "trip-9" |}.

End TripCreation.


(* ====================================================================== *)
(** ** Concrete stores and requests used in examples *)
(* ====================================================================== *)

Module Examples.

Import Reals.
Import Store Config.
Local Open Scope string_scope.

Definition env : Env :=
  {| SUPABASE_URL := Some "https://carpool.supabase.co";
     SUPABASE_SERVICE_ROLE_KEY := Some "service-role-key";
     SUPABASE_ANON_KEY := Some "anon-key";
     OPENROUTESERVICE_API_KEY := None;
     NODE_ENV := Some "production" |}.

Definition dan : Profile :=
  {| profile_id := "dan"; full_name := "Dan"; phone := "0123456789";
     bio := ""; avatar_url := None |}.

Definition ann : Profile :=
  {| profile_id := "ann"; full_name := "Ann"; phone := "0987654321";
     bio := ""; avatar_url := None |}.

Definition as_user (p : Profile) : Booking.User :=
  {| Booking.user_id := profile_id p;
     Booking.email := profile_id p ++ "@example.org";
     Booking.meta_full_name := Some (full_name p);
     Booking.meta_phone := Some (phone p);
     Booking.meta_bio := None;
     Booking.meta_avatar_url := None |}.

(** Dan's trip, with [n] seats left. *)
Definition trip_with (n : Z) : Trip :=
  {| id := "trip-1"; driver_id := "dan";
     origin_text := "Pune"; destination_text := "Mumbai";
     departure_timestamp := 2000; available_seats := n; price := None |}.

Definition store_with (n : Z) (bs : list Booking) : DB :=
  {| profiles := [dan; ann]; trips := [trip_with n]; bookings := bs |}.

Definition book_as (p : Profile) : Booking.Request :=
  {| Booking.user := Some (as_user p);
     Booking.params_id := "trip-1";
     Booking.originalUrl := "/trips/trip-1/book" |}.

Definition ann_booking : Booking :=
  {| booking_id := 1; trip_id := "trip-1"; passenger_id := "ann"; booked_at := 1000 |}.

Definition update_refused : PgError :=
  {| code := "23514";
     message := "new row for relation violates check constraint" |}.

(** A listing store: [numbered n dep] is trip number [n], leaving at [dep]. *)
Definition numbered (n : nat) (dep : Z) : Trip :=
  {| id := "trip-" ++ Api.show_Z (Z.of_nat n); driver_id := "dan";
     origin_text := "Pune"; destination_text := "Mumbai";
     departure_timestamp := dep; available_seats := 3; price := None |}.

(** Twenty-five trips that leave after the instant 1000. *)
Definition upcoming : list Trip :=
  map (fun n => numbered n (2000 + Z.of_nat n)) (seq 0 25).

(** Six trips that left before it. *)
Definition departed : list Trip :=
  map (fun n => numbered n (Z.of_nat n)) (seq 25 6).

Definition listing_store (ts : list Trip) : DB :=
  {| profiles := [dan]; trips := ts; bookings := [] |}.

(** [GET /trips?page=1&limit=10] *)
Definition first_page : Listing.Query :=
  {| Listing.q_page := Some "1"; Listing.q_limit := Some "10";
     Listing.q_origin := None; Listing.q_destination := None;
     Listing.q_min_price := None; Listing.q_max_price := None |}.

Definition listing_answers : Listing.QueryFaults :=
  {| Listing.on_count := None; Listing.on_data := None |}.

(** A routing-provider key that passes the format check, and a provider
    that answers every call with a route. *)
Definition routing_key : string :=
  "5b3ce3597851110001cf6248a1b2c3d4e5f60718293a4b5c6d7e8f90".

Definition env_with_routing_key : Env :=
  {| SUPABASE_URL := SUPABASE_URL env;
     SUPABASE_SERVICE_ROLE_KEY := SUPABASE_SERVICE_ROLE_KEY env;
     SUPABASE_ANON_KEY := SUPABASE_ANON_KEY env;
     OPENROUTESERVICE_API_KEY := Some routing_key;
     NODE_ENV := NODE_ENV env |}.

Definition provider_route : Api.OrsRoute :=
  {| Api.summary := Some (Some 1250000%R, Some 54000%R);
     Api.ors_geometry := Some [ (Some (-90)%R, Some 60%R); (Some 0%R, Some 75%R);
                                (Some 90%R, Some 60%R) ];
     Api.ors_bbox := [ Some (-90)%R; Some 60%R; Some 90%R; Some 75%R ] |}.

Definition provider_answers : Api.Net :=
  fun _ => Api.Responded
             {| Api.ok := true; Api.status := 200; Api.statusText := "OK";
                Api.body := Some {| Api.routes := Some [provider_route] |} |}.

Definition provider_down : Api.Net :=
  fun _ => Api.NetworkError {| Api.name := "TypeError"; Api.message := "fetch failed" |}.

(** A provider that answers every call with the given error status, and one
    that answers without a route. *)
Definition provider_says (status : Z) (text : string) : Api.Net :=
  fun _ => Api.Responded
             {| Api.ok := false; Api.status := status; Api.statusText := text;
                Api.body := None |}.

Definition provider_without_route : Api.Net :=
  fun _ => Api.Responded
             {| Api.ok := true; Api.status := 200; Api.statusText := "OK";
                Api.body := Some {| Api.routes := None |} |}.

(** The body [{ origin: {lat: 60, lng: -90}, destination: {lat: 60, lng: 90} }]. *)
Definition across : Api.RouteBody :=
  {| Api.origin := Some (Api.pt 60 (-90)); Api.destination := Some (Api.pt 60 90) |}.

(** Every store call is answered, except the seat update. *)
Definition seat_update_fails : Booking.Faults :=
  {| Booking.on_profile_check := None; Booking.on_profile_insert := None;
     Booking.on_trip_query := None; Booking.on_booking_check := None;
     Booking.on_booking_insert := None; Booking.booking_rows_hidden := false;
     Booking.on_seat_update := Some update_refused;
     Booking.on_driver_query := None |}.

End Examples.

(* ====================================================================== *)
(** ** Regular expressions, as the validators use them *)
(* ====================================================================== *)

(** [re.test(s)] for a pattern anchored at both ends: a matcher by
    derivatives over classes of characters, and the language a pattern
    denotes. *)
Module Regex.

Inductive re :=
| Never
| Eps
| Class (p : ascii -> bool)
| Seq (r1 r2 : re)
| Alt (r1 r2 : re)
| Star (r : re).

Definition Plus (r : re) : re := Seq r (Star r).

Fixpoint Repeat (n : nat) (r : re) : re :=
  match n with
  | O => Eps
  | S k => Seq r (Repeat k r)
  end.

Fixpoint nullable (r : re) : bool :=
  match r with
  | Never => false
  | Eps => true
  | Class _ => false
  | Seq r1 r2 => nullable r1 && nullable r2
  | Alt r1 r2 => nullable r1 || nullable r2
  | Star _ => true
  end.

Fixpoint deriv (c : ascii) (r : re) : re :=
  match r with
  | Never => Never
  | Eps => Never
  | Class p => if p c then Eps else Never
  | Seq r1 r2 =>
      if nullable r1 then Alt (Seq (deriv c r1) r2) (deriv c r2)
      else Seq (deriv c r1) r2
  | Alt r1 r2 => Alt (deriv c r1) (deriv c r2)
  | Star r1 => Seq (deriv c r1) (Star r1)
  end.

Fixpoint accepts (r : re) (s : list ascii) : bool :=
  match s with
  | [] => nullable r
  | c :: s' => accepts (deriv c r) s'
  end.

Definition test (r : re) (s : string) : bool := accepts r (list_ascii_of_string s).

Inductive lang : re -> list ascii -> Prop :=
| lang_eps : lang Eps []
| lang_class p c : p c = true -> lang (Class p) [c]
| lang_seq r1 r2 s1 s2 : lang r1 s1 -> lang r2 s2 -> lang (Seq r1 r2) (s1 ++ s2)
| lang_alt_l r1 r2 s : lang r1 s -> lang (Alt r1 r2) s
| lang_alt_r r1 r2 s : lang r2 s -> lang (Alt r1 r2) s
| lang_star_nil r : lang (Star r) []
| lang_star_app r s1 s2 : lang r s1 -> lang (Star r) s2 -> lang (Star r) (s1 ++ s2).

End Regex.

(* ====================================================================== *)
(** ** utils/validators.js and utils/helpers.js *)
(* ====================================================================== *)

(** Strings are sequences of ASCII characters here, as for [JS.is_space]:
    [\s] is the white space of [JS.is_space], [length] counts characters. *)
Module Validators.

Import Regex.
Local Open Scope string_scope.

Definition MIN_PASSWORD_LENGTH : nat := 6.

Definition is_digit (c : ascii) : bool :=
  let n := nat_of_ascii c in ((48 <=? n) && (n <=? 57))%nat.

(** [[^\s@]] *)
Definition not_space_at (c : ascii) : bool :=
  negb (JS.is_space c) && negb (Ascii.eqb c "@").

(** [/^[^\s@]+@[^\s@]+\.[^\s@]+$/] *)
Definition emailRegex : re :=
  Seq (Plus (Class not_space_at))
      (Seq (Class (Ascii.eqb "@"))
           (Seq (Plus (Class not_space_at))
                (Seq (Class (Ascii.eqb "."))
                     (Plus (Class not_space_at))))).

Definition isValidEmail (email : string) : bool := test emailRegex email.

(** [[0-9\s()+-]] *)
Definition phone_char (c : ascii) : bool :=
  is_digit c || JS.is_space c || Ascii.eqb c "(" || Ascii.eqb c ")"
  || Ascii.eqb c "+" || Ascii.eqb c "-".

(** [/^[0-9\s()+-]+$/] *)
Definition phoneRegex : re := Plus (Class phone_char).

(** [phone.replace(/\D/g, '')] *)
Definition digits_of (phone : string) : list ascii :=
  filter is_digit (list_ascii_of_string phone).

Definition isValidPhone (phone : string) : bool :=
  test phoneRegex phone && (10 <=? List.length (digits_of phone))%nat.

(** [!v || !p(v)] for a possibly missing field. *)
Definition missing_or_not (p : string -> bool) (v : option string) : bool :=
  match v with
  | Some s => (s =? "") || negb (p s)
  | None => true
  end.

Record Registration := {
  reg_email : option string;
  reg_password : option string;
  reg_password_confirm : option string;
  reg_full_name : option string;
  reg_phone : option string
}.

(** [a !== b] on two possibly missing strings. *)
Definition differ (a b : option string) : bool :=
  match a, b with
  | Some x, Some y => negb (x =? y)
  | None, None => false
  | _, _ => true
  end.

(** [!(s.length < n)]; the length is counted in bytes, which is the
    [length] of the program on an [ascii_only] string. *)
Definition long_enough (n : nat) (s : string) : bool :=
  negb (String.length s <? n)%nat.

(** [!(s.trim().length < 2)], on an [ascii_only] string likewise. *)
Definition name_ok (s : string) : bool :=
  negb (String.length (JS.trim s) <? 2)%nat.

(** A field that is missing or holds ASCII characters only. *)
Definition ascii_field (v : option string) : bool :=
  match v with
  | Some s => JS.ascii_only s
  | None => true
  end.

Definition ascii_registration (r : Registration) : bool :=
  ascii_field (reg_email r) && ascii_field (reg_password r)
  && ascii_field (reg_password_confirm r) && ascii_field (reg_full_name r)
  && ascii_field (reg_phone r).

Definition validateRegistrationInput (r : Registration) : list string :=
  (if missing_or_not isValidEmail (reg_email r) then ["Valid email is required"] else [])
  ++ (if missing_or_not (long_enough MIN_PASSWORD_LENGTH) (reg_password r)
      then ["Password must be at least 6 characters"] else [])
  ++ (if differ (reg_password r) (reg_password_confirm r) then ["Passwords do not match"] else [])
  ++ (if missing_or_not name_ok (reg_full_name r)
      then ["Full name is required (minimum 2 characters)"] else [])
  ++ (if missing_or_not isValidPhone (reg_phone r)
      then ["Valid phone number is required"] else []).

End Validators.

Module Helpers.

Local Open Scope string_scope.

(** The units of [timeAgo] with their length in seconds, in the order the
    loop visits them. *)
Definition intervals : list (string * Z) :=
  [ ("year", 31536000%Z); ("month", 2592000%Z); ("week", 604800%Z);
    ("day", 86400%Z); ("hour", 3600%Z); ("minute", 60%Z) ].

Fixpoint first_interval (diffInSeconds : Z) (l : list (string * Z)) : string :=
  match l with
  | (unit, seconds) :: rest =>
      let interval := (diffInSeconds / seconds)%Z in
      if (1 <=? interval)%Z
      then Api.show_Z interval ++ " " ++ unit
             ++ (if (1 <? interval)%Z then "s" else "") ++ " ago"
      else first_interval diffInSeconds rest
  | [] => "just now"
  end.

(** [timeAgo(date)] at the instant [now]; both in milliseconds, [past] is
    [None] for an invalid date. *)
Definition timeAgo (now : Z) (past : option Z) : string :=
  match past with
  | Some p => first_interval ((now - p) / 1000)%Z intervals
  | None => "just now"
  end.



End Helpers.

(* ====================================================================== *)
(** ** utils/api.js: geocoding; POST /api/geocode *)
(* ====================================================================== *)

Module Geocoding.

Import Config Api.
Local Open Scope string_scope.

(** One element of the array the geocoder answers with; a missing key is
    [None]. *)
Record GeoAddress := {
  county : option string;
  suburb : option string;
  state : option string;
  region : option string;
  country : option string
}.

Record GeoItem := {
  display_name : option string;
  item_lat : option string;
  item_lon : option string;
  item_address : option GeoAddress
}.

(** What [response.json()] resolves to: a falsy value, an array, or a value
    of another kind (an object, on which [length] is undefined and [map] is
    not a function). *)
Inductive payload :=
| JsonNull
| JsonArray (items : list GeoItem)
| JsonObject.

Record Suggestion := {
  s_address : string;
  s_coords : Point;
  s_county : string;
  s_region : string;
  s_country : string
}.

(** The two shapes [geocodeAddress] returns. *)
Inductive geocoded :=
| Suggestions (suggestions : list Suggestion)
| Single (lat lng : num) (address : string).

Section WithExternals.

(** [parseFloat] and the body of a response ([response.json()], which may
    reject) are taken as given. *)
Variable parseFloat : option string -> num.
Variable json : HttpResponse -> payload + JsError.

(** [item.address?.k1 || item.address?.k2 || ''] *)
Definition first_of (a : option GeoAddress) (k1 k2 : GeoAddress -> option string)
  : string :=
  match a with
  | Some x => JS.or_else (k1 x) (JS.or_else (k2 x) "")
  | None => ""
  end.

Definition suggestion_of (address : string) (item : GeoItem) : Suggestion :=
  {| s_address := JS.or_else (display_name item) address;
     s_coords := {| lat := parseFloat (item_lat item);
                    lng := parseFloat (item_lon item) |};
     s_county := first_of (item_address item) county suburb;
     s_region := first_of (item_address item) state region;
     s_country := first_of (item_address item) country (fun _ => None) |}.

(** [geocodeAddress(address, apiKey, limit)] *)
Definition geocodeAddress (net : Net) (address : string) (limit : Z)
  : geocoded + JsError :=
  let rethrown (error : JsError) : geocoded + JsError :=
    inr (Error ("Geocoding failed: " ++ message error)) in
  match fetchWithTimeout net 0 RETRIES_DEFAULT with
  | inr error => rethrown error
  | inl response =>
      match json response with
      | inr error => rethrown error
      | inl JsonNull => inl (Suggestions [])
      | inl (JsonArray []) => inl (Suggestions [])
      | inl JsonObject =>
          rethrown {| name := "TypeError"; message := "data.map is not a function" |}
      | inl (JsonArray ((first :: _) as data)) =>
          let suggestions := map (suggestion_of address) data in
          if (limit =? 1)%Z then
            inl (Single (lat (s_coords (suggestion_of address first)))
                        (lng (s_coords (suggestion_of address first)))
                        (s_address (suggestion_of address first)))
          else inl (Suggestions suggestions)
      end
  end.

(** [req.body] of POST /api/geocode: [geo_address] is [None] when the key is
    missing or is not a string, [geo_limit] when the key is missing. *)
Record GeocodeBody := { geo_address : option string; geo_limit : option Z }.

Inductive geocode_response :=
| GeoSuggestions (suggestions : list Suggestion) (query : string)
| GeoSingle (lat lng : num) (address : string)
| GeoBadRequest (error : string)
| GeoUnavailable (error : string) (details : option string).

Definition POST_api_geocode (env : Env) (net : Net) (b : GeocodeBody)
  : geocode_response :=
  let limit := match geo_limit b with Some l => l | None => 1%Z end in
  match geo_address b with
  | None => GeoBadRequest "Address is required and must be a string"
  | Some address =>
      if address =? "" then GeoBadRequest "Address is required and must be a string"
      else
        match geocodeAddress net address limit with
        | inl (Suggestions suggestions) => GeoSuggestions suggestions address
        | inl (Single la lo a) => GeoSingle la lo a
        | inr error =>
            GeoUnavailable
              "Geocoding service temporarily unavailable. Please try again."
              (match NODE_ENV env with
               | Some "development" => Some (message error)
               | _ => None
               end)
        end
  end.

End WithExternals.

End Geocoding.

(* ====================================================================== *)
(** ** GET /trips/:id *)
(* ====================================================================== *)

Module Detail.

Import Store Config Regex.
Local Open Scope string_scope.

(** [[0-9a-f]] under the flag [i] *)
Definition hex_char (c : ascii) : bool :=
  let n := nat_of_ascii c in
  ((48 <=? n) && (n <=? 57) || (97 <=? n) && (n <=? 102)
   || (65 <=? n) && (n <=? 70))%nat.

(** [[1-5]] *)
Definition version_char (c : ascii) : bool :=
  let n := nat_of_ascii c in ((49 <=? n) && (n <=? 53))%nat.

(** [[89ab]] under the flag [i] *)
Definition variant_char (c : ascii) : bool :=
  Ascii.eqb c "8" || Ascii.eqb c "9" || Ascii.eqb c "a" || Ascii.eqb c "b"
  || Ascii.eqb c "A" || Ascii.eqb c "B".

Definition hyphen : re := Class (Ascii.eqb "-").

Definition hexes (n : nat) : re := Repeat n (Class hex_char).

(** [/^[0-9a-f]{8}-[0-9a-f]{4}-[1-5][0-9a-f]{3}-[89ab][0-9a-f]{3}-[0-9a-f]{12}$/i] *)
Definition uuidRegex : re :=
  Seq (hexes 8) (Seq hyphen (Seq (hexes 4) (Seq hyphen
    (Seq (Class version_char) (Seq (hexes 3) (Seq hyphen
      (Seq (Class variant_char) (Seq (hexes 3) (Seq hyphen (hexes 12)))))))))).

(** [{ valid: true }] or [{ valid: false, error }] *)
Inductive IdValidation :=
| ValidId
| InvalidId (error : string).

Definition validateTripId (tripId : string) : IdValidation :=
  if tripId =? "" then InvalidId "Trip ID is required"
  else if negb (test uuidRegex tripId) then InvalidId "Invalid trip ID format"
  else ValidId.

(** The store during one request: [Some e] makes the query answer with the
    error [e]. *)
Record DetailFaults := {
  on_trip_fetch : option PgError;
  on_driver_fetch : option PgError
}.

(** [fetchTripById(tripId)]: an exception of [createClient] becomes the
    error [FETCH_ERROR]. *)
Definition fetchTripById (env : Env) (f : DetailFaults) (d : DB) (tripId : string)
  : Resp Trip :=
  if negb (JS.truthy (SUPABASE_URL env)) then
    failed {| code := "FETCH_ERROR"; message := "supabaseUrl is required." |}
  else if negb (JS.truthy (SUPABASE_SERVICE_ROLE_KEY env)) then
    failed {| code := "FETCH_ERROR"; message := "supabaseKey is required." |}
  else
    match on_trip_fetch f with
    | Some e => failed e
    | None => single (trips_by_id d tripId)
    end.

(** The columns [fetchDriverProfile] selects; [null] is [None]. *)
Record DriverCard := {
  card_full_name : string;
  card_phone : option string;
  card_avatar_url : option string;
  card_bio : option string
}.

Definition unknown_driver : DriverCard :=
  {| card_full_name := "Unknown Driver"; card_phone := None;
     card_avatar_url := None; card_bio := None |}.

Definition card_of (p : Profile) : DriverCard :=
  {| card_full_name := full_name p; card_phone := Some (phone p);
     card_avatar_url := avatar_url p; card_bio := Some (bio p) |}.

(** [fetchDriverProfile(driverId)]: [createClient] is not guarded here, its
    exception ([inr]) reaches the handler. *)
Definition fetchDriverProfile (env : Env) (f : DetailFaults) (d : DB)
           (driverId : string) : DriverCard + string :=
  if driverId =? "" then inl unknown_driver
  else if negb (JS.truthy (SUPABASE_URL env)) then inr "supabaseUrl is required."
  else if negb (JS.truthy (SUPABASE_ANON_KEY env)) then inr "supabaseKey is required."
  else
    match on_driver_fetch f with
    | Some _ => inl unknown_driver
    | None =>
        match data (single (profiles_by_id d driverId)) with
        | Some p => inl (card_of p)
        | None => inl unknown_driver
        end
    end.

(** The data the page is rendered from.  The route geometry that
    [formatTripData] and the geocoder add to [trip] for the map is not a
    column of the model; its failures are caught where they arise. [canBook]
    is the truthiness of [req.user && ...]. *)
Record DetailPage := {
  page_trip : Trip;
  page_driver : DriverCard;
  isPastTrip : bool;
  canBook : bool
}.

Inductive detail_response :=
| DetailError (status : Z) (error : string) (details : option string)
| DetailShown (page : DetailPage).

(** [process.env.NODE_ENV === 'development' ? msg : undefined] *)
Definition in_development (env : Env) (msg : string) : option string :=
  match NODE_ENV env with
  | Some "development" => Some msg
  | _ => None
  end.

(** The route handler, at the instant [now]. *)
Definition GET_trips_id (env : Env) (f : DetailFaults) (now : Z)
           (req : Booking.Request) (d : DB) : detail_response :=
  let tripId := Booking.params_id req in
  match validateTripId tripId with
  | InvalidId e => DetailError 400 e (in_development env e)
  | ValidId =>
    let fetched := fetchTripById env f d tripId in
    match error fetched, data fetched with
    | Some tripError, _ =>
        DetailError 500 "Failed to load trip details. Please try again later."
                    (in_development env (message tripError))
    | None, None =>
        DetailError 404 "Trip not found" (Some ("No trip found with ID: " ++ tripId))
    | None, Some trip =>
        match fetchDriverProfile env f d (driver_id trip) with
        | inr msg =>
            DetailError 500 "Failed to load trip details. Please try again later."
                        (in_development env msg)
        | inl driverProfile =>
            DetailShown
              {| page_trip := trip;
                 page_driver := driverProfile;
                 isPastTrip := (departure_timestamp trip <? now)%Z;
                 canBook :=
                   match Booking.user req with
                   | Some u =>
                       negb (Booking.user_id u =? driver_id trip)
                       && (now <? departure_timestamp trip)%Z
                   | None => false
                   end |}
        end
    end
  end.

End Detail.

(* ====================================================================== *)
(** ** Home page trips and GET /health *)
(* ====================================================================== *)

Module Home.

Import Store Config Health.
Local Open Scope string_scope.

(** [fetchFeaturedTrips(now)]: the query goes through the wrapped client,
    and [p] says how it ends: the store answers, with the rows or with an
    error, or the client rejects; [inr] is the exception thrown. *)
Definition fetchFeaturedTrips (env : Env) (p : probe) (d : DB)
  : list Listing.TripRow + string :=
  match supabase_probe env p, p with
  | inr msg, _ => inr msg
  | inl _, Answered (Some e) => inr (message e)
  | inl _, _ =>
      inl (map (Listing.with_driver d)
               (firstn (Z.to_nat Listing.TRIPS_LIMIT)
                       (Listing.order_by_departure
                          (filter (fun t => (0 <? available_seats t)%Z) (trips d)))))
  end.

(** The object GET /health answers with. *)
Record SiteHealth := {
  site_status : string;
  site_timestamp : string;
  database : string;
  server : string;
  database_error : option string
}.

(** The route handler: status code and body. *)
Definition GET_health (env : Env) (p : probe) (now : string) : Z * SiteHealth :=
  let degraded msg :=
    {| site_status := "degraded"; site_timestamp := now;
       database := "unhealthy"; server := "healthy";
       database_error := Some msg |} in
  let health :=
    match supabase_probe env p, p with
    | inr msg, _ => degraded msg
    | inl _, Answered (Some e) => degraded (message e)
    | inl _, _ =>
        {| site_status := "healthy"; site_timestamp := now;
           database := "healthy"; server := "healthy";
           database_error := None |}
    end in
  (if site_status health =? "healthy" then 200%Z else 503%Z, health).

End Home.

(* ====================================================================== *)
(** ** utils/auth.js: the token of a request *)
(* ====================================================================== *)

Module Auth.

Local Open Scope string_scope.

(** [s.split(sep)] for a separator of one character. *)
Fixpoint split_on (sep : ascii) (s : string) : list string :=
  match s with
  | EmptyString => [""]
  | String c r =>
      if Ascii.eqb c sep then "" :: split_on sep r
      else match split_on sep r with
           | w :: ws => String c w :: ws
           | [] => [String c ""]
           end
  end.

(** [getTokenFromRequest(req)], from [req.headers.authorization] and
    [req.cookies.sb_access_token]. *)
Definition getTokenFromRequest (authorization sb_access_token : option string)
  : option string :=
  let bearer :=
    match authorization with
    | Some header => if header =? "" then None
                     else nth_error (split_on " " header) 1
    | None => None
    end in
  if JS.truthy sb_access_token then sb_access_token
  else if JS.truthy bearer then bearer
  else None.

End Auth.

(* ====================================================================== *)
(** ** Predicates the properties are stated with *)
(* ====================================================================== *)

Module Invariants.

Import Store Handler.

(** A fragment of the booking handler leaves the profiles as they are,
    however it ends. *)
Definition keeps_profiles {A} (m : M Booking.response A) : Prop :=
  forall s, profiles (db (snd (m s))) = profiles (db s).

(** No trip of the list leaves before a trip that precedes it. *)
Fixpoint ascending (l : list Trip) : Prop :=
  match l with
  | [] => True
  | t :: r =>
      Forall (fun u => (departure_timestamp t <= departure_timestamp u)%Z) r
      /\ ascending r
  end.

(** The number of bookings the store holds for a trip. *)
Definition booked_seats (d : DB) (tid : string) : Z :=
  Z.of_nat (List.length (filter (fun b => (trip_id b =? tid)%string) (bookings d))).

(** Booking requests handled one after the other, each at its own instant
    and with its own store failures. *)
Fixpoint run_bookings (env : Config.Env)
         (reqs : list (Booking.Faults * Z * Booking.Request)) (s : St) : St :=
  match reqs with
  | [] => s
  | (f, now, req) :: rest =>
      run_bookings env rest (snd (Booking.POST_trips_book env f now req s))
  end.

(** The error one attempt of [fetchWithTimeout] ends with: that of the
    network, or the one thrown on a response that is not [ok]. *)
Definition thrown_by (a : Api.attempt) : option Api.JsError :=
  match a with
  | Api.NetworkError e => Some e
  | Api.Responded r =>
      if Api.ok r then None
      else Some (Api.Error ("HTTP " ++ Api.show_Z (Api.status r) ++ ": "
                                    ++ Api.statusText r)%string)
  end.

End Invariants.

(* ====================================================================== *)
(** ** Further stores and requests used in examples *)
(* ====================================================================== *)

Module Samples.

Import Store.
Local Open Scope string_scope.

Definition trip_key : string := "3f2b8c1e-7a4d-4e2b-9c1f-0a1b2c3d4e5f".

(** Dan's trip under a key of the form the detail page accepts. *)
Definition keyed_trip (seats departure : Z) : Trip :=
  {| id := trip_key; driver_id := "dan";
     origin_text := "Pune"; destination_text := "Mumbai";
     departure_timestamp := departure; available_seats := seats; price := None |}.

Definition keyed_store (seats departure : Z) : DB :=
  {| profiles := [Examples.dan; Examples.ann];
     trips := [keyed_trip seats departure];
     bookings := [] |}.

(** A request of Ann about that trip. *)
Definition ann_asks : Booking.Request :=
  {| Booking.user := Some (Examples.as_user Examples.ann);
     Booking.params_id := trip_key;
     Booking.originalUrl := "/trips/" ++ trip_key |}.

(** The store once Ann holds a booking for that trip. *)
Definition booked_store : DB :=
  {| profiles := [Examples.dan; Examples.ann];
     trips := [keyed_trip 3 2000];
     bookings := [ {| booking_id := 1; trip_id := trip_key;
                      passenger_id := "ann"; booked_at := 900 |} ] |}.

(** A passenger without a profile row yet. *)
Definition bob : Profile :=
  {| profile_id := "bob"; full_name := "Bob"; phone := "0555555555";
     bio := ""; avatar_url := None |}.


Definition detail_answers : Detail.DetailFaults :=
  {| Detail.on_trip_fetch := None; Detail.on_driver_fetch := None |}.

End Samples.


(* ====================================================================== *)
(** * Properties *)
(* ====================================================================== *)

(** ** The booking handler *)

Module BookingFacts.

Import Store Handler Config Booking.
Local Open Scope string_scope.
Local Open Scope list_scope.

(** *** The relation [calm] *)

Lemma calm_refl s : calm s s.
Proof.
  repeat split; exists []; split; [now rewrite app_nil_r | reflexivity].
Qed.

Lemma calm_trans s1 s2 s3 : calm s1 s2 -> calm s2 s3 -> calm s1 s3.
Proof.
  intros (Ht1 & Hb1 & e1 & He1 & Hw1) (Ht2 & Hb2 & e2 & He2 & Hw2).
  repeat split; try congruence.
  exists (e1 ++ e2). split.
  - rewrite He2, He1. now rewrite app_assoc.
  - rewrite existsb_app, Hw1, Hw2. reflexivity.
Qed.

(** A state that differs from [s] by trace lines that are not writes, and
    by its profiles only. *)
Lemma calm_log s p evs :
  existsb writes evs = false ->
  calm s {| db := {| profiles := p; trips := trips (db s); bookings := bookings (db s) |};
            trace := trace s ++ evs |}.
Proof.
  intros H. repeat split. exists evs. split; [reflexivity | exact H].
Qed.

Lemma calm_log_same s evs :
  existsb writes evs = false ->
  calm s {| db := db s; trace := trace s ++ evs |}.
Proof.
  intros H. repeat split. exists evs. split; [reflexivity | exact H].
Qed.

Lemma app_app_one {A} (l : list A) (x y : A) : (l ++ [x]) ++ [y] = l ++ [x; y].
Proof. now rewrite <- app_assoc. Qed.

Ltac unfold_step :=
  cbv [ensure_profile get_trip validate_eligibility create_booking
       decrement_seats fetch_driver bind ret reply throw when console_error
       emit query single ok failed hide_rows];
  cbn [db trace data error fst snd].

Ltac solve_calm :=
  cbn [db trace trips bookings profiles];
  repeat rewrite <- app_assoc; cbn [app];
  first [ apply calm_refl
        | apply calm_log_same; reflexivity
        | apply calm_log; reflexivity ].

(** *** STEP 1 *)

Lemma ensure_profile_run f u tid s :
  exists o s1,
    ensure_profile f u tid s = (o, s1) /\ calm s s1 /\
    match o with
    | Next _ => profile_step_passes f u (db s) = true
    | Replied r =>
        profile_step_passes f u (db s) = false /\
        exists m, r = RedirectTrip tid "profile_failed" (Some m)
    | Thrown _ => False
    end.
Proof.
  unfold profile_step_passes. unfold_step. unfold insert_profile.
  change (profile_id (new_profile u)) with (user_id u).
  destruct (on_profile_check f) as [e|]; cbn [data error].
  - destruct (negb (code e =? "PGRST116")), (on_profile_insert f) as [e'|];
      cbn [data error db trace].
    all: destruct (profiles_by_id (db s) (user_id u)) as [|p l] eqn:E;
      cbn [data error db trace].
    all: do 2 eexists; split; [reflexivity|].
    all: split; [solve_calm | first [reflexivity | split; [reflexivity | eexists; reflexivity]]].
  - destruct (profiles_by_id (db s) (user_id u)) as [|p [|q l]] eqn:E;
      cbn [data error db trace negb code PGRST116 String.eqb Ascii.eqb Bool.eqb].
    all: try (destruct (on_profile_insert f) as [e'|]; cbn [data error db trace]).
    all: try rewrite E; cbn [data error db trace].
    all: do 2 eexists; split; [reflexivity|].
    all: split; [solve_calm | first [reflexivity | split; [reflexivity | eexists; reflexivity]]].
Qed.

(** *** STEP 2 *)

Lemma get_trip_run f tid s :
  exists s1,
    get_trip f tid s =
      (match on_trip_query f, trips_by_id (db s) tid with
       | None, [t] => Next t
       | _, _ => Replied (RedirectTrip tid "trip_not_found" None)
       end, s1) /\ calm s s1.
Proof.
  unfold_step.
  destruct (on_trip_query f) as [e|]; cbn [data error db trace].
  - destruct (trips_by_id (db s) tid); eexists; (split; [reflexivity | solve_calm]).
  - destruct (trips_by_id (db s) tid) as [|t [|t' l]]; cbn [data error db trace];
      eexists; (split; [reflexivity | solve_calm]).
Qed.

(** *** STEP 3 *)

Lemma validate_eligibility_run f uid tid t s :
  exists s1,
    validate_eligibility f uid tid t s =
      (if uid =? driver_id t then Replied (RedirectTrip tid "driver_booking" None)
       else if (available_seats t <=? 0)%Z
            then Replied (RedirectTrip tid "no_seats" None)
            else match on_booking_check f, bookings_of (db s) tid uid with
                 | None, _ :: _ => Replied (RedirectTrip tid "already_booked" None)
                 | _, _ => Next tt
                 end, s1) /\ calm s s1.
Proof.
  unfold_step.
  destruct (uid =? driver_id t); [eexists; split; [reflexivity | solve_calm]|].
  destruct (available_seats t <=? 0)%Z; [eexists; split; [reflexivity | solve_calm]|].
  destruct (on_booking_check f) as [e|]; cbn [data error db trace].
  - destruct (bookings_of (db s) tid uid); eexists; (split; [reflexivity | solve_calm]).
  - destruct (bookings_of (db s) tid uid); eexists; (split; [reflexivity | solve_calm]).
Qed.

Lemma trips_by_id_calm s s1 tid :
  calm s s1 -> trips_by_id (db s1) tid = trips_by_id (db s) tid.
Proof. intros (H & _). unfold trips_by_id. now rewrite H. Qed.

Lemma bookings_of_calm s s1 tid uid :
  calm s s1 -> bookings_of (db s1) tid uid = bookings_of (db s) tid uid.
Proof. intros (_ & H & _). unfold bookings_of. now rewrite H. Qed.

(** *** STEP 4 *)

Lemma create_booking_run f now uid tid s :
  exists o s1,
    create_booking f now uid tid s = (o, s1) /\
    trips (db s1) = trips (db s) /\
    match o with
    | Next b =>
        on_booking_insert f = None /\ booking_rows_hidden f = false /\
        bookings_of (db s) tid uid = [] /\
        b = new_booking (db s) tid uid now /\
        bookings (db s1) = bookings (db s) ++ [b]
    | Replied r =>
        (exists m, r = RedirectTrip tid "booking_failed" (Some m)) /\
        (bookings (db s1) = bookings (db s) \/
         (bookings_of (db s) tid uid = [] /\
          bookings (db s1) = bookings (db s) ++ [new_booking (db s) tid uid now])) /\
        (on_booking_insert f <> None \/ booking_rows_hidden f = true \/
         bookings_of (db s) tid uid <> [])
    | Thrown _ => False
    end.
Proof.
  unfold_step. unfold insert_booking.
  destruct (on_booking_insert f) as [e|]; cbn [data error db trace].
  { do 2 eexists. split; [reflexivity|]. cbn [db trips].
    split; [reflexivity|]. split; [eexists; reflexivity|].
    split; [left; reflexivity | left; discriminate]. }
  destruct (bookings_of (db s) tid uid) as [|b0 l] eqn:E; unfold ok;
    cbn [data error db trace option_map].
  - destruct (booking_rows_hidden f); cbn [data error db trace option_map].
    + do 2 eexists. split; [reflexivity|]. cbn [db trips bookings].
      split; [reflexivity|]. split; [eexists; reflexivity|].
      split; [right; now split | right; left; reflexivity].
    + do 2 eexists. split; [reflexivity|]. cbn [db trips bookings].
      repeat split; reflexivity.
  - destruct (booking_rows_hidden f); cbn [data error db trace option_map failed].
    all: do 2 eexists; (split; [reflexivity|]); cbn [db trips bookings];
      (split; [reflexivity|]); (split; [eexists; reflexivity|]);
      (split; [left; reflexivity | right; right; discriminate]).
Qed.

(** *** STEP 5 *)

Lemma decrement_seats_run f tid t s :
  exists s1,
    decrement_seats f tid t s = (Next tt, s1) /\
    bookings (db s1) = bookings (db s) /\
    if seat_update_refused f (db s) tid t then
      db s1 = db s /\
      trace s1 = trace s ++ [Issued (UpdateSeats tid (available_seats t - 1));
                             ConsoleError "Error updating seats"]
    else
      trips (db s1) =
        map (fun x => if id x =? tid then set_seats (available_seats t - 1) x else x)
            (trips (db s)) /\
      trace s1 = trace s ++ [Issued (UpdateSeats tid (available_seats t - 1))].
Proof.
  unfold_step. unfold update_seats, seat_update_refused.
  destruct (on_seat_update f) as [e|]; cbn [data error db trace bookings trips].
  - eexists. split; [reflexivity|]. cbn [db trace]. rewrite <- app_assoc.
    repeat split; reflexivity.
  - destruct (refuses_seats (db s) tid (available_seats t - 1));
      unfold failed, ok; cbn [data error db trace trips bookings].
    + eexists. split; [reflexivity|]. cbn [db trace]. rewrite <- app_assoc.
      repeat split; reflexivity.
    + eexists. split; [reflexivity|]. cbn [db trace trips bookings].
      repeat split; reflexivity.
Qed.

Lemma refuses_seats_same d d' tid n :
  trips d' = trips d -> refuses_seats d' tid n = refuses_seats d tid n.
Proof. intros H. unfold refuses_seats. now rewrite H. Qed.

Lemma seat_update_refused_same f d d' tid t :
  trips d' = trips d -> seat_update_refused f d' tid t = seat_update_refused f d tid t.
Proof.
  intros H. unfold seat_update_refused.
  destruct (on_seat_update f); [reflexivity | now apply refuses_seats_same].
Qed.

(** *** STEP 6 *)

Lemma fetch_driver_run f t s :
  exists v s1,
    fetch_driver f t s = (Next v, s1) /\ db s1 = db s /\
    exists evs, trace s1 = trace s ++ evs.
Proof.
  unfold_step.
  destruct (on_driver_query f) as [e|]; cbn [data error db trace].
  - do 2 eexists. split; [reflexivity|]. cbn [db trace]. rewrite <- app_assoc.
    split; [reflexivity | eexists; reflexivity].
  - destruct (profiles_by_id (db s) (driver_id t)) as [|p [|q l]];
      cbn [data error db trace].
    all: do 2 eexists; (split; [reflexivity|]); cbn [db trace];
      repeat rewrite <- app_assoc; (split; [reflexivity | eexists; reflexivity]).
Qed.

(** *** Steps 4 to 7 together *)

Lemma finish_booking_run f now uid tid t s :
  exists o s1,
    finish_booking f now uid tid t s = (o, s1) /\
    match o with
    | Next r =>
        on_booking_insert f = None /\ booking_rows_hidden f = false /\
        bookings_of (db s) tid uid = [] /\
        (exists v, r = RenderBooking t v (fresh_booking_id (db s))) /\
        bookings (db s1) = bookings (db s) ++ [new_booking (db s) tid uid now] /\
        if seat_update_refused f (db s) tid t then
          trips (db s1) = trips (db s) /\
          In (ConsoleError "Error updating seats") (trace s1)
        else
          trips (db s1) =
            map (fun x => if id x =? tid then set_seats (available_seats t - 1) x else x)
                (trips (db s))
    | Replied r =>
        (exists m, r = RedirectTrip tid "booking_failed" (Some m)) /\
        trips (db s1) = trips (db s) /\
        (bookings (db s1) = bookings (db s) \/
         (bookings_of (db s) tid uid = [] /\
          bookings (db s1) = bookings (db s) ++ [new_booking (db s) tid uid now])) /\
        (on_booking_insert f <> None \/ booking_rows_hidden f = true \/
         bookings_of (db s) tid uid <> [])
    | Thrown _ => False
    end.
Proof.
  unfold finish_booking. unfold bind at 1.
  destruct (create_booking_run f now uid tid s) as (o1 & s1 & E1 & T1 & H1).
  rewrite E1. destruct o1 as [b|r|m]; [| |contradiction].
  2:{ do 2 eexists. split; [reflexivity|]. destruct H1 as (H1 & H2 & H3). auto. }
  destruct H1 as (Hi & Hh & Hb & -> & B1).
  unfold bind at 1.
  destruct (decrement_seats_run f tid t s1) as (s2 & E2 & B2 & H2).
  rewrite E2. unfold bind at 1.
  destruct (fetch_driver_run f t s2) as (v & s3 & E3 & D3 & evs & T3).
  rewrite E3. unfold ret.
  do 2 eexists. split; [reflexivity|].
  repeat (split; [assumption || (eexists; reflexivity) || idtac|]).
  - rewrite D3, B2. exact B1.
  - rewrite (seat_update_refused_same f _ _ tid t T1) in H2.
    destruct (seat_update_refused f (db s) tid t).
    + destruct H2 as [H2 H2']. split.
      * rewrite D3, H2. exact T1.
      * rewrite T3, H2'. apply in_or_app. left. apply in_or_app. right.
        right. left. reflexivity.
    + destruct H2 as [H2 _]. rewrite D3, H2, T1. reflexivity.
Qed.

(** *** The [try] block: an exception of [createClient], a rejection, or
    the booking goes ahead *)

Lemma book_trip_try_run env f now req s :
  exists o s1,
    book_trip_try env f now req s = (o, s1) /\
    ((exists u m, o = Thrown m /\ s1 = s /\ user req = Some u /\
                  client_configured env = false) \/
     (calm s s1 /\ rejection env f req (db s) (sent o) /\
      exists r, o = Replied r) \/
     (exists u t s0,
         eligible env f req (db s) u t /\ calm s s0 /\
         finish_booking f now (user_id u) (params_id req) t s0 = (o, s1))).
Proof.
  unfold book_trip_try.
  destruct (user req) as [u|] eqn:Hu.
  2:{ do 2 eexists. split; [reflexivity|]. right. left.
      split; [apply calm_refl|]. split; [now constructor | eexists; reflexivity]. }
  unfold bind at 1. unfold createClient.
  assert (Hc : client_configured env =
               JS.truthy (SUPABASE_URL env)
               && JS.truthy (or_key (SUPABASE_SERVICE_ROLE_KEY env)
                                    (SUPABASE_ANON_KEY env))) by reflexivity.
  destruct (JS.truthy (SUPABASE_URL env)).
  2:{ cbn [negb]. do 2 eexists. split; [reflexivity|]. left. eauto 6. }
  destruct (JS.truthy (or_key (SUPABASE_SERVICE_ROLE_KEY env) (SUPABASE_ANON_KEY env))).
  2:{ cbn [negb]. do 2 eexists. split; [reflexivity|]. left. eauto 6. }
  cbn [andb] in Hc. cbn [negb]. unfold ret at 1. unfold bind at 1.
  destruct (ensure_profile_run f u (params_id req) s) as (o1 & s1 & E1 & C1 & H1).
  rewrite E1. destruct o1 as [[]|r|m]; [| |contradiction].
  2:{ destruct H1 as (Hp & m & ->).
      do 2 eexists. split; [reflexivity|]. right. left. split; [exact C1|].
      split; [|eexists; reflexivity]. cbn [sent]. eapply rej_profile; eauto. }
  unfold bind at 1.
  destruct (get_trip_run f (params_id req) s1) as (s2 & E2 & C2).
  rewrite E2. rewrite (trips_by_id_calm _ C1).
  assert (C12 : calm s s2) by (eapply calm_trans; eauto).
  destruct (on_trip_query f) as [e|] eqn:Hq.
  { do 2 eexists. split; [reflexivity|]. right. left. split; [exact C12|].
    split; [|eexists; reflexivity].
    cbn [sent]. eapply rej_trip; eauto. rewrite Hq.
    destruct (trips_by_id (db s) (params_id req)); exact I. }
  destruct (trips_by_id (db s) (params_id req)) as [|t [|t' l]] eqn:Ht.
  1,3: do 2 eexists; (split; [reflexivity|]); right; left; (split; [exact C12|]);
       (split; [|eexists; reflexivity]);
       cbn [sent]; eapply rej_trip; eauto; rewrite Hq, Ht; exact I.
  unfold bind at 1.
  destruct (validate_eligibility_run f (user_id u) (params_id req) t s2)
    as (s3 & E3 & C3).
  rewrite E3. rewrite (bookings_of_calm _ _ C12).
  assert (C13 : calm s s3) by (eapply calm_trans; eauto).
  destruct (user_id u =? driver_id t) eqn:Hd.
  { apply String.eqb_eq in Hd.
    do 2 eexists. split; [reflexivity|]. right. left. split; [exact C13|].
    split; [|eexists; reflexivity]. cbn [sent]. eapply rej_driver; eauto. }
  apply String.eqb_neq in Hd.
  destruct (available_seats t <=? 0)%Z eqn:Hs.
  { apply Z.leb_le in Hs.
    do 2 eexists. split; [reflexivity|]. right. left. split; [exact C13|].
    split; [|eexists; reflexivity]. cbn [sent]. eapply rej_seats; eauto. }
  apply Z.leb_gt in Hs.
  assert (Hgo : (on_booking_check f = None ->
                 bookings_of (db s) (params_id req) (user_id u) = []) ->
                exists o s4,
                  finish_booking f now (user_id u) (params_id req) t s3 = (o, s4) /\
                  exists u0 t0 s0,
                    eligible env f req (db s) u0 t0 /\ calm s s0 /\
                    finish_booking f now (user_id u0) (params_id req) t0 s0 = (o, s4)).
  { intros Hb.
    destruct (finish_booking f now (user_id u) (params_id req) t s3) as [o s4] eqn:E4.
    do 2 eexists. split; [reflexivity|]. exists u, t, s3.
    split; [|split; [exact C13 | exact E4]].
    repeat split; auto. }
  destruct (on_booking_check f) as [e|] eqn:Hk.
  - destruct Hgo as (o & s4 & E4 & Hgo); [discriminate|].
    assert (E : (let (o0, s') := (@Next response unit tt, s3) in
                 match o0 with
                 | Next _ => finish_booking f now (user_id u) (params_id req) t s'
                 | Replied r => (Replied r, s')
                 | Thrown msg => (Thrown msg, s')
                 end) = (o, s4)) by exact E4.
    destruct (bookings_of (db s) (params_id req) (user_id u));
      do 2 eexists; (split; [exact E|]); right; right; exact Hgo.
  - destruct (bookings_of (db s) (params_id req) (user_id u)) as [|b l] eqn:Hb.
    + destruct Hgo as (o & s4 & E4 & Hgo); [reflexivity|].
      do 2 eexists. split; [exact E4|]. right; right; exact Hgo.
    + do 2 eexists. split; [reflexivity|]. right. left. split; [exact C13|].
      split; [|eexists; reflexivity]. cbn [sent].
      eapply rej_booked; eauto. rewrite Hb. discriminate.
Qed.

(** *** The route: a rejection that leaves bookings and trips alone, or
    the run of steps 4 to 7 from an eligible request *)

Lemma POST_trips_book_run env f now req s :
  (calm s (snd (POST_trips_book env f now req s)) /\
   rejection env f req (db s) (fst (POST_trips_book env f now req s))) \/
  (exists u t s0 o,
      eligible env f req (db s) u t /\ calm s s0 /\
      finish_booking f now (user_id u) (params_id req) t s0
        = (o, snd (POST_trips_book env f now req s)) /\
      fst (POST_trips_book env f now req s) = sent o).
Proof.
  unfold POST_trips_book, book_trip, try_catch.
  destruct (book_trip_try_run env f now req s) as (o & s1 & E & H).
  rewrite E.
  destruct H as [(u & m & -> & -> & Hu & Hc) | [(C & R & r & ->) | (u & t & s0 & He & C & F)]].
  - left. unfold book_trip_catch. unfold_step. split; [solve_calm|].
    cbn [sent fst]. eapply rej_client; eauto.
  - left. cbn [fst snd]. split; assumption.
  - right. exists u, t, s0, o.
    destruct (finish_booking_run f now (user_id u) (params_id req) t s0)
      as (o' & s' & E' & H').
    rewrite E' in F. inversion F; subst o' s'.
    destruct o as [r|r|m]; [| |contradiction]; cbn [fst snd]; auto.
Qed.

Lemma rejection_not_confirmation env f req d r :
  rejection env f req d r -> is_confirmation r = false.
Proof. destruct 1; reflexivity. Qed.

Lemma calm_from_start d s :
  calm (start d) s ->
  no_writes s /\ bookings (db s) = bookings d /\ trips (db s) = trips d.
Proof.
  intros (Ht & Hb & evs & He & Hw). unfold no_writes.
  cbn [start db trace] in *. rewrite He. cbn [app]. auto.
Qed.

Lemma new_booking_calm s s0 tid uid now :
  calm s s0 -> new_booking (db s0) tid uid now = new_booking (db s) tid uid now.
Proof.
  intros (_ & H & _). unfold new_booking, fresh_booking_id. now rewrite H.
Qed.

Ltac same_request :=
  repeat match goal with
         | H : user ?r = Some ?u, H' : user ?r = Some ?v |- _ =>
             assert (u = v) by congruence; subst v; clear H'
         | H : user ?r = Some _, H' : user ?r = None |- _ => congruence
         | H : trips_by_id ?d ?i = [?t], H' : trips_by_id ?d ?i = [?v] |- _ =>
             assert (t = v) by congruence; subst v; clear H'
         end.

(** C4. A caller who is the driver of the trip is never given a
    confirmation, and neither the booking insert nor the seat update is
    issued, whatever the number of seats; once the store client is
    configured, step 1 passes and the trip query is answered, the response
    is the redirect with code [driver_booking]. *)
Theorem driver_cannot_book_own_trip env f now req d u t :
  user req = Some u ->
  trips_by_id d (params_id req) = [t] ->
  user_id u = driver_id t ->
  is_confirmation (fst (POST_trips_book env f now req (start d))) = false /\
  no_writes (snd (POST_trips_book env f now req (start d))) /\
  bookings (db (snd (POST_trips_book env f now req (start d)))) = bookings d /\
  trips (db (snd (POST_trips_book env f now req (start d)))) = trips d /\
  (client_configured env = true ->
   profile_step_passes f u d = true ->
   on_trip_query f = None ->
   fst (POST_trips_book env f now req (start d))
     = RedirectTrip (params_id req) "driver_booking" None).
Proof.
  intros Hu Ht Hd.
  pose proof (POST_trips_book_run env f now req (start d)) as H.
  destruct (POST_trips_book env f now req (start d)) as [r s'].
  cbn [fst snd start db] in *.
  destruct H as [[C R] | (u0 & t0 & s0 & o & He & _)].
  - apply calm_from_start in C. destruct C as (Hw & Hb & Htr).
    split; [eapply rejection_not_confirmation; eauto|].
    repeat (split; [assumption|]).
    intros Hc Hp Hq.
    destruct R; same_request; try congruence.
    rewrite Hq, Ht in *. contradiction.
  - destruct He as (Hu0 & _ & _ & _ & Ht0 & Hne & _). same_request. contradiction.
Qed.

Lemma driver_cannot_book_own_trip_witness :
  is_confirmation
    (fst (POST_trips_book Examples.env no_faults 1000 (Examples.book_as Examples.dan)
                          (start (Examples.store_with 3 [])))) = false /\
  fst (POST_trips_book Examples.env no_faults 1000 (Examples.book_as Examples.dan)
                       (start (Examples.store_with 3 [])))
    = RedirectTrip "trip-1" "driver_booking" None.
Proof.
  pose proof (@driver_cannot_book_own_trip Examples.env no_faults 1000
                (Examples.book_as Examples.dan) (Examples.store_with 3 [])
                (Examples.as_user Examples.dan) (Examples.trip_with 3)
                eq_refl eq_refl eq_refl) as H.
  split; [apply H | apply H; reflexivity].
Defined.

(** *** The seat constraint of the store *)

Lemma found_in_store d tid t :
  trips_by_id d tid = [t] -> In t (trips d) /\ id t = tid.
Proof.
  intros H. assert (Hin : In t (trips_by_id d tid)) by (rewrite H; now left).
  apply filter_In in Hin. destruct Hin as [Hin Hid].
  split; [assumption | now apply String.eqb_eq].
Qed.

Lemma found_row_exists d tid t :
  trips_by_id d tid = [t] -> existsb (fun x => id x =? tid) (trips d) = true.
Proof.
  intros H. apply existsb_exists. exists t.
  destruct (found_in_store _ _ H) as [Hin Hid]. split; [assumption|].
  now apply String.eqb_eq.
Qed.


(** An update that is carried out leaves at least one seat. *)
Lemma accepted_update_positive f d tid t :
  trips_by_id d tid = [t] -> seat_update_refused f d tid t = false ->
  (0 < available_seats t - 1)%Z.
Proof.
  intros Ht. unfold seat_update_refused, refuses_seats.
  destruct (on_seat_update f); [discriminate|].
  rewrite (found_row_exists _ _ Ht), andb_true_r. intros H.
  now apply Z.leb_gt in H.
Qed.



(** *** Uniqueness of bookings *)

Lemma unique_bookings_same d d' :
  bookings d' = bookings d -> unique_bookings d -> unique_bookings d'.
Proof.
  intros E U tid uid. unfold bookings_of. rewrite E. apply U.
Qed.

Lemma unique_bookings_insert d d' tid uid now :
  bookings_of d tid uid = [] ->
  bookings d' = bookings d ++ [new_booking d tid uid now] ->
  unique_bookings d -> unique_bookings d'.
Proof.
  intros Hn E U tid' uid'. unfold bookings_of. rewrite E, filter_app.
  cbn [filter new_booking trip_id passenger_id].
  destruct ((tid =? tid') && (uid =? uid')) eqn:Em.
  - apply andb_prop in Em. destruct Em as [E1 E2].
    apply String.eqb_eq in E1, E2. subst tid' uid'.
    unfold bookings_of in Hn. rewrite Hn. cbn. lia.
  - rewrite app_nil_r. apply U.
Qed.

Lemma eligible_not_rejected env f req d u t r :
  eligible env f req d u t -> rejection env f req d r -> False.
Proof.
  intros (Hu & Hc & Hp & Hq & Ht & Hd & Hs & Hb) R.
  destruct R; same_request; try congruence; try lia.
  - rewrite Hq, Ht in *. contradiction.
  - auto.
Qed.

(** Steps 4 to 7, started on any state: uniqueness is kept, and a pair
    that already has a row gets no second one. *)
Lemma finish_booking_keeps_unique f now uid tid t s :
  unique_bookings (db s) ->
  unique_bookings (db (snd (finish_booking f now uid tid t s))).
Proof.
  intros U.
  destruct (finish_booking_run f now uid tid t s) as (o & s1 & E & H).
  rewrite E. cbn [snd]. destruct o as [r|r|m]; [| |contradiction].
  - destruct H as (_ & _ & Hn & _ & Hb & _). eapply unique_bookings_insert; eauto.
  - destruct H as (_ & _ & [Hb | [Hn Hb]] & _).
    + eapply unique_bookings_same; eauto.
    + eapply unique_bookings_insert; eauto.
Qed.

Lemma finish_booking_duplicate f now uid tid t s :
  bookings_of (db s) tid uid <> [] ->
  (exists m, fst (finish_booking f now uid tid t s)
             = Replied (RedirectTrip tid "booking_failed" (Some m))) /\
  bookings (db (snd (finish_booking f now uid tid t s))) = bookings (db s).
Proof.
  intros Hne.
  destruct (finish_booking_run f now uid tid t s) as (o & s1 & E & H).
  rewrite E. cbn [fst snd]. destruct o as [r|r|m]; [| |contradiction].
  - destruct H as (_ & _ & Hn & _). contradiction.
  - destruct H as ((m & ->) & _ & [Hb | [Hn _]] & _); [|contradiction].
    split; [exists m; reflexivity | assumption].
Qed.

(** C3 (as stated, refuted). Two submissions by Ann that both run their
    checks before either one inserts: the first is confirmed; the second,
    made while she already holds her booking, is refused by the unique
    constraint and answered [booking_failed], not [already_booked]; one
    row is stored. *)
Lemma late_duplicate_counterexample :
  let f := no_faults in
  let ann := Examples.as_user Examples.ann in
  let s0 := start (Examples.store_with 2 []) in
  let sA := snd (eligibility_checks f ann "trip-1" s0) in
  let sB := snd (eligibility_checks f ann "trip-1" sA) in
  let s1 := snd (finish_booking f 1000 "ann" "trip-1" (Examples.trip_with 2) sB) in
  let s2 := snd (finish_booking f 1001 "ann" "trip-1" (Examples.trip_with 2) s1) in
  fst (eligibility_checks f ann "trip-1" s0) = Next (Examples.trip_with 2) /\
  fst (eligibility_checks f ann "trip-1" sA) = Next (Examples.trip_with 2) /\
  fst (finish_booking f 1000 "ann" "trip-1" (Examples.trip_with 2) sB)
    = Next (RenderBooking (Examples.trip_with 2) (DriverProfile Examples.dan) 1) /\
  bookings_of (db s1) "trip-1" "ann" = [Examples.ann_booking] /\
  fst (finish_booking f 1001 "ann" "trip-1" (Examples.trip_with 2) s1)
    = Replied (RedirectTrip "trip-1" "booking_failed"
                 (Some "duplicate key value violates unique constraint")) /\
  fst (finish_booking f 1001 "ann" "trip-1" (Examples.trip_with 2) s1)
    <> Replied (RedirectTrip "trip-1" "already_booked" None) /\
  bookings (db s2) = [Examples.ann_booking].
Proof.
  repeat split; try reflexivity. vm_compute. discriminate.
Qed.

(** C3 (amended). Every run of the handler keeps at most one booking per
    (trip, passenger) pair, and so do its steps 4 to 7 started on any state
    of the store, whatever happened since the checks.  A caller who already
    holds a booking for the trip is never given a confirmation and no row
    is added; when the row appears only after the checks, the insert is
    refused and the answer is [booking_failed]; when the checks see it, on
    a store that satisfies the seat constraint, the answer is the redirect
    [already_booked], once the earlier steps pass (client configured, step
    1 passes, the trip is found, the caller is not its driver) and the
    check query is answered. *)
Theorem one_booking_per_passenger env f now req d :
  (unique_bookings d ->
   unique_bookings (db (snd (POST_trips_book env f now req (start d))))) /\
  (forall uid t s,
      (unique_bookings (db s) ->
       unique_bookings (db (snd (finish_booking f now uid (params_id req) t s)))) /\
      (bookings_of (db s) (params_id req) uid <> [] ->
       (exists m, fst (finish_booking f now uid (params_id req) t s)
                  = Replied (RedirectTrip (params_id req) "booking_failed" (Some m))) /\
       bookings (db (snd (finish_booking f now uid (params_id req) t s)))
         = bookings (db s))) /\
  (forall u,
      user req = Some u ->
      bookings_of d (params_id req) (user_id u) <> [] ->
      is_confirmation (fst (POST_trips_book env f now req (start d))) = false /\
      bookings (db (snd (POST_trips_book env f now req (start d)))) = bookings d /\
      (forall t,
          client_configured env = true ->
          profile_step_passes f u d = true ->
          on_trip_query f = None ->
          trips_by_id d (params_id req) = [t] ->
          user_id u <> driver_id t ->
          seats_positive d ->
          on_booking_check f = None ->
          fst (POST_trips_book env f now req (start d))
            = RedirectTrip (params_id req) "already_booked" None /\
          no_writes (snd (POST_trips_book env f now req (start d))))).
Proof.
  assert (Hlate : forall uid t s,
             (unique_bookings (db s) ->
              unique_bookings (db (snd (finish_booking f now uid (params_id req) t s)))) /\
             (bookings_of (db s) (params_id req) uid <> [] ->
              (exists m, fst (finish_booking f now uid (params_id req) t s)
                         = Replied (RedirectTrip (params_id req) "booking_failed" (Some m))) /\
              bookings (db (snd (finish_booking f now uid (params_id req) t s)))
                = bookings (db s))).
  { intros uid t s. split.
    - apply finish_booking_keeps_unique.
    - apply finish_booking_duplicate. }
  pose proof (POST_trips_book_run env f now req (start d)) as H.
  destruct (POST_trips_book env f now req (start d)) as [r s'].
  cbn [fst snd start db] in *.
  destruct H as [[C R] | (u0 & t0 & s0 & o & He & C & F & ->)].
  - apply calm_from_start in C. destruct C as (Hw & Hb & Htr).
    split; [intros U; eapply unique_bookings_same; eauto|].
    split; [exact Hlate|].
    intros u Hu Hbk.
    split; [eapply rejection_not_confirmation; eauto|].
    split; [assumption|].
    intros t Hc Hp Hq Ht Hd Hpos Hk. split; [|assumption].
    assert (Hs : (0 < available_seats t)%Z)
      by (apply Hpos; now apply (found_in_store _ _ Ht)).
    destruct R; same_request; try congruence; try lia.
    rewrite Hq, Ht in *. contradiction.
  - pose proof (calm_from_start C) as (_ & Hb0 & _).
    destruct (finish_booking_run f now (user_id u0) (params_id req) t0 s0)
      as (o' & s1 & E & H).
    rewrite E in F. inversion F; subst o' s1. clear F.
    rewrite (bookings_of_calm _ _ C), (new_booking_calm _ _ _ C) in H.
    cbn [start db] in H. rewrite Hb0 in H.
    split.
    + intros U. destruct o as [r|r|m]; [| |contradiction].
      * destruct H as (_ & _ & Hn & _ & Hb & _).
        eapply unique_bookings_insert; eauto.
      * destruct H as (_ & _ & [Hb | [Hn Hb]] & _).
        -- eapply unique_bookings_same; eauto.
        -- eapply unique_bookings_insert; eauto.
    + split; [exact Hlate|]. intros u Hu Hbk.
      destruct He as (Hu0 & Hc0 & Hp0 & Hq0 & Ht0 & Hd0 & Hs0 & Hk0). same_request.
      destruct o as [r|r|m]; [| |contradiction].
      * destruct H as (_ & _ & Hn & _). contradiction.
      * destruct H as ((m & ->) & _ & [Hb | [Hn _]] & _); [|contradiction].
        split; [reflexivity|]. split; [assumption|].
        intros t Hc Hp Hq Ht Hd Hs Hk. elim Hbk. auto.
Qed.

Lemma one_booking_per_passenger_witness :
  unique_bookings
    (db (snd (POST_trips_book Examples.env no_faults 2000
                (Examples.book_as Examples.ann)
                (start (Examples.store_with 2 [Examples.ann_booking]))))) /\
  fst (POST_trips_book Examples.env no_faults 2000 (Examples.book_as Examples.ann)
                       (start (Examples.store_with 2 [Examples.ann_booking])))
    = RedirectTrip "trip-1" "already_booked" None.
Proof.
  pose proof (@one_booking_per_passenger Examples.env no_faults 2000
                (Examples.book_as Examples.ann)
                (Examples.store_with 2 [Examples.ann_booking])) as (HU & _ & HB).
  split.
  - apply HU. intros tid uid. unfold bookings_of. cbn [Examples.store_with bookings filter].
    destruct ((trip_id Examples.ann_booking =? tid)
              && (passenger_id Examples.ann_booking =? uid)); cbn; lia.
  - assert (Hne : bookings_of (Examples.store_with 2 [Examples.ann_booking])
                              "trip-1" "ann" <> []) by (cbn; discriminate).
    destruct (HB (Examples.as_user Examples.ann) eq_refl Hne) as (_ & _ & HR).
    apply (HR (Examples.trip_with 2)); try reflexivity.
    + cbn. discriminate.
    + intros t [<-|[]]. cbn. lia.
Defined.



(** C2. When the booking row is inserted and the seat update that follows
    is refused by the store, the handler still renders the confirmation
    page with the id of the new booking: the row is in the store, the seat
    count is as before, and the failure appears only as a [console.error]
    line. *)
Theorem seat_update_failure_still_confirms env f now req d u t e :
  eligible env f req d u t ->
  on_booking_insert f = None ->
  booking_rows_hidden f = false ->
  bookings_of d (params_id req) (user_id u) = [] ->
  on_seat_update f = Some e ->
  (exists v, fst (POST_trips_book env f now req (start d))
             = RenderBooking t v
                 (booking_id (new_booking d (params_id req) (user_id u) now))) /\
  bookings (db (snd (POST_trips_book env f now req (start d))))
    = bookings d ++ [new_booking d (params_id req) (user_id u) now] /\
  trips (db (snd (POST_trips_book env f now req (start d)))) = trips d /\
  In (ConsoleError "Error updating seats")
     (trace (snd (POST_trips_book env f now req (start d)))).
Proof.
  intros He Hi Hh Hn Hup.
  pose proof (POST_trips_book_run env f now req (start d)) as H.
  destruct (POST_trips_book env f now req (start d)) as [r s'].
  cbn [fst snd start db] in *.
  destruct H as [[C R] | (u0 & t0 & s0 & o & He0 & C & F & ->)].
  - elim (eligible_not_rejected He R).
  - pose proof (calm_from_start C) as (_ & Hb0 & Ht0).
    assert (u0 = u /\ t0 = t) as [-> ->].
    { destruct He as (Hu & _ & _ & _ & Ht & _), He0 as (Hu0 & _ & _ & _ & Ht' & _).
      split; congruence. }
    destruct (finish_booking_run f now (user_id u) (params_id req) t s0)
      as (o' & s1 & E & H).
    rewrite E in F. inversion F; subst o' s1. clear F.
    rewrite (bookings_of_calm _ _ C), (new_booking_calm _ _ _ C) in H.
    assert (Hr : seat_update_refused f (db s0) (params_id req) t = true)
      by (unfold seat_update_refused; now rewrite Hup).
    cbn [start db] in H. rewrite Hb0, Hr, Ht0 in H.
    destruct o as [r|r|m]; [| |contradiction].
    + destruct H as (_ & _ & _ & (v & ->) & Hb & Htr & Hlog).
      cbn [sent]. split; [exists v; f_equal|].
      * unfold new_booking, fresh_booking_id. cbn [booking_id].
        destruct C as (_ & Hb' & _). now rewrite Hb'.
      * auto.
    + destruct H as (_ & _ & _ & [Hx | [Hx | Hx]]); congruence.
Qed.

Lemma seat_update_failure_still_confirms_witness :
  exists v,
    fst (POST_trips_book Examples.env Examples.seat_update_fails
           1000 (Examples.book_as Examples.ann)
           (start (Examples.store_with 1 [])))
    = RenderBooking (Examples.trip_with 1) v 1.
Proof.
  refine (proj1 (@seat_update_failure_still_confirms Examples.env
                   Examples.seat_update_fails 1000
                   (Examples.book_as Examples.ann) (Examples.store_with 1 [])
                   (Examples.as_user Examples.ann) (Examples.trip_with 1)
                   Examples.update_refused _ eq_refl eq_refl eq_refl eq_refl)).
  repeat split; try reflexivity; cbn; discriminate.
Defined.

End BookingFacts.

(** ** The trip listing *)

Module ListingFacts.

Import Store Config Listing.
Local Open Scope Z_scope.

Section Externals.

Variable parseFloat : string -> number.
Variable ilike : string -> string -> bool.

Lemma insert_by_departure_length t l :
  List.length (insert_by_departure t l) = S (List.length l).
Proof.
  induction l as [|u r IH]; cbn [insert_by_departure]; [reflexivity|].
  destruct (departure_timestamp t <? departure_timestamp u); cbn [List.length];
    [reflexivity | now rewrite IH].
Qed.

Lemma order_by_departure_length l :
  List.length (order_by_departure l) = List.length l.
Proof.
  induction l as [|t r IH]; cbn; [reflexivity|].
  rewrite insert_by_departure_length. now f_equal.
Qed.

Lemma filter_all {A} (p : A -> bool) l : forallb p l = true -> filter p l = l.
Proof.
  induction l as [|x r IH]; cbn; [reflexivity|].
  intros H. apply andb_prop in H. destruct H as [Hx Hr]. rewrite Hx.
  f_equal. auto.
Qed.

Lemma range_length {A} (from to : Z) (l : list A) :
  0 <= from -> from <= to + 1 ->
  List.length (range from to l)
    = Nat.min (Z.to_nat (to - from + 1)) (List.length l - Z.to_nat from).
Proof.
  intros. unfold range. now rewrite length_firstn, length_skipn.
Qed.

(** The total that the handler reports is the size of the whole [trips]
    table, whatever the filters are. *)
Lemma total_counts_every_trip env now q d :
  JS.truthy (SUPABASE_URL env) = true ->
  JS.truthy (SUPABASE_SERVICE_ROLE_KEY env) = true ->
  exists rows info,
    GET_trips parseFloat ilike env Examples.listing_answers now q d
      = TripList rows info /\
    info_total info = Some (Z.of_nat (List.length (trips d))) /\
    info_totalPages info
      = JS.ceil_div (Z.of_nat (List.length (trips d))) (limit (parsePaginationParams q)).
Proof.
  intros Hu Hk. unfold GET_trips, fetchTrips. rewrite Hu, Hk. cbn.
  do 2 eexists. split; [reflexivity|]. split; reflexivity.
Qed.

(** When the table holds exactly 25 trips and all of them match, the first
    page of 10 has 10 rows and the handler reports 3 pages. *)
Lemma first_page_of_25 env now q d :
  JS.truthy (SUPABASE_URL env) = true ->
  JS.truthy (SUPABASE_SERVICE_ROLE_KEY env) = true ->
  parsePaginationParams q = {| page := 1; limit := 10; offset := 0 |} ->
  List.length (trips d) = 25%nat ->
  forallb (matches ilike (buildTripFilters parseFloat q now)) (trips d) = true ->
  exists rows info,
    GET_trips parseFloat ilike env Examples.listing_answers now q d
      = TripList rows info /\
    List.length rows = 10%nat /\ info_totalPages info = 3.
Proof.
  intros Hu Hk Hp Hl Hm. unfold GET_trips, fetchTrips. rewrite Hu, Hk, Hp.
  cbn [negb Examples.listing_answers on_count on_data fetched_error fetched_data
       fetched_count offset limit page].
  do 2 eexists. split; [reflexivity|]. split.
  - rewrite length_map, range_length by lia.
    rewrite order_by_departure_length, filter_all, Hl by exact Hm. reflexivity.
  - cbn [info_totalPages]. rewrite Hl. reflexivity.
Qed.

(** C5. With 25 upcoming trips and 6 departed ones in the table, the first
    page of 10 has 10 rows, 25 trips match the filters, and yet the handler
    reports a total of 31 and 4 pages: the count query is not filtered. *)
Theorem total_pages_of_unfiltered_count :
  exists rows info,
    GET_trips parseFloat ilike Examples.env Examples.listing_answers 1000
              Examples.first_page
              (Examples.listing_store (Examples.departed ++ Examples.upcoming))
      = TripList rows info /\
    List.length rows = 10%nat /\
    List.length (filter (matches ilike (buildTripFilters parseFloat Examples.first_page 1000))
                        (Examples.departed ++ Examples.upcoming)) = 25%nat /\
    info_total info = Some 31 /\
    info_totalPages info = 4.
Proof.
  do 2 eexists. split; [reflexivity|]. repeat split; vm_compute; reflexivity.
Qed.

End Externals.

End ListingFacts.

(** ** The health endpoint *)

Module HealthFacts.

Import Config Api Health.
Local Open Scope string_scope.

(** The statuses [checkApiHealth] can give to the two services. *)
Lemma checked_statuses env p net e1 e2 now :
  let h := checkApiHealth env p net e1 e2 now in
  (status (supabase h) = "healthy" \/ status (supabase h) = "unhealthy") /\
  (status (openrouteservice h) = "healthy" \/
   status (openrouteservice h) = "unhealthy" \/
   status (openrouteservice h) = "not_configured").
Proof.
  unfold checkApiHealth. cbn [supabase openrouteservice]. split.
  - destruct (supabase_probe env p); cbn; auto.
  - destruct (JS.truthy (OPENROUTESERVICE_API_KEY env)
              && validateApiKey (OPENROUTESERVICE_API_KEY env) "openrouteservice").
    + destruct (fetchWithTimeout net 0 1); cbn; auto.
    + cbn; auto.
Qed.

(** The string [timestamp] is one of the values the handler tests, and it
    has no [status]. *)
Lemma timestamp_among_values h : In (VString (timestamp h)) (Object_values h).
Proof. cbn. auto. Qed.

(** C6. The handler answers 503 and [degraded] on every invocation, also
    when every checked service is [healthy] or [not_configured]: here the
    store probe is answered and no routing key is set. *)
Theorem health_is_always_degraded :
  (forall env p net e1 e2 now,
      http_status (GET_api_health env p net e1 e2 now) = 503%Z /\
      overall (GET_api_health env p net e1 e2 now) = "degraded") /\
  (forall net,
      forallb service_fine
              (checked_services
                 (services (GET_api_health Examples.env (Answered None) net 12 0
                                           "2026-01-01T00:00:00.000Z"))) = true /\
      overall (GET_api_health Examples.env (Answered None) net 12 0
                              "2026-01-01T00:00:00.000Z") = "degraded").
Proof.
  assert (H : forall env p net e1 e2 now,
             forallb (fun service =>
                        match status_of service with
                        | Some s => (s =? "healthy") || (s =? "not_configured")
                        | None => false
                        end)
                     (Object_values (checkApiHealth env p net e1 e2 now)) = false).
  { intros. cbn [Object_values forallb status_of].
    now rewrite andb_false_r, andb_false_r. }
  split.
  - intros. unfold GET_api_health. cbn [http_status overall]. rewrite H. now split.
  - intros net. split; [reflexivity|].
    unfold GET_api_health. cbn [overall]. now rewrite H.
Qed.

End HealthFacts.

(** ** Routing: fallback, provider, endpoint *)

Module RoutingFacts.

Import Config Api.
Import Reals Lra Machin.
Local Open Scope bool_scope.
Local Open Scope R_scope.

Lemma PI_bounds : 3.1415 < PI < 3.1421.
Proof.
  pose proof (PI_2_3_7_ineq 1) as [Hlo Hhi].
  unfold sum_f_R0, tg_alt, PI_2_3_7_tg, Ratan_seq in Hlo, Hhi.
  simpl in Hlo, Hhi.
  split; lra.
Qed.

Lemma Math_sqrt_nonneg x : 0 <= x -> Math_sqrt (Some x) = Some (sqrt x).
Proof.
  intros H. unfold Math_sqrt. destruct (Rlt_dec x 0); [lra | reflexivity].
Qed.

Lemma Math_sqrt_neg x : x < 0 -> Math_sqrt (Some x) = None.
Proof.
  intros H. unfold Math_sqrt. destruct (Rlt_dec x 0); [reflexivity | lra].
Qed.

Lemma atan2_pos y x : 0 < x -> atan2 y x = atan (y / x).
Proof.
  intros H. unfold atan2. destruct (Rlt_dec 0 x); [reflexivity | lra].
Qed.

(** The route on finite coordinates, as long as [a] stays within [0, 1]. *)
Lemma getSimpleRoute_finite lat1 lng1 lat2 lng2 :
  0 <= simple_a lat1 lng1 lat2 lng2 <= 1 ->
  getSimpleRoute (pt lat1 lng1) (pt lat2 lng2)
  = {| distance := Some (simple_km lat1 lng1 lat2 lng2 * 1000);
       duration := Some (simple_km lat1 lng1 lat2 lng2 / AVG_KMH * 3600);
       geometry := {| type := "LineString";
                      coordinates := [ (Some lng1, Some lat1); (Some lng2, Some lat2) ] |};
       bbox := [ Some (Rmin lng1 lng2); Some (Rmin lat1 lat2);
                 Some (Rmax lng1 lng2); Some (Rmax lat1 lat2) ] |}.
Proof.
  intros Ha. unfold getSimpleRoute, pt. cbn [lat lng].
  unfold Math_sin, Math_cos, Math_PI, lit, Math_atan2, Math_min, Math_max.
  cbn [lift1 lift2 option_map].
  fold (simple_a lat1 lng1 lat2 lng2).
  rewrite !Math_sqrt_nonneg by lra. cbn [lift2].
  reflexivity.
Qed.



Lemma one_degree_a : simple_a 0 0 0 1 = sin (PI / 360) * sin (PI / 360).
Proof.
  unfold simple_a.
  replace ((0 - 0) * PI / 180 / 2) with 0 by lra.
  replace (0 * PI / 180) with 0 by lra.
  replace ((1 - 0) * PI / 180 / 2) with (PI / 360) by lra.
  rewrite sin_0, cos_0. ring.
Qed.

Lemma one_degree_km : simple_km 0 0 0 1 = EARTH_RADIUS * (PI / 180).
Proof.
  pose proof PI_bounds as [Hlo Hhi].
  assert (Hs : 0 < sin (PI / 360)) by (apply sin_gt_0; lra).
  assert (Hc : 0 < cos (PI / 360)) by (apply cos_gt_0; lra).
  unfold simple_km. rewrite one_degree_a.
  replace (1 - sin (PI / 360) * sin (PI / 360)) with (cos (PI / 360) * cos (PI / 360)).
  2:{ pose proof (sin2_cos2 (PI / 360)) as H. unfold Rsqr in H. lra. }
  rewrite !sqrt_square by lra.
  rewrite atan2_pos by lra.
  change (sin (PI / 360) / cos (PI / 360)) with (tan (PI / 360)).
  rewrite atan_tan by lra. lra.
Qed.

(** From (0, 0) to (0, 1): about 111.19 km, within half a percent, and a
    geometry of two coordinate pairs.  On the equator the missing factor
    is 1. *)
Lemma one_degree_route :
  exists d,
    distance (getSimpleRoute (pt 0 0) (pt 0 1)) = Some d /\
    111190 * (1 - 0.005) <= d <= 111190 * (1 + 0.005) /\
    List.length (coordinates (geometry (getSimpleRoute (pt 0 0) (pt 0 1)))) = 2%nat.
Proof.
  pose proof PI_bounds as [Hlo Hhi].
  assert (Ha : 0 <= simple_a 0 0 0 1 <= 1).
  { rewrite one_degree_a. pose proof (sin2_cos2 (PI / 360)) as H.
    unfold Rsqr in H. pose proof (Rle_0_sqr (sin (PI / 360))) as H1.
    pose proof (Rle_0_sqr (cos (PI / 360))) as H2. unfold Rsqr in *. lra. }
  rewrite getSimpleRoute_finite by exact Ha.
  cbn [distance geometry coordinates List.length].
  eexists. split; [reflexivity|]. rewrite one_degree_km. unfold EARTH_RADIUS.
  split; [lra | reflexivity].
Qed.

Lemma across_a : simple_a 60 (-90) 60 90 = 1 / 2.
Proof.
  unfold simple_a.
  replace ((60 - 60) * PI / 180 / 2) with 0 by lra.
  replace (60 * PI / 180) with (PI / 3) by lra.
  replace ((90 - -90) * PI / 180 / 2) with (PI / 2) by lra.
  rewrite sin_0, cos_PI3, sin_PI2. lra.
Qed.

Lemma across_km : simple_km 60 (-90) 60 90 = EARTH_RADIUS * (PI / 2).
Proof.
  unfold simple_km. rewrite across_a.
  replace (1 - 1 / 2) with (1 / 2) by lra.
  assert (H : 0 < sqrt (1 / 2)) by (apply sqrt_lt_R0; lra).
  rewrite atan2_pos by exact H.
  replace (sqrt (1 / 2) / sqrt (1 / 2)) with 1 by (field; lra).
  rewrite atan_1. lra.
Qed.

Lemma across_haversine : haversine_km 60 (-90) 60 90 = 6371 * (PI / 3).
Proof.
  pose proof PI_bounds as [Hlo Hhi].
  unfold haversine_km.
  replace ((60 - 60) * PI / 180 / 2) with 0 by lra.
  replace (60 * PI / 180) with (PI / 3) by lra.
  replace ((90 - -90) * PI / 180 / 2) with (PI / 2) by lra.
  rewrite sin_0, cos_PI3, sin_PI2.
  replace (0 * 0 + 1 / 2 * (1 / 2) * (1 * 1)) with (1 / 2 * (1 / 2)) by lra.
  rewrite sqrt_square by lra.
  assert (H3 : 0 < sqrt 3) by (apply sqrt_lt_R0; lra).
  assert (E : sqrt (1 - 1 / 2 * (1 / 2)) = sqrt 3 / 2).
  { apply sqrt_lem_1; [lra | lra |].
    replace (sqrt 3 / 2 * (sqrt 3 / 2)) with (sqrt 3 * sqrt 3 / 4) by lra.
    rewrite sqrt_sqrt by lra. lra. }
  rewrite E, atan2_pos by lra.
  replace (1 / 2 / (sqrt 3 / 2)) with (1 / sqrt 3) by (field; lra).
  rewrite <- tan_PI6, atan_tan by lra. lra.
Qed.

(** The geometry is the line of the two end points, for every input. *)
Lemma fallback_geometry o d :
  geometry (getSimpleRoute o d)
  = {| type := "LineString";
       coordinates := [ (lng o, lat o); (lng d, lat d) ] |}.
Proof. reflexivity. Qed.

(** The fallback agrees with the haversine formula when the destination
    lies on the equator, where the missing factor is 1. *)
Lemma agrees_on_the_equator lat1 lng1 lng2 :
  simple_km lat1 lng1 0 lng2 = haversine_km lat1 lng1 0 lng2.
Proof.
  unfold simple_km, haversine_km, simple_a, EARTH_RADIUS.
  replace (0 * PI / 180) with 0 by lra. rewrite cos_0.
  replace (sin ((0 - lat1) * PI / 180 / 2) * sin ((0 - lat1) * PI / 180 / 2) +
           cos (lat1 * PI / 180) * 1 *
           (sin ((lng2 - lng1) * PI / 180 / 2) * sin ((lng2 - lng1) * PI / 180 / 2)))
    with (sin ((0 - lat1) * PI / 180 / 2) * sin ((0 - lat1) * PI / 180 / 2) +
          cos (lat1 * PI / 180) * sin ((lng2 - lng1) * PI / 180 / 2) *
          sin ((lng2 - lng1) * PI / 180 / 2)) by ring.
  reflexivity.
Qed.

(** C7. Between the points (60, -90) and (60, 90) the fallback returns a
    quarter of the Earth's circumference, 6371 * PI / 2 km, where the
    haversine formula gives 6371 * PI / 3 km, one half more: the factor
    [cos] of the destination latitude is missing from [a]. *)
Theorem fallback_is_not_haversine :
  distance (getSimpleRoute (pt 60 (-90)) (pt 60 90)) = Some (6371 * (PI / 2) * 1000) /\
  fst (fst (haversine_route 60 (-90) 60 90)) = Some (6371 * (PI / 3) * 1000) /\
  6371 * (PI / 2) * 1000 > 1.49 * (6371 * (PI / 3) * 1000).
Proof.
  pose proof PI_bounds as [Hlo Hhi].
  split; [|split].
  - rewrite getSimpleRoute_finite by (rewrite across_a; lra).
    cbn [distance]. now rewrite across_km.
  - unfold haversine_route. cbn [fst]. now rewrite across_haversine.
  - lra.
Qed.

Lemma pole_a : simple_a 0 0 90 180 = 3 / 2.
Proof.
  unfold simple_a.
  replace ((90 - 0) * PI / 180 / 2) with (PI / 4) by lra.
  replace (0 * PI / 180) with 0 by lra.
  replace ((180 - 0) * PI / 180 / 2) with (PI / 2) by lra.
  rewrite cos_0, sin_PI2, sin_PI4.
  assert (H2 : 0 < sqrt 2) by (apply sqrt_lt_R0; lra).
  replace (1 / sqrt 2 * (1 / sqrt 2)) with (1 / (sqrt 2 * sqrt 2)) by (field; lra).
  rewrite sqrt_sqrt by lra. lra.
Qed.

(** From (0, 0) to (90, 180) the value of [a] is 3/2, the square root of
    [1 - a] is not a number, and neither are the distance and the duration. *)
Lemma fallback_not_a_number :
  distance (getSimpleRoute (pt 0 0) (pt 90 180)) = None /\
  duration (getSimpleRoute (pt 0 0) (pt 90 180)) = None.
Proof.
  unfold getSimpleRoute, pt. cbn [lat lng distance duration].
  unfold Math_sin, Math_cos, Math_PI, lit, Math_atan2.
  cbn [lift1 lift2 option_map].
  fold (simple_a 0 0 90 180). rewrite pole_a.
  rewrite Math_sqrt_nonneg, Math_sqrt_neg by lra. cbn [lift2]. split; reflexivity.
Qed.

(** X13. The format check of a routing-provider key: at least 50 characters,
    all of them letters, digits, [_] or [-]. *)
Lemma validateApiKey_format key :
  validateApiKey (Some key) "openrouteservice" = true <->
  (50 <= String.length key)%nat /\
  Forall (fun c => key_char c = true) (list_ascii_of_string key).
Proof.
  unfold validateApiKey, key_format.
  change ("openrouteservice" =? "openrouteservice")%string with true. cbv iota.
  destruct (key =? "")%string eqn:E.
  - apply String.eqb_eq in E. subst key. cbn. split; [discriminate | lia].
  - cbn [negb andb]. rewrite andb_true_iff, Nat.leb_le, forallb_forall, Forall_forall.
    reflexivity.
Qed.

(** What [getRoute] returns, case by case. *)
Lemma getRoute_run net o d apiKey :
  getRoute net o d apiKey
  = inl (if JS.truthy apiKey && validateApiKey apiKey "openrouteservice"
         then match getOpenRouteServiceRoute net o d (JS.or_else apiKey "") with
              | inl r => r
              | inr _ => getSimpleRoute o d
              end
         else getSimpleRoute o d).
Proof.
  unfold getRoute.
  destruct (JS.truthy apiKey && validateApiKey apiKey "openrouteservice");
    [|reflexivity].
  destruct (getOpenRouteServiceRoute net o d (JS.or_else apiKey "")); reflexivity.
Qed.

(** A response that [fetchWithTimeout] returns has [ok] set. *)
Lemma fetched_is_ok net retries : forall i response,
  fetchWithTimeout net i retries = inl response -> ok response = true.
Proof.
  induction retries as [|k IH]; intros i response; cbn [fetchWithTimeout].
  - destruct (net i) as [e|r]; [discriminate|].
    destruct (ok r) eqn:E; [intros [= <-]; exact E | discriminate].
  - destruct (net i) as [e|r].
    + destruct (isRetryableError e); [apply IH | discriminate].
    + destruct (ok r) eqn:E; [intros [= <-]; exact E|].
      destruct (isRetryableError _); [apply IH | discriminate].
Qed.

(** When no call up to the last retry is answered with a 2xx response,
    [fetchWithTimeout] throws. *)
Lemma fetch_fails_when_no_call_succeeds net retries : forall i,
  (forall j, (i <= j <= i + retries)%nat ->
             match net j with
             | NetworkError _ => True
             | Responded r => ok r = false
             end) ->
  exists e, fetchWithTimeout net i retries = inr e.
Proof.
  induction retries as [|k IH]; intros i H; cbn [fetchWithTimeout].
  - specialize (H i ltac:(lia)). destruct (net i) as [e|r]; [eauto|].
    rewrite H. eauto.
  - pose proof (H i ltac:(lia)) as H0.
    assert (Hrest : exists e, fetchWithTimeout net (S i) k = inr e)
      by (apply IH; intros j Hj; apply H; lia).
    destruct (net i) as [e|r].
    + destruct (isRetryableError e); eauto.
    + rewrite H0. destruct (isRetryableError _); eauto.
Qed.

(** A failed provider call is answered with the fallback. *)
Lemma provider_failure_falls_back net o d apiKey e :
  JS.truthy apiKey && validateApiKey apiKey "openrouteservice" = true ->
  getOpenRouteServiceRoute net o d (JS.or_else apiKey "") = inr e ->
  getRoute net o d apiKey = inl (getSimpleRoute o d).
Proof. intros Hk He. now rewrite getRoute_run, Hk, He. Qed.

(** C8. [getRoute] never throws, it always returns a route. Without a key
    that is set and passes the format check the route is the straight-line
    fallback. With such a key the provider is asked, and the route is the
    fallback whenever that fails: when no call up to the last retry is
    answered with a 2xx response (time-outs, network errors, error
    statuses), whenever [fetchWithTimeout] throws, when the body is not
    JSON, when it holds no route, and when its first route lacks the
    geometry or the summary; it is the provider's first route otherwise. *)
Theorem getRoute_falls_back net o d apiKey :
  (exists r, getRoute net o d apiKey = inl r) /\
  (JS.truthy apiKey && validateApiKey apiKey "openrouteservice" = false ->
   getRoute net o d apiKey = inl (getSimpleRoute o d)) /\
  (JS.truthy apiKey && validateApiKey apiKey "openrouteservice" = true ->
   ((forall j, (j <= RETRIES_DEFAULT)%nat ->
               match net j with
               | NetworkError _ => True
               | Responded r => ok r = false
               end) ->
    getRoute net o d apiKey = inl (getSimpleRoute o d)) /\
   (forall e, fetchWithTimeout net 0 RETRIES_DEFAULT = inr e ->
              getRoute net o d apiKey = inl (getSimpleRoute o d)) /\
   (forall response,
       fetchWithTimeout net 0 RETRIES_DEFAULT = inl response ->
       (body response = None ->
        getRoute net o d apiKey = inl (getSimpleRoute o d)) /\
       (forall data,
           body response = Some data ->
           (routes data = None \/ routes data = Some []) ->
           getRoute net o d apiKey = inl (getSimpleRoute o d)) /\
       (forall data route rest,
           body response = Some data ->
           routes data = Some (route :: rest) ->
           (ors_geometry route = None \/ summary route = None) ->
           getRoute net o d apiKey = inl (getSimpleRoute o d)) /\
       (forall data route rest coords dist dur,
           body response = Some data ->
           routes data = Some (route :: rest) ->
           ors_geometry route = Some coords ->
           summary route = Some (dist, dur) ->
           getRoute net o d apiKey
           = inl {| distance := dist; duration := dur;
                    geometry := {| type := "LineString"; coordinates := coords |};
                    bbox := ors_bbox route |}))).
Proof.
  split; [eexists; apply getRoute_run|].
  split; [intros Hk; now rewrite getRoute_run, Hk|].
  intros Hk.
  assert (Hthrown : forall e, fetchWithTimeout net 0 RETRIES_DEFAULT = inr e ->
                              getRoute net o d apiKey = inl (getSimpleRoute o d)).
  { intros e He. apply (@provider_failure_falls_back net o d apiKey e Hk).
    unfold getOpenRouteServiceRoute. now rewrite He. }
  split; [|split; [exact Hthrown|]].
  - intros Hnone.
    destruct (@fetch_fails_when_no_call_succeeds net RETRIES_DEFAULT 0%nat)
      as (e & He); [intros j Hj; apply Hnone; lia | eauto].
  - intros response Hr. pose proof (fetched_is_ok _ _ _ Hr) as Hok.
    rewrite getRoute_run, Hk. unfold getOpenRouteServiceRoute.
    rewrite Hr, Hok. cbn [negb].
    split; [intros ->; reflexivity|].
    split; [intros data -> [-> | ->]; reflexivity|].
    split.
    + intros data route rest -> -> [-> | Hs]; [reflexivity|].
      rewrite Hs. destruct (ors_geometry route); reflexivity.
    + intros data route rest coords dist dur -> -> -> ->. reflexivity.
Qed.

(** With a well-formed key: the fallback when the provider is unreachable,
    and the provider's route when it answers. *)
Lemma getRoute_falls_back_witness :
  getRoute Examples.provider_down (pt 60 (-90)) (pt 60 90) (Some Examples.routing_key)
    = inl (getSimpleRoute (pt 60 (-90)) (pt 60 90)) /\
  getRoute Examples.provider_answers (pt 60 (-90)) (pt 60 90)
           (Some Examples.routing_key)
    = inl {| distance := Some 1250000%R; duration := Some 54000%R;
             geometry := {| type := "LineString";
                            coordinates := [ (Some (-90)%R, Some 60%R);
                                             (Some 0%R, Some 75%R);
                                             (Some 90%R, Some 60%R) ] |};
             bbox := [ Some (-90)%R; Some 60%R; Some 90%R; Some 75%R ] |}.
Proof.
  split.
  - destruct (getRoute_falls_back Examples.provider_down (pt 60 (-90)) (pt 60 90)
                (Some Examples.routing_key)) as (_ & _ & H).
    destruct (H eq_refl) as (Hdown & _). apply Hdown. intros j _. exact I.
  - destruct (getRoute_falls_back Examples.provider_answers (pt 60 (-90)) (pt 60 90)
                (Some Examples.routing_key)) as (_ & _ & H).
    destruct (H eq_refl) as (_ & _ & Hans).
    destruct (Hans _ eq_refl) as (_ & _ & _ & Hroute).
    apply (Hroute {| routes := Some [Examples.provider_route] |}
                  Examples.provider_route []); reflexivity.
Defined.

(** With a well-formed key: the provider's route when it answers, and the
    fallback when the provider is unreachable, answers 503 on every try,
    answers 404, or answers without a route. *)
Lemma getRoute_with_key :
  (exists r, getRoute Examples.provider_answers (pt 60 (-90)) (pt 60 90)
                      (Some Examples.routing_key) = inl r /\
             distance r = Some 1250000) /\
  Forall (fun net => getRoute net (pt 60 (-90)) (pt 60 90)
                              (Some Examples.routing_key)
                     = inl (getSimpleRoute (pt 60 (-90)) (pt 60 90)))
         [ Examples.provider_down; Examples.provider_says 503 "Service Unavailable";
           Examples.provider_says 404 "Not Found"; Examples.provider_without_route ].
Proof.
  split.
  - eexists. split; [rewrite getRoute_run; reflexivity | reflexivity].
  - repeat constructor; rewrite getRoute_run; reflexivity.
Qed.

(** An unreachable provider is tried three times (two retries); a 404 is
    not retried. *)
Lemma retries_example :
  fetchWithTimeout (fun i => if Nat.ltb i 2 then Examples.provider_down i
                             else Examples.provider_answers i) 0 RETRIES_DEFAULT
    = inl {| ok := true; status := 200; statusText := "OK";
             body := Some {| routes := Some [Examples.provider_route] |} |} /\
  fetchWithTimeout (fun i => if Nat.ltb i 1 then Examples.provider_says 404 "Not Found" i
                             else Examples.provider_answers i) 0 RETRIES_DEFAULT
    = inr (Error "HTTP 404: Not Found").
Proof.
  split; reflexivity.
Qed.

Lemma num_truthy_nonzero x : x <> 0 -> num_truthy (Some x) = true.
Proof.
  intros H. unfold num_truthy. destruct (Req_dec_T x 0); [contradiction | reflexivity].
Qed.

Lemma num_truthy_zero : num_truthy (Some 0) = false.
Proof.
  unfold num_truthy. destruct (Req_dec_T 0 0) as [_|H]; [reflexivity | now elim H].
Qed.

(** C9 (as stated, refuted). A point on the prime meridian is a valid
    coordinate pair, and its longitude [0] is falsy: the request from
    (51, 0) to (48, 2) is answered 400 and no route is computed. *)
Lemma meridian_counterexample :
  let b := {| origin := Some (pt 51 0); destination := Some (pt 48 2) |} in
  (POST_api_route Examples.env_with_routing_key Examples.provider_answers b
   = RouteBadRequest "Valid origin and destination coordinates are required") /\
  (POST_api_route Examples.env_with_routing_key Examples.provider_answers b
   <> RouteJson (getSimpleRoute (pt 51 0) (pt 48 2))).
Proof.
  intros b.
  assert (E : POST_api_route Examples.env_with_routing_key Examples.provider_answers b
              = RouteBadRequest "Valid origin and destination coordinates are required").
  { unfold POST_api_route, b. cbn [origin destination pt lat lng].
    rewrite num_truthy_zero. cbn [negb orb]. now rewrite orb_true_r. }
  split; [exact E | rewrite E; discriminate].
Qed.

(** C9 (amended). The endpoint answers every body whose four coordinates
    are present, numeric and different from 0 with the straight-line
    fallback, whatever routing key the environment holds and whatever the
    provider would answer. *)
Theorem route_endpoint_uses_fallback env net b o d :
  origin b = Some o -> destination b = Some d ->
  num_truthy (lat o) = true -> num_truthy (lng o) = true ->
  num_truthy (lat d) = true -> num_truthy (lng d) = true ->
  POST_api_route env net b = RouteJson (getSimpleRoute o d).
Proof.
  intros Ho Hd H1 H2 H3 H4. unfold POST_api_route.
  rewrite Ho, Hd, H1, H2, H3, H4. cbn [negb orb].
  rewrite getRoute_run. reflexivity.
Qed.

Lemma route_endpoint_uses_fallback_witness :
  validateApiKey (OPENROUTESERVICE_API_KEY Examples.env_with_routing_key)
                 "openrouteservice" = true /\
  POST_api_route Examples.env_with_routing_key Examples.provider_answers
                 Examples.across
    = RouteJson (getSimpleRoute (pt 60 (-90)) (pt 60 90)).
Proof.
  split; [reflexivity|].
  apply (@route_endpoint_uses_fallback Examples.env_with_routing_key
           Examples.provider_answers Examples.across (pt 60 (-90)) (pt 60 90)
           eq_refl eq_refl);
    apply num_truthy_nonzero; lra.
Defined.

End RoutingFacts.

(** ** Trip validation and creation *)

Module TripCreationFacts.

Import Config TripCreation.
Local Open Scope string_scope.
Local Open Scope list_scope.

Section Externals.

Variable Date_parse : string -> option Z.
Variable parseFloat : string -> option QArith_base.Q.

Ltac split_errors H :=
  unfold validateTripData in H;
  repeat match type of H with
         | (_ ++ _) = [] => apply app_eq_nil in H; destruct H as [? H]
         end.

(** Validation accepts the seats only when the field is present and
    [parseInt] reads an integer from 1 to 7 in it. *)
Lemma accepted_seats now data :
  validateTripData Date_parse parseFloat now data = [] ->
  exists s n, available_seats data = Some s /\ s <> "" /\
              JS.parseInt s = Some n /\ (1 <= n <= 7)%Z.
Proof.
  intros H. split_errors H.
  destruct (available_seats data) as [s|]; [|discriminate].
  destruct (s =? "") eqn:E; [discriminate|].
  destruct (JS.parseInt s) as [n|] eqn:Ep; [|discriminate].
  destruct (n <? 1)%Z eqn:E1; [discriminate|].
  destruct (7 <? n)%Z eqn:E2; [discriminate|].
  apply String.eqb_neq in E. apply Z.ltb_ge in E1, E2.
  exists s, n. split; [reflexivity|]. split; [assumption|].
  split; [assumption | lia].
Qed.

(** Validation accepts the departure time only when the field is present
    and, if it reads as a date, that date is strictly later than [now]. *)
Lemma accepted_departure now data :
  validateTripData Date_parse parseFloat now data = [] ->
  exists s, departure_timestamp data = Some s /\ s <> "" /\
            forall t, Date_parse s = Some t -> (now < t)%Z.
Proof.
  intros H. split_errors H.
  destruct (departure_timestamp data) as [s|]; [|discriminate].
  destruct (s =? "") eqn:E; [discriminate|].
  apply String.eqb_neq in E. exists s.
  split; [reflexivity|]. split; [assumption|].
  intros t Ht. rewrite Ht in *.
  destruct (t <=? now)%Z eqn:El; [discriminate|]. now apply Z.leb_gt in El.
Qed.

(** A request that fails validation is answered with the joined messages,
    and nothing is inserted. *)
Lemma rejected_by_validation env f now req d driver :
  user req = Some driver ->
  validateTripData Date_parse parseFloat now (body req) <> [] ->
  POST_trips_create Date_parse parseFloat env f now req d
  = (handleFormResponse req [] false
       (join (validateTripData Date_parse parseFloat now (body req)))
       "/trips/create", d).
Proof.
  intros Hu Hv. unfold POST_trips_create. rewrite Hu.
  destruct (validateTripData Date_parse parseFloat now (body req));
    [contradiction | reflexivity].
Qed.

(** C10. A departure time that does not read as a date passes validation:
    the form is accepted by [validateTripData], the handler then fails on
    [toISOString] and answers with its generic error; no row is inserted. *)
Theorem invalid_departure_is_accepted env f now s d :
  s <> "" ->
  Date_parse s = None ->
  validateTripData Date_parse parseFloat now (form_leaving s) = [] /\
  POST_trips_create Date_parse parseFloat env f now (request_of (form_leaving s)) d
  = ({| flashes := [("error",
                     "Failed to create trip: Invalid time value. Please try again.")];
        reply := Json 400 false
                   "An unexpected error occurred while creating the trip. Please try again." |},
     d).
Proof.
  intros Hs Hd. apply String.eqb_neq in Hs.
  assert (Hv : validateTripData Date_parse parseFloat now (form_leaving s) = []).
  { unfold validateTripData. cbn [form_leaving origin_text destination_text
      departure_timestamp available_seats price]. rewrite Hs, Hd. reflexivity. }
  split; [exact Hv|].
  unfold POST_trips_create. cbn [request_of user body]. rewrite Hv.
  unfold createTripData. cbn [form_leaving origin_text destination_text
    departure_timestamp option_map]. rewrite Hd. reflexivity.
Qed.

End Externals.

Lemma invalid_departure_is_accepted_witness :
  Date_parse_minutes "not-a-date" = None /\
  validateTripData Date_parse_minutes parseFloat_decimal 1772879400000
                   (form_leaving "not-a-date") = [] /\
  snd (POST_trips_create Date_parse_minutes parseFloat_decimal Examples.env
                         insert_answers 1772879400000
                         (request_of (form_leaving "not-a-date"))
                         (Examples.store_with 3 []))
    = Examples.store_with 3 [].
Proof.
  split; [reflexivity|].
  assert (Hs : "not-a-date" <> "") by discriminate.
  destruct (@invalid_departure_is_accepted Date_parse_minutes parseFloat_decimal
              Examples.env insert_answers 1772879400000 "not-a-date"
              (Examples.store_with 3 []) Hs eq_refl) as [Hv Hr].
  split; [exact Hv | now rewrite Hr].
Defined.

(** A form leaving on 2026-03-08 at 09:00, sent on 2026-03-07 at 10:30, is
    accepted and its trip inserted; leaving at 09:00 on the 7th it is
    rejected by validation. *)
Lemma creation_examples :
  (exists r d',
      POST_trips_create Date_parse_minutes parseFloat_decimal Examples.env
                        insert_answers 1772879400000
                        (request_of (form_leaving "2026-03-08T09:00"))
                        (Examples.store_with 3 []) = (r, d') /\
      reply r = Json 201 true "Trip created successfully!" /\
      List.length (Store.trips d') = 2%nat) /\
  validateTripData Date_parse_minutes parseFloat_decimal 1772879400000
                   (form_leaving "2026-03-07T09:00")
    = ["Departure time must be in the future"].
Proof.
  split; [do 2 eexists; split; [reflexivity | split; reflexivity] | reflexivity].
Qed.

End TripCreationFacts.

(** ** Further properties of the handlers and their helpers *)

(** ** The pattern matcher agrees with the language of a pattern *)

Module RegexFacts.
Import Regex.

Lemma nullable_lang r : nullable r = true <-> lang r [].
Proof.
  induction r; cbn; split; intros H; try discriminate.
  - inversion H.
  - constructor.
  - reflexivity.
  - inversion H.
  - apply andb_prop in H. destruct H as [H1 H2].
    change (@nil ascii) with (@nil ascii ++ []).
    constructor; [apply IHr1 | apply IHr2]; auto.
  - inversion H; subst.
    match goal with E : _ ++ _ = [] |- _ => apply app_eq_nil in E; destruct E; subst end.
    apply andb_true_intro. split; [apply IHr1 | apply IHr2]; auto.
  - apply orb_prop in H.
    destruct H; [apply lang_alt_l, IHr1 | apply lang_alt_r, IHr2]; auto.
  - inversion H; subst; apply orb_true_intro;
      [left; apply IHr1 | right; apply IHr2]; auto.
  - constructor.
  - reflexivity.
Qed.

Lemma star_cons r c s :
  lang (Star r) (c :: s) ->
  exists s1 s2, s = s1 ++ s2 /\ lang r (c :: s1) /\ lang (Star r) s2.
Proof.
  intros H. remember (Star r) as r' eqn:Er. remember (c :: s) as cs eqn:Es.
  revert c s Es. induction H; intros c0 s0 Es; try discriminate.
  inversion Er; subst r0. clear Er.
  destruct s1 as [|a s1].
  - cbn in Es. apply IHlang2; auto.
  - cbn in Es. inversion Es; subst. exists s1, s2. auto.
Qed.

Lemma lang_seq_inv r1 r2 s :
  lang (Seq r1 r2) s <-> exists s1 s2, s = s1 ++ s2 /\ lang r1 s1 /\ lang r2 s2.
Proof.
  split.
  - intros H. inversion H; subst. eauto.
  - intros (s1 & s2 & -> & H1 & H2). now constructor.
Qed.

Lemma lang_alt_inv r1 r2 s : lang (Alt r1 r2) s <-> lang r1 s \/ lang r2 s.
Proof.
  split.
  - intros H. inversion H; subst; auto.
  - intros [H | H]; [now apply lang_alt_l | now apply lang_alt_r].
Qed.

Lemma lang_class_inv p s : lang (Class p) s <-> exists c, s = [c] /\ p c = true.
Proof.
  split.
  - intros H. inversion H; subst. eauto.
  - intros (c & -> & H). now constructor.
Qed.

Lemma deriv_lang r : forall c s, lang (deriv c r) s <-> lang r (c :: s).
Proof.
  induction r; intros c s; cbn [deriv].
  - split; intros H; inversion H.
  - split; intros H; inversion H.
  - rewrite lang_class_inv. destruct (p c) eqn:E; split; intros H.
    + inversion H; subst. eauto.
    + destruct H as (c' & Hc & _). inversion Hc; subst. constructor.
    + inversion H.
    + destruct H as (c' & Hc & Hp). inversion Hc; subst. congruence.
  - assert (Hseq : lang (Seq (deriv c r1) r2) s <->
                   exists s1 s2, s = s1 ++ s2 /\ lang r1 (c :: s1) /\ lang r2 s2).
    { rewrite lang_seq_inv. split; intros (s1 & s2 & -> & H1 & H2);
        exists s1, s2; (split; [reflexivity|]); (split; [apply IHr1|]); auto. }
    assert (Hcons : lang (Seq r1 r2) (c :: s) <->
                    (lang r1 [] /\ lang r2 (c :: s)) \/
                    exists s1 s2, s = s1 ++ s2 /\ lang r1 (c :: s1) /\ lang r2 s2).
    { rewrite lang_seq_inv. split.
      - intros (s1 & s2 & E & H1 & H2). destruct s1 as [|a s1]; cbn in E.
        + subst. auto.
        + inversion E; subst. right. eauto.
      - intros [[H1 H2] | (s1 & s2 & -> & H1 & H2)].
        + exists [], (c :: s). auto.
        + exists (c :: s1), s2. auto. }
    rewrite Hcons. destruct (nullable r1) eqn:En.
    + rewrite lang_alt_inv, Hseq, IHr2. rewrite <- nullable_lang, En. tauto.
    + rewrite Hseq. rewrite <- nullable_lang, En. split; [auto|].
      intros [[H _] | H]; [discriminate | auto].
  - rewrite !lang_alt_inv, IHr1, IHr2. reflexivity.
  - rewrite lang_seq_inv. split.
    + intros (s1 & s2 & -> & H1 & H2).
      change (c :: s1 ++ s2) with ((c :: s1) ++ s2).
      constructor; [apply IHr|]; auto.
    + intros H. apply star_cons in H. destruct H as (s1 & s2 & -> & H1 & H2).
      exists s1, s2. split; [reflexivity|]. split; [apply IHr|]; auto.
Qed.

Theorem accepts_lang r s : accepts r s = true <-> lang r s.
Proof.
  revert r. induction s as [|c s IH]; intros r; cbn.
  - apply nullable_lang.
  - rewrite IH. apply deriv_lang.
Qed.

Lemma lang_star_class p s : lang (Star (Class p)) s <-> forallb p s = true.
Proof.
  split.
  - intros H. remember (Star (Class p)) as r eqn:Er.
    induction H; try discriminate; [reflexivity|].
    inversion Er; subst. apply lang_class_inv in H. destruct H as (c & -> & Hc).
    cbn. rewrite Hc. cbn. auto.
  - induction s as [|c s IH]; cbn; intros H; [constructor|].
    apply andb_prop in H. destruct H as [Hc Hs].
    change (c :: s) with ([c] ++ s). constructor; [now constructor | auto].
Qed.

Lemma lang_plus_class p s :
  lang (Plus (Class p)) s <-> s <> [] /\ forallb p s = true.
Proof.
  unfold Plus. rewrite lang_seq_inv. split.
  - intros (s1 & s2 & -> & H1 & H2). apply lang_class_inv in H1.
    destruct H1 as (c & -> & Hc). apply lang_star_class in H2.
    split; [discriminate|]. cbn. now rewrite Hc.
  - intros [Hne H]. destruct s as [|c s]; [contradiction|].
    cbn in H. apply andb_prop in H. destruct H as [Hc Hs].
    exists [c], s. split; [reflexivity|]. split; [now constructor | now apply lang_star_class].
Qed.

Lemma lang_repeat_class p n s :
  lang (Repeat n (Class p)) s <-> List.length s = n /\ forallb p s = true.
Proof.
  revert s. induction n as [|n IH]; intros s; cbn [Repeat].
  - split.
    + intros H. inversion H. auto.
    + intros [H _]. destruct s; [constructor | discriminate].
  - rewrite lang_seq_inv. split.
    + intros (s1 & s2 & -> & H1 & H2). apply lang_class_inv in H1.
      destruct H1 as (c & -> & Hc). apply IH in H2. destruct H2 as [Hl Hf].
      cbn. rewrite Hc, Hl. auto.
    + intros [Hl Hf]. destruct s as [|c s]; [discriminate|].
      cbn in Hl, Hf. apply andb_prop in Hf. destruct Hf as [Hc Hs].
      exists [c], s. split; [reflexivity|]. split; [now constructor|].
      apply IH. split; [lia | auto].
Qed.

Lemma test_lang r s : test r s = true <-> lang r (list_ascii_of_string s).
Proof. unfold test. apply accepts_lang. Qed.

Lemma lang_char c s : lang (Class (Ascii.eqb c)) s <-> s = [c].
Proof.
  rewrite lang_class_inv. split.
  - intros (c' & -> & H). apply Ascii.eqb_eq in H. now subst.
  - intros ->. exists c. split; [reflexivity | apply Ascii.eqb_refl].
Qed.

End RegexFacts.

(** ** Email, phone and registration validation *)

Module ValidatorFacts.

Import Regex RegexFacts Validators.
Local Open Scope string_scope.
Local Open Scope list_scope.

(** The three parts of an accepted address. *)
Lemma email_parts s :
  isValidEmail s = true <->
  exists l d t,
    list_ascii_of_string s = l ++ "@"%char :: d ++ "."%char :: t /\
    l <> [] /\ d <> [] /\ t <> [] /\
    forallb not_space_at l = true /\ forallb not_space_at d = true /\
    forallb not_space_at t = true.
Proof.
  unfold isValidEmail, emailRegex. rewrite test_lang.
  rewrite lang_seq_inv. split.
  - intros (l & r1 & E & Hl & H1). apply lang_plus_class in Hl.
    apply lang_seq_inv in H1. destruct H1 as (a & r2 & -> & Ha & H2).
    apply lang_char in Ha. subst a.
    apply lang_seq_inv in H2. destruct H2 as (d & r3 & -> & Hd & H3).
    apply lang_plus_class in Hd.
    apply lang_seq_inv in H3. destruct H3 as (p & t & -> & Hp & Ht).
    apply lang_char in Hp. subst p. apply lang_plus_class in Ht.
    exists l, d, t. cbn [app] in E. intuition.
  - intros (l & d & t & E & Hl & Hd & Ht & Fl & Fd & Ft).
    exists l, ("@"%char :: d ++ "."%char :: t). split; [exact E|].
    split; [apply lang_plus_class; auto|].
    apply lang_seq_inv. exists ["@"%char], (d ++ "."%char :: t).
    split; [reflexivity|]. split; [now apply lang_char|].
    apply lang_seq_inv. exists d, ("."%char :: t).
    split; [reflexivity|]. split; [apply lang_plus_class; auto|].
    apply lang_seq_inv. exists ["."%char], t.
    split; [reflexivity|]. split; [now apply lang_char|].
    apply lang_plus_class; auto.
Qed.

Lemma count_at_none l :
  forallb not_space_at l = true -> count_occ ascii_dec l "@"%char = 0%nat.
Proof.
  induction l as [|c l IH]; cbn; [reflexivity|].
  intros H. apply andb_prop in H. destruct H as [Hc Hl].
  unfold not_space_at in Hc. apply andb_prop in Hc. destruct Hc as [_ Hc].
  destruct (ascii_dec c "@") as [->|]; [discriminate | auto].
Qed.

Lemma no_space l :
  forallb not_space_at l = true -> forallb (fun c => negb (JS.is_space c)) l = true.
Proof.
  induction l as [|c l IH]; cbn; [reflexivity|].
  intros H. apply andb_prop in H. destruct H as [Hc Hl].
  unfold not_space_at in Hc. apply andb_prop in Hc. destruct Hc as [Hc _].
  rewrite Hc. cbn. auto.
Qed.

(** X14. Among the strings of ASCII characters [isValidEmail] accepts exactly
    those of the form [local@domain.tld] whose three parts are non-empty
    and free of white space and of [@]; so an accepted address has exactly
    one [@] and no white space. *)
Theorem isValidEmail_shape s :
  JS.ascii_only s = true ->
  (isValidEmail s = true <->
   exists l d t,
     list_ascii_of_string s = l ++ "@"%char :: d ++ "."%char :: t /\
     l <> [] /\ d <> [] /\ t <> [] /\
     forallb not_space_at l = true /\ forallb not_space_at d = true /\
     forallb not_space_at t = true) /\
  (isValidEmail s = true ->
   count_occ ascii_dec (list_ascii_of_string s) "@"%char = 1%nat /\
   forallb (fun c => negb (JS.is_space c)) (list_ascii_of_string s) = true).
Proof.
  intros _.
  split; [apply email_parts|].
  intros H. apply email_parts in H.
  destruct H as (l & d & t & -> & _ & _ & _ & Fl & Fd & Ft). split.
  - rewrite count_occ_app. cbn [count_occ].
    destruct (ascii_dec "@" "@") as [_|n]; [|now elim n].
    rewrite count_occ_app. cbn [count_occ].
    destruct (ascii_dec "." "@") as [e|_]; [discriminate|].
    rewrite !count_at_none by assumption. reflexivity.
  - rewrite forallb_app. cbn [forallb]. rewrite forallb_app. cbn [forallb].
    rewrite !no_space by assumption. reflexivity.
Qed.

Lemma isValidEmail_shape_witness :
  isValidEmail "ann@example.org" = true /\
  count_occ ascii_dec (list_ascii_of_string "ann@example.org") "@"%char = 1%nat /\
  forallb (fun c => negb (JS.is_space c)) (list_ascii_of_string "ann@example.org")
    = true.
Proof.
  destruct (@isValidEmail_shape "ann@example.org" eq_refl) as [Hiff Hone].
  assert (H : isValidEmail "ann@example.org" = true).
  { apply Hiff.
    exists (list_ascii_of_string "ann"), (list_ascii_of_string "example"),
           (list_ascii_of_string "org").
    repeat split; try reflexivity; cbn; discriminate. }
  split; [exact H | exact (Hone H)].
Defined.

(** X15. Among the strings of ASCII characters [isValidPhone] accepts exactly
    those made of digits, white space and [( ) + -] that hold at least ten
    digits. *)
Theorem isValidPhone_shape p :
  JS.ascii_only p = true ->
  (isValidPhone p = true <->
   forallb phone_char (list_ascii_of_string p) = true /\
   (10 <= List.length (digits_of p))%nat).
Proof.
  intros _.
  unfold isValidPhone, phoneRegex.
  rewrite andb_true_iff, test_lang, lang_plus_class, Nat.leb_le.
  split; [tauto|]. intros [H1 H2]. repeat split; auto.
  intros E. unfold digits_of in H2. rewrite E in H2. cbn in H2. lia.
Qed.

Lemma isValidPhone_shape_witness :
  isValidPhone "+91 (020) 5550-1000" = true.
Proof.
  apply (@isValidPhone_shape "+91 (020) 5550-1000" eq_refl).
  split; [reflexivity | vm_compute; lia].
Defined.

Lemma missing_or_not_false p v :
  missing_or_not p v = false <-> exists s, v = Some s /\ s <> "" /\ p s = true.
Proof.
  destruct v as [s|]; cbn.
  - rewrite orb_false_iff, negb_false_iff. split.
    + intros [H1 H2]. apply String.eqb_neq in H1. eauto.
    + intros (s' & E & H1 & H2). inversion E; subst. split; [now apply String.eqb_neq | auto].
  - split; [discriminate | intros (s & E & _); discriminate].
Qed.

Lemma app_nil_iff (A : Type) (l l' : list A) : l ++ l' = [] <-> l = [] /\ l' = [].
Proof.
  split; [apply app_eq_nil | intros [-> ->]; reflexivity].
Qed.

Lemma if_nil (b : bool) (x : string) : (if b then [x] else []) = [] <-> b = false.
Proof. destruct b; split; intros; congruence. Qed.

(** X16. A registration whose fields hold ASCII characters passes validation
    exactly when the email is valid, the password has at least 6
    characters and equals its confirmation, the trimmed name has at least 2
    characters and the phone number is valid. *)
Theorem registration_accepted r :
  ascii_registration r = true ->
  (validateRegistrationInput r = [] <->
   exists e p n ph,
     reg_email r = Some e /\ isValidEmail e = true /\
     reg_password r = Some p /\ (6 <= String.length p)%nat /\
     reg_password_confirm r = Some p /\
     reg_full_name r = Some n /\ (2 <= String.length (JS.trim n))%nat /\
     reg_phone r = Some ph /\ isValidPhone ph = true).
Proof.
  intros _.
  unfold validateRegistrationInput.
  rewrite !app_nil_iff, !if_nil, !missing_or_not_false.
  unfold long_enough, name_ok, MIN_PASSWORD_LENGTH. split.
  - intros ((e & He & _ & Ve) & (p & Hp & _ & Lp) & Hd & (n & Hn & _ & Ln) & (ph & Hph & _ & Vph)).
    exists e, p, n, ph. rewrite negb_true_iff, Nat.ltb_ge in Lp, Ln.
    repeat (split; [assumption|]). split; [|auto].
    rewrite Hp in Hd. destruct (reg_password_confirm r) as [c|]; cbn in Hd; [|discriminate].
    rewrite negb_false_iff in Hd. apply String.eqb_eq in Hd. now subst.
  - intros (e & p & n & ph & He & Ve & Hp & Lp & Hc & Hn & Ln & Hph & Vph).
    assert (e <> "") by (intros ->; discriminate).
    assert (p <> "") by (intros ->; cbn in Lp; lia).
    assert (n <> "") by (intros ->; cbn in Ln; lia).
    assert (ph <> "") by (intros ->; discriminate).
    repeat split; eauto 6.
    + exists p. rewrite negb_true_iff, Nat.ltb_ge. auto.
    + rewrite Hp, Hc. cbn. now rewrite String.eqb_refl.
    + exists n. rewrite negb_true_iff, Nat.ltb_ge. auto.
Qed.

Lemma registration_accepted_witness :
  validateRegistrationInput
    {| reg_email := Some "ann@example.org"; reg_password := Some "s3cret!";
       reg_password_confirm := Some "s3cret!"; reg_full_name := Some "  Ann Lee ";
       reg_phone := Some "+91 (020) 5550-1000" |} = [].
Proof.
  apply (@registration_accepted
           {| reg_email := Some "ann@example.org"; reg_password := Some "s3cret!";
              reg_password_confirm := Some "s3cret!";
              reg_full_name := Some "  Ann Lee ";
              reg_phone := Some "+91 (020) 5550-1000" |} eq_refl).
  exists "ann@example.org", "s3cret!", "  Ann Lee ", "+91 (020) 5550-1000".
  repeat split; try reflexivity; vm_compute; lia.
Defined.

End ValidatorFacts.

(** ** What a booking run does to the store *)

Module BookingInvariants.

Import Store Handler Config Booking BookingFacts Invariants.
Local Open Scope string_scope.
Local Open Scope list_scope.

(** *** What a run does to the trips *)



(** *** What a confirmation means *)

(** X2. A confirmation page is sent only for a caller who is not the driver, on
    a trip that had a seat left and no booking of the caller, and the run
    has added exactly one booking row, of the caller on that trip, whose
    key is the one the page shows. *)
Theorem confirmation_records_booking env f now req s t v bid :
  fst (POST_trips_book env f now req s) = RenderBooking t v bid ->
  exists u,
    user req = Some u /\
    trips_by_id (db s) (params_id req) = [t] /\
    user_id u <> driver_id t /\
    (0 < available_seats t)%Z /\
    bookings_of (db s) (params_id req) (user_id u) = [] /\
    bid = fresh_booking_id (db s) /\
    bookings (db (snd (POST_trips_book env f now req s))) =
      bookings (db s) ++ [new_booking (db s) (params_id req) (user_id u) now].
Proof.
  intros Hr.
  pose proof (POST_trips_book_run env f now req s) as H.
  destruct (POST_trips_book env f now req s) as [r s'].
  cbn [fst snd] in *. subst r.
  destruct H as [[C R] | (u & t0 & s0 & o & He & C & F & Hs)].
  - apply rejection_not_confirmation in R. discriminate.
  - destruct (finish_booking_run f now (user_id u) (params_id req) t0 s0)
      as (o' & s1 & E & H).
    rewrite E in F. inversion F; subst o' s1. clear F.
    rewrite (bookings_of_calm _ _ C), (new_booking_calm _ _ _ C) in H.
    pose proof C as (_ & Hb0 & _).
    destruct He as (Hu & _ & _ & _ & Ht & Hd & Hseats & _).
    destruct o as [r|r|m]; [| |contradiction]; cbn [sent] in Hs.
    + destruct H as (_ & _ & Hn & (v' & ->) & Hb & _).
      inversion Hs; subst. exists u.
      repeat (split; [assumption|]). split.
      * unfold fresh_booking_id. now rewrite Hb0.
      * rewrite Hb, Hb0. reflexivity.
    + destruct H as ((m & ->) & _). discriminate.
Qed.

Lemma confirmation_records_booking_witness :
  exists u,
    user (Examples.book_as Examples.ann) = Some u /\
    trips_by_id (Examples.store_with 1 []) "trip-1" = [Examples.trip_with 1] /\
    user_id u <> "dan" /\
    (0 < 1)%Z /\
    bookings_of (Examples.store_with 1 []) "trip-1" (user_id u) = [] /\
    (1 = fresh_booking_id (Examples.store_with 1 []))%nat /\
    bookings (db (snd (POST_trips_book Examples.env no_faults 1000
                         (Examples.book_as Examples.ann)
                         (start (Examples.store_with 1 []))))) =
      [] ++ [new_booking (Examples.store_with 1 []) "trip-1" (user_id u) 1000].
Proof.
  exact (@confirmation_records_booking Examples.env no_faults 1000
           (Examples.book_as Examples.ann) (start (Examples.store_with 1 []))
           (Examples.trip_with 1) (DriverProfile Examples.dan) 1%nat eq_refl).
Defined.

(** *** The answers of the handler *)

(** X30. The booking handler answers every request itself: no exception escapes
    it, an unauthenticated request is redirected to the login page with
    the address it asked for, and every other refusal is a redirect to
    the page of the requested trip with one of six error codes. *)
Theorem booking_answers env f now req s :
  match fst (POST_trips_book env f now req s) with
  | RedirectLogin url => user req = None /\ url = originalUrl req
  | RedirectTrip tid code _ =>
      user req <> None /\ tid = params_id req /\
      In code [ "profile_failed"; "trip_not_found"; "driver_booking"; "no_seats";
                "already_booked"; "booking_failed" ]
  | RenderBooking _ _ _ => user req <> None
  | Unhandled _ => False
  end.
Proof.
  pose proof (POST_trips_book_run env f now req s) as H.
  destruct (POST_trips_book env f now req s) as [r s'].
  cbn [fst snd] in *.
  destruct H as [[_ R] | (u & t & s0 & o & He & _ & F & ->)].
  - destruct R; cbn [In];
      repeat match goal with
             | |- _ /\ _ => split
             | |- _ <> None => congruence
             end; auto 10.
  - destruct He as (Hu & _).
    destruct (finish_booking_run f now (user_id u) (params_id req) t s0)
      as (o' & s1 & E & H).
    rewrite E in F. inversion F; subst o' s1. clear F.
    destruct o as [r|r|m]; [| |contradiction]; cbn [sent].
    + destruct H as (_ & _ & _ & (v & ->) & _). congruence.
    + destruct H as ((m & ->) & _). cbn [In].
      split; [congruence|]. split; [reflexivity | auto 10].
Qed.

(** *** What a run does to the profiles *)

Lemma keeps_bind {A B} (m : M response A) (k : A -> M response B) :
  keeps_profiles m -> (forall a, keeps_profiles (k a)) -> keeps_profiles (bind m k).
Proof.
  intros Hm Hk s. unfold bind. specialize (Hm s).
  destruct (m s) as [[a|r|msg] s1]; cbn [snd] in *; [|assumption..].
  rewrite Hk. exact Hm.
Qed.

Lemma keeps_ret {A} (a : A) : keeps_profiles (ret a).
Proof. intros s. reflexivity. Qed.

Lemma keeps_reply {A} r : keeps_profiles (@reply response A r).
Proof. intros s. reflexivity. Qed.

Lemma keeps_console_error line : keeps_profiles (@console_error response line).
Proof. intros s. reflexivity. Qed.

Lemma keeps_when b m : keeps_profiles m -> keeps_profiles (@when response b m).
Proof. intros H. destruct b; [exact H | apply keeps_ret]. Qed.

Lemma keeps_query {A} c fault (run : DB -> Resp A * DB) :
  (forall d, profiles (snd (run d)) = profiles d) ->
  keeps_profiles (@query response A c fault run).
Proof.
  intros H s. unfold query. destruct fault; [reflexivity|].
  specialize (H (db s)). destruct (run (db s)) as [r d']. exact H.
Qed.

Ltac keeps_step :=
  repeat first
    [ apply keeps_bind; [|intros ?]
    | apply keeps_query; intros ?; cbn [snd]
    | apply keeps_when
    | apply keeps_console_error
    | apply keeps_ret
    | apply keeps_reply
    | match goal with |- keeps_profiles (match ?x with _ => _ end) => destruct x end
    | match goal with |- keeps_profiles (if ?x then _ else _) => destruct x end ].

Lemma get_trip_keeps f tid : keeps_profiles (get_trip f tid).
Proof. unfold get_trip. keeps_step; reflexivity. Qed.

Lemma validate_eligibility_keeps f uid tid t :
  keeps_profiles (validate_eligibility f uid tid t).
Proof. unfold validate_eligibility. keeps_step; reflexivity. Qed.

Lemma create_booking_keeps f now uid tid : keeps_profiles (create_booking f now uid tid).
Proof.
  unfold create_booking. keeps_step.
  all: try reflexivity.
  unfold insert_booking. destruct (bookings_of _ _ _); reflexivity.
Qed.

Lemma decrement_seats_keeps f tid t : keeps_profiles (decrement_seats f tid t).
Proof.
  unfold decrement_seats. keeps_step; try reflexivity.
  all: unfold update_seats; destruct (refuses_seats _ _ _); reflexivity.
Qed.

Lemma fetch_driver_keeps f t : keeps_profiles (fetch_driver f t).
Proof. unfold fetch_driver. keeps_step; reflexivity. Qed.

Lemma finish_booking_keeps f now uid tid t :
  keeps_profiles (finish_booking f now uid tid t).
Proof.
  unfold finish_booking.
  apply keeps_bind; [apply create_booking_keeps | intros b].
  apply keeps_bind; [apply decrement_seats_keeps | intros _].
  apply keeps_bind; [apply fetch_driver_keeps | intros v].
  apply keeps_ret.
Qed.

Lemma bind_keeps_after {A B} (m : M response A) (k : A -> M response B) s :
  (forall a, keeps_profiles (k a)) ->
  profiles (db (snd (bind m k s))) = profiles (db (snd (m s))).
Proof.
  intros Hk. unfold bind.
  destruct (m s) as [[a|r|msg] s1]; cbn [snd]; [apply Hk | reflexivity..].
Qed.

Lemma bind_ret {A B} (a : A) (k : A -> M response B) s : bind (ret a) k s = k a s.
Proof. reflexivity. Qed.

Lemma try_catch_keeps_after (body : M response response) handler s :
  (forall m, keeps_profiles (handler m)) ->
  profiles (db (snd (try_catch body handler s))) = profiles (db (snd (body s))).
Proof.
  intros Hh. unfold try_catch.
  destruct (body s) as [[a|r|msg] s1]; cbn [snd]; [reflexivity.. | apply Hh].
Qed.

Lemma book_trip_catch_keeps req m : keeps_profiles (book_trip_catch req m).
Proof. unfold book_trip_catch. keeps_step. Qed.

Lemma ensure_profile_effect f u tid s :
  profiles (db (snd (ensure_profile f u tid s))) = profiles (db s) \/
  (profiles_by_id (db s) (user_id u) = [] /\
   profiles (db (snd (ensure_profile f u tid s))) = profiles (db s) ++ [new_profile u]).
Proof.
  unfold_step. unfold insert_profile.
  change (profile_id (new_profile u)) with (user_id u).
  destruct (on_profile_check f) as [e|]; cbn [data error].
  - destruct (negb (code e =? "PGRST116")), (on_profile_insert f) as [e'|];
      cbn [data error db trace snd]; auto.
    all: destruct (profiles_by_id (db s) (user_id u)) as [|p l] eqn:E;
      cbn [data error db trace snd profiles]; auto.
  - destruct (profiles_by_id (db s) (user_id u)) as [|p [|q l]] eqn:E;
      cbn [data error db trace negb code PGRST116 String.eqb Ascii.eqb Bool.eqb snd];
      auto.
    all: destruct (on_profile_insert f) as [e'|]; cbn [data error db trace snd]; auto.
    all: rewrite E; cbn [data error db trace snd profiles]; auto.
Qed.

(** X3. The booking handler never changes or removes a profile: a run leaves
    the profiles as they are, or appends the caller's profile, built from
    the account metadata, when the caller had none. *)
Theorem booking_profile_effect env f now req s :
  profiles (db (snd (POST_trips_book env f now req s))) = profiles (db s) \/
  exists u,
    user req = Some u /\
    profiles_by_id (db s) (user_id u) = [] /\
    profiles (db (snd (POST_trips_book env f now req s))) =
      profiles (db s) ++ [new_profile u].
Proof.
  unfold POST_trips_book. cbn [snd]. unfold book_trip.
  rewrite try_catch_keeps_after by (intros m; apply book_trip_catch_keeps).
  unfold book_trip_try.
  destruct (user req) as [u|]; [|left; reflexivity].
  unfold createClient.
  destruct (negb (JS.truthy (SUPABASE_URL env))); [left; reflexivity|].
  destruct (negb (JS.truthy (or_key _ _))); [left; reflexivity|].
  rewrite bind_ret, bind_keeps_after.
  - destruct (ensure_profile_effect f u (params_id req) s) as [H | [H1 H2]];
      [left; assumption | right; eauto].
  - intros _. apply keeps_bind; [apply get_trip_keeps | intros t].
    apply keeps_bind; [apply validate_eligibility_keeps | intros _].
    apply finish_booking_keeps.
Qed.

End BookingInvariants.

(** ** Seats and bookings over a sequence of requests *)

Module SeatAccounting.

Import Store Handler Config Booking BookingFacts Invariants.
Local Open Scope string_scope.
Local Open Scope list_scope.

Lemma create_booking_visible f now uid tid s r s1 :
  booking_rows_hidden f = false ->
  create_booking f now uid tid s = (Replied r, s1) ->
  bookings (db s1) = bookings (db s).
Proof.
  intros Hh. unfold_step. unfold insert_booking. rewrite Hh.
  destruct (on_booking_insert f) as [e|]; cbn [data error db trace].
  - intros [= _ <-]. reflexivity.
  - destruct (bookings_of (db s) tid uid) as [|b0 l]; unfold ok, failed;
      cbn [data error db trace]; intros [= _ <-]; reflexivity.
Qed.

Lemma finish_booking_visible f now uid tid t s r s1 :
  booking_rows_hidden f = false ->
  finish_booking f now uid tid t s = (Replied r, s1) ->
  bookings (db s1) = bookings (db s).
Proof.
  intros Hh. unfold finish_booking. unfold bind at 1.
  destruct (create_booking f now uid tid s) as [[b|r'|m] s'] eqn:E.
  - unfold bind at 1.
    destruct (decrement_seats_run f tid t s') as (s2 & E2 & _). rewrite E2.
    unfold bind at 1.
    destruct (fetch_driver_run f t s2) as (v & s3 & E3 & _). rewrite E3.
    discriminate.
  - intros [= _ <-]. eapply create_booking_visible; eauto.
  - discriminate.
Qed.

Lemma trips_by_id_set_seats trips0 pid tid n :
  filter (fun t => id t =? tid)
         (map (fun x => if id x =? pid then set_seats n x else x) trips0)
  = map (fun x => if id x =? pid then set_seats n x else x)
        (filter (fun t => id t =? tid) trips0).
Proof.
  induction trips0 as [|x l IH]; cbn [map filter]; [reflexivity|].
  assert (E : id (if id x =? pid then set_seats n x else x) = id x)
    by (destruct (id x =? pid); reflexivity).
  rewrite E. destruct (id x =? tid); cbn [map]; now rewrite IH.
Qed.

Lemma found_has_id d tid t : trips_by_id d tid = [t] -> id t = tid.
Proof.
  intros H. assert (Hin : In t (trips_by_id d tid)) by (rewrite H; now left).
  apply filter_In in Hin. now apply String.eqb_eq.
Qed.

Lemma booked_seats_same d d' tid :
  bookings d' = bookings d -> booked_seats d' tid = booked_seats d tid.
Proof. intros H. unfold booked_seats. now rewrite H. Qed.

Lemma booked_seats_added d d' tid pid uid now :
  bookings d' = bookings d ++ [new_booking d pid uid now] ->
  booked_seats d' tid
  = (booked_seats d tid + if (pid =? tid)%string then 1 else 0)%Z.
Proof.
  intros H. unfold booked_seats. rewrite H, filter_app, length_app.
  cbn [filter new_booking trip_id]. destruct (pid =? tid); cbn [List.length]; lia.
Qed.

(** One run on a trip that has a seat: the seat count stays at least 1 and
    does not grow, no booking is lost, and when the seat update is answered
    by the store and the inserted row is returned, the seats left and the
    bookings held add up as before unless the count has come down to 1. *)
Lemma booking_seat_step env f now req s tid t :
  trips_by_id (db s) tid = [t] ->
  (1 <= available_seats t)%Z ->
  exists t',
    trips_by_id (db (snd (POST_trips_book env f now req s))) tid = [t'] /\
    (1 <= available_seats t' <= available_seats t)%Z /\
    (available_seats t + booked_seats (db s) tid
     <= available_seats t'
        + booked_seats (db (snd (POST_trips_book env f now req s))) tid)%Z /\
    (on_seat_update f = None -> booking_rows_hidden f = false ->
     (1 < available_seats t')%Z ->
     (available_seats t'
      + booked_seats (db (snd (POST_trips_book env f now req s))) tid
      = available_seats t + booked_seats (db s) tid)%Z).
Proof.
  intros Ht Hone.
  pose proof (POST_trips_book_run env f now req s) as H.
  destruct (POST_trips_book env f now req s) as [r s']. cbn [fst snd] in *.
  assert (Hkept : forall k,
             trips (db s') = trips (db s) ->
             booked_seats (db s') tid = (booked_seats (db s) tid + k)%Z ->
             (0 <= k)%Z ->
             (on_seat_update f = None -> booking_rows_hidden f = false ->
              (1 < available_seats t)%Z -> k = 0%Z) ->
             exists t',
               trips_by_id (db s') tid = [t'] /\
               (1 <= available_seats t' <= available_seats t)%Z /\
               (available_seats t + booked_seats (db s) tid
                <= available_seats t' + booked_seats (db s') tid)%Z /\
               (on_seat_update f = None -> booking_rows_hidden f = false ->
                (1 < available_seats t')%Z ->
                (available_seats t' + booked_seats (db s') tid
                 = available_seats t + booked_seats (db s) tid)%Z)).
  { intros k E1 E2 Hk Hz. exists t. unfold trips_by_id. rewrite E1, E2.
    fold (trips_by_id (db s) tid).
    split; [exact Ht|]. split; [lia|]. split; [lia|].
    intros Hup Hh Hgt. rewrite (Hz Hup Hh Hgt). lia. }
  assert (Hsame : forall d', bookings d' = bookings (db s) ->
                             booked_seats d' tid = (booked_seats (db s) tid + 0)%Z).
  { intros d' E. rewrite (@booked_seats_same _ _ tid E). lia. }
  destruct H as [[C R] | (u & t0 & s0 & o & He & C & F & _)].
  - destruct C as (E1 & E2 & _). apply (Hkept 0%Z); auto; lia.
  - destruct (finish_booking_run f now (user_id u) (params_id req) t0 s0)
      as (o' & s1 & E & H).
    rewrite E in F. inversion F; subst o' s1. clear F.
    pose proof C as (Ht0 & Hb0 & _).
    destruct He as (_ & _ & _ & _ & Hfound & _).
    assert (Hadd : bookings (db s')
                   = bookings (db s0) ++ [new_booking (db s0) (params_id req) (user_id u) now] ->
                   bookings (db s')
                   = bookings (db s)
                       ++ [new_booking (db s) (params_id req) (user_id u) now]).
    { intros Hb. rewrite Hb, Hb0. unfold new_booking, fresh_booking_id. now rewrite Hb0. }
    assert (Hfound0 : trips_by_id (db s0) (params_id req) = [t0])
      by (unfold trips_by_id; rewrite Ht0; exact Hfound).
    destruct o as [r'|r'|m]; [| |contradiction].
    + destruct H as (_ & _ & _ & _ & Hb & Htr). apply Hadd in Hb.
      pose proof (@booked_seats_added _ _ tid _ _ _ Hb) as Hcount.
      destruct (seat_update_refused f (db s0) (params_id req) t0) eqn:Hr.
      * destruct Htr as [Htr _].
        apply (Hkept (if (params_id req =? tid)%string then 1%Z else 0%Z));
          [congruence | exact Hcount | destruct (params_id req =? tid); lia |].
        intros Hup Hh Hgt. destruct (params_id req =? tid) eqn:Eid; [|reflexivity].
        apply String.eqb_eq in Eid. subst tid.
        assert (t0 = t) by congruence. subst t0.
        unfold seat_update_refused in Hr. rewrite Hup in Hr.
        unfold refuses_seats in Hr. apply andb_prop in Hr. destruct Hr as [Hr _].
        apply Z.leb_le in Hr. lia.
      * pose proof (accepted_update_positive f _ _ Hfound0 Hr) as Hleft.
        rewrite Hcount.
        unfold trips_by_id. rewrite Htr, Ht0, trips_by_id_set_seats.
        fold (trips_by_id (db s) tid). rewrite Ht. cbn [map].
        rewrite (@found_has_id _ _ _ Ht).
        rewrite (String.eqb_sym tid (params_id req)).
        destruct (params_id req =? tid) eqn:Eid.
        -- apply String.eqb_eq in Eid. subst tid.
           assert (t0 = t) by congruence. subst t0.
           eexists. split; [reflexivity|]. cbn [set_seats available_seats].
           repeat split; intros; lia.
        -- eexists. split; [reflexivity|]. repeat split; intros; lia.
    + destruct H as (_ & Htr & [Hb | [_ Hb]] & _).
      * apply (Hkept 0%Z); [congruence | apply Hsame; congruence | lia | reflexivity].
      * apply Hadd in Hb.
        apply (Hkept (if (params_id req =? tid)%string then 1%Z else 0%Z));
          [congruence | exact (@booked_seats_added _ _ tid _ _ _ Hb)
          | destruct (params_id req =? tid); lia |].
        intros _ Hh _.
        pose proof (@finish_booking_visible _ _ _ _ _ _ _ _ Hh E) as Hv.
        rewrite Hv, Hb0 in Hb.
        assert (Hlen : List.length (bookings (db s))
                       = List.length (bookings (db s)
                                      ++ [new_booking (db s) (params_id req) (user_id u) now]))
          by (now rewrite <- Hb).
        rewrite length_app in Hlen. cbn [List.length] in Hlen. lia.
Qed.

(** X28. Requests handled one after the other, on a trip that has a seat: the
    seat count never falls below 1, which the store requires, and never
    grows, and no booking is lost. While the seat updates are answered by
    the store and the inserted rows are returned, the seats left and the
    bookings held add up to what they added up to at the start as long as
    more than one seat is left; once the count is 1 it stays there, and
    further bookings are still accepted. *)
Theorem sequential_bookings_seat_account env reqs s tid t :
  trips_by_id (db s) tid = [t] ->
  (1 <= available_seats t)%Z ->
  exists t',
    trips_by_id (db (run_bookings env reqs s)) tid = [t'] /\
    (1 <= available_seats t' <= available_seats t)%Z /\
    (available_seats t + booked_seats (db s) tid
     <= available_seats t' + booked_seats (db (run_bookings env reqs s)) tid)%Z /\
    (Forall (fun r => on_seat_update (fst (fst r)) = None /\
                      booking_rows_hidden (fst (fst r)) = false) reqs ->
     (1 < available_seats t')%Z ->
     (available_seats t' + booked_seats (db (run_bookings env reqs s)) tid
      = available_seats t + booked_seats (db s) tid)%Z).
Proof.
  revert s t. induction reqs as [|[[f now] req] rest IH];
    intros s t Ht Hone; cbn [run_bookings].
  - exists t. split; [assumption|]. repeat split; intros; lia.
  - destruct (@booking_seat_step env f now req s tid t Ht Hone)
      as (t1 & Ht1 & Hr1 & Hsum1 & Hc1).
    destruct (IH _ _ Ht1 (proj1 Hr1)) as (t' & Ht' & Hr' & Hsum' & Hc').
    exists t'. split; [assumption|]. split; [lia|]. split; [lia|].
    intros Hf Hgt. inversion Hf as [|x l [Hup Hh] Hrest]; subst.
    cbn [fst] in Hup, Hh.
    rewrite (Hc' Hrest Hgt). apply Hc1; auto. lia.
Qed.

(** Ann and Bob book a trip with two seats, then the driver tries: one seat
    is taken off, the second update is refused by the store, and two
    bookings stand against a count of 1. *)
Lemma sequential_bookings_seat_account_witness :
  let reqs := [ (no_faults, 1000%Z, Examples.book_as Examples.ann);
                (no_faults, 1001%Z, Examples.book_as Samples.bob);
                (no_faults, 1002%Z, Examples.book_as Examples.dan) ] in
  let s := start (Examples.store_with 2 []) in
  (exists t',
    trips_by_id (db (run_bookings Examples.env reqs s)) "trip-1" = [t'] /\
    (1 <= available_seats t' <= 2)%Z /\
    (2 + 0 <= available_seats t'
              + booked_seats (db (run_bookings Examples.env reqs s)) "trip-1")%Z /\
    (Forall (fun r => on_seat_update (fst (fst r)) = None /\
                      booking_rows_hidden (fst (fst r)) = false) reqs ->
     (1 < available_seats t')%Z ->
     (available_seats t'
      + booked_seats (db (run_bookings Examples.env reqs s)) "trip-1"
      = 2 + 0)%Z)) /\
  trips (db (run_bookings Examples.env reqs s)) = [Examples.trip_with 1] /\
  booked_seats (db (run_bookings Examples.env reqs s)) "trip-1" = 2%Z.
Proof.
  intros reqs s. split; [|split; reflexivity].
  apply (@sequential_bookings_seat_account Examples.env reqs s "trip-1"
           (Examples.trip_with 2)).
  - reflexivity.
  - cbn. lia.
Defined.

End SeatAccounting.

(** ** Order and pages of the trip listing *)

Module ListingOrder.

Import Store Config Listing Invariants.
Local Open Scope Z_scope.

Lemma insert_by_departure_In t l x :
  In x (insert_by_departure t l) <-> x = t \/ In x l.
Proof.
  induction l as [|u r IH]; cbn [insert_by_departure].
  - cbn. intuition.
  - destruct (departure_timestamp t <? departure_timestamp u); cbn [In].
    + intuition.
    + rewrite IH. intuition.
Qed.

Lemma order_by_departure_In l x : In x (order_by_departure l) <-> In x l.
Proof.
  induction l as [|t r IH]; cbn [order_by_departure fold_right]; [reflexivity|].
  fold (order_by_departure r). rewrite insert_by_departure_In, IH. cbn. intuition.
Qed.

Lemma insert_by_departure_ascending t l :
  ascending l -> ascending (insert_by_departure t l).
Proof.
  induction l as [|u r IH]; cbn [insert_by_departure ascending].
  - intros _. split; [constructor | exact I].
  - intros [Hu Hr].
    destruct (departure_timestamp t <? departure_timestamp u) eqn:E.
    + apply Z.ltb_lt in E. cbn [ascending]. split; [|split; assumption].
      constructor; [lia|].
      rewrite Forall_forall in *. intros x Hx. specialize (Hu x Hx). lia.
    + apply Z.ltb_ge in E. cbn [ascending]. split; [|auto].
      rewrite Forall_forall in *. intros x Hx.
      apply insert_by_departure_In in Hx. destruct Hx as [->|Hx]; [lia | auto].
Qed.

Lemma order_by_departure_ascending l : ascending (order_by_departure l).
Proof.
  induction l as [|t r IH]; cbn [order_by_departure fold_right]; [exact I|].
  now apply insert_by_departure_ascending.
Qed.

Lemma skipn_In {A} n (l : list A) x : In x (skipn n l) -> In x l.
Proof.
  revert l. induction n as [|n IH]; intros [|y l]; cbn; auto.
Qed.

Lemma firstn_In {A} n (l : list A) x : In x (firstn n l) -> In x l.
Proof.
  revert l. induction n as [|n IH]; intros [|y l]; cbn [firstn In]; try tauto.
  intros [->|H]; [left; reflexivity | right; apply IH, H].
Qed.

Lemma range_In {A} from to (l : list A) x : In x (range from to l) -> In x l.
Proof. unfold range. intros H. eapply skipn_In, firstn_In, H. Qed.

Lemma skipn_ascending n l : ascending l -> ascending (skipn n l).
Proof.
  revert l. induction n as [|n IH]; intros [|y l]; cbn [skipn]; auto.
  intros [_ H]. auto.
Qed.

Lemma firstn_ascending n l : ascending l -> ascending (firstn n l).
Proof.
  revert l. induction n as [|n IH]; intros [|y l]; cbn [firstn ascending]; auto.
  intros [Hy H]. split; [|auto].
  rewrite Forall_forall in *. intros x Hx. apply Hy. eapply firstn_In, Hx.
Qed.

Lemma range_ascending from to l : ascending l -> ascending (range from to l).
Proof. intros H. unfold range. now apply firstn_ascending, skipn_ascending. Qed.

Lemma range_at_most {A} from to (l : list A) :
  0 <= to - from + 1 -> Z.of_nat (List.length (range from to l)) <= to - from + 1.
Proof.
  intros H. unfold range.
  pose proof (firstn_le_length (Z.to_nat (to - from + 1)) (skipn (Z.to_nat from) l)).
  lia.
Qed.

Lemma map_row_with_driver d l : map row (map (with_driver d) l) = l.
Proof.
  rewrite map_map. cbn. apply map_id.
Qed.

(** X4. [parsePaginationParams] answers every query string with a page of at
    least 1 and a limit between 1 and 50; for a page of at most 10^14,
    where the numbers of the program are exact integers, the offset is that
    of the page, [(page - 1) * limit], and lies below 2^53. *)
Theorem parsePaginationParams_bounds q :
  (1 <= page (parsePaginationParams q) /\
   1 <= limit (parsePaginationParams q) <= 50) /\
  (page (parsePaginationParams q) <= 10 ^ 14 ->
   0 <= offset (parsePaginationParams q) < 2 ^ 53 /\
   offset (parsePaginationParams q)
     = (page (parsePaginationParams q) - 1) * limit (parsePaginationParams q)).
Proof.
  unfold parsePaginationParams. cbn [page limit offset].
  set (p := JS.num_or _ 1). set (l := JS.num_or _ TRIPS_LIMIT).
  split; [lia|]. intros Hp.
  assert (H14 : 10 ^ 14 = 100000000000000) by reflexivity.
  assert (H53 : 2 ^ 53 = 9007199254740992) by reflexivity.
  rewrite H14 in Hp. rewrite H53. split; [|reflexivity]. nia.
Qed.

(** The query [?page=3&limit=20]. *)
Lemma parsePaginationParams_bounds_witness :
  parsePaginationParams
    {| q_page := Some "3"%string; q_limit := Some "20"%string; q_origin := None;
       q_destination := None; q_min_price := None; q_max_price := None |}
    = {| page := 3; limit := 20; offset := 40 |} /\
  0 <= 40 < 2 ^ 53.
Proof.
  split; [reflexivity|].
  destruct (proj2 (parsePaginationParams_bounds
                     {| q_page := Some "3"%string; q_limit := Some "20"%string;
                        q_origin := None; q_destination := None;
                        q_min_price := None; q_max_price := None |}))
    as [H _]; [vm_compute; discriminate | exact H].
Defined.

Section Externals.

Variable parseFloat : string -> number.
Variable ilike : string -> string -> bool.

Lemma matches_upcoming f t :
  matches ilike f t = true -> departure_gte f <= departure_timestamp t.
Proof.
  unfold matches. intros H.
  repeat (apply andb_prop in H; destruct H as [H _]).
  now apply Z.leb_le.
Qed.

(** X5. The rows of a trip list come from the store, none has left before the
    request, each carries the profile of its driver, they are in ascending
    order of departure, and they are at most as many as the limit of the
    page, which is at most 50. *)
Theorem listed_trips env fl now q d rows info :
  GET_trips parseFloat ilike env fl now q d = TripList rows info ->
  Forall (fun r => In (row r) (trips d) /\
                   now <= departure_timestamp (row r) /\
                   driver r = hd_error (profiles_by_id d (driver_id (row r))))
         rows /\
  ascending (map row rows) /\
  Z.of_nat (List.length rows) <= info_limit info /\
  info_limit info <= 50.
Proof.
  unfold GET_trips, fetchTrips.
  assert (Hl : 1 <= limit (parsePaginationParams q) <= 50)
    by (unfold parsePaginationParams; cbn [limit]; lia).
  set (pg := parsePaginationParams q) in *.
  destruct (negb (JS.truthy (SUPABASE_URL env))); [discriminate|].
  destruct (negb (JS.truthy (SUPABASE_SERVICE_ROLE_KEY env))); [discriminate|].
  destruct (on_data fl); [discriminate|].
  cbn [fetched_error fetched_data fetched_count].
  intros [= <- <-]. cbn [info_limit].
  split; [|split; [|split]].
  - rewrite Forall_forall. intros r Hr.
    apply in_map_iff in Hr. destruct Hr as (t & <- & Ht).
    cbn [with_driver row driver].
    apply range_In, order_by_departure_In, filter_In in Ht.
    destruct Ht as [Ht Hm]. apply matches_upcoming in Hm.
    repeat split; auto.
  - rewrite map_row_with_driver. apply range_ascending, order_by_departure_ascending.
  - rewrite length_map.
    pose proof (range_at_most (offset pg) (offset pg + limit pg - 1)
                  (order_by_departure
                     (filter (matches ilike (buildTripFilters parseFloat q now))
                             (trips d)))).
    subst pg. unfold parsePaginationParams in *. cbn [page limit offset] in *. lia.
  - lia.
Qed.

Lemma firstn_add {A} a b (l : list A) :
  firstn (a + b) l = firstn a l ++ firstn b (skipn a l).
Proof.
  revert l. induction a as [|a IH]; intros [|x l]; cbn [Nat.add firstn skipn app].
  - reflexivity.
  - reflexivity.
  - now rewrite firstn_nil.
  - now rewrite IH.
Qed.

Lemma range_of_page {A} (i : nat) (L : Z) (l : list A) :
  1 <= L ->
  range (Z.of_nat i * L) (Z.of_nat i * L + L - 1) l
    = firstn (Z.to_nat L) (skipn (i * Z.to_nat L) l).
Proof.
  intros HL. unfold range. f_equal; [f_equal; lia|].
  f_equal. rewrite <- (Z2Nat.id L) at 1 by lia.
  rewrite <- Nat2Z.inj_mul. apply Nat2Z.id.
Qed.

Lemma insert_by_departure_perm t l :
  Permutation.Permutation (insert_by_departure t l) (t :: l).
Proof.
  induction l as [|u r IH]; cbn [insert_by_departure]; [apply Permutation.Permutation_refl|].
  destruct (departure_timestamp t <? departure_timestamp u).
  - apply Permutation.Permutation_refl.
  - eapply Permutation.perm_trans; [apply Permutation.perm_skip, IH|].
    apply Permutation.perm_swap.
Qed.

Lemma order_by_departure_perm l : Permutation.Permutation (order_by_departure l) l.
Proof.
  induction l as [|t r IH]; cbn [order_by_departure fold_right];
    [apply Permutation.perm_nil|].
  fold (order_by_departure r).
  eapply Permutation.perm_trans; [apply insert_by_departure_perm|].
  now apply Permutation.perm_skip.
Qed.

Lemma ascending_head_least t r x :
  ascending (t :: r) -> In x (t :: r) -> departure_timestamp t <= departure_timestamp x.
Proof.
  intros [Hall _] [<-|Hx]; [lia|].
  rewrite Forall_forall in Hall. now apply Hall.
Qed.

(** With pairwise different departures there is one ascending order. *)
Lemma ascending_unique l1 : forall l2,
  ascending l1 -> ascending l2 -> Permutation.Permutation l1 l2 ->
  NoDup (map departure_timestamp l1) -> l1 = l2.
Proof.
  induction l1 as [|a r1 IH]; intros l2 A1 A2 P N.
  - apply Permutation.Permutation_nil in P. now subst.
  - destruct l2 as [|b r2].
    + apply Permutation.Permutation_sym, Permutation.Permutation_nil in P. discriminate.
    + assert (Hb : In b (a :: r1))
        by (eapply Permutation.Permutation_in;
            [apply Permutation.Permutation_sym; exact P | now left]).
      assert (Ha : In a (b :: r2))
        by (eapply Permutation.Permutation_in; [exact P | now left]).
      pose proof (ascending_head_least A1 Hb) as H1.
      pose proof (ascending_head_least A2 Ha) as H2.
      assert (E : a = b).
      { destruct Hb as [E|Hb]; [exact E|].
        cbn [map] in N. inversion N as [|x l Hnot _]; subst.
        elim Hnot. apply in_map_iff. exists b. split; [lia | exact Hb]. }
      subst b. f_equal.
      apply IH.
      * apply A1.
      * apply A2.
      * eapply Permutation.Permutation_cons_inv; exact P.
      * cbn [map] in N. now inversion N.
Qed.

(** X6. The pages of a listing fit together when the matching trips have
    pairwise different departures: pages 1 to [k] of limit [L],
    concatenated, are the first [k * L] of the matching trips in ascending
    order of departure, so that on an unchanged store no trip is skipped or
    shown twice. *)
Theorem pages_partition env fl d filters (L : Z) (k : nat) (sorted : list Trip) :
  JS.truthy (SUPABASE_URL env) = true ->
  JS.truthy (SUPABASE_SERVICE_ROLE_KEY env) = true ->
  on_data fl = None ->
  1 <= L ->
  NoDup (map departure_timestamp (filter (matches ilike filters) (trips d))) ->
  ascending sorted ->
  Permutation.Permutation sorted (filter (matches ilike filters) (trips d)) ->
  List.concat (map (fun i => fetched_data
                          (fetchTrips ilike env fl d
                             {| page := Z.of_nat i + 1; limit := L;
                                offset := Z.of_nat i * L |} filters))
              (seq 0 k))
  = map (with_driver d) (firstn (k * Z.to_nat L) sorted).
Proof.
  intros Hu Hk Hd HL Hdistinct Hasc Hperm.
  assert (Hsorted : order_by_departure (filter (matches ilike filters) (trips d))
                    = sorted).
  { apply ascending_unique.
    - apply order_by_departure_ascending.
    - exact Hasc.
    - eapply Permutation.perm_trans; [apply order_by_departure_perm|].
      now apply Permutation.Permutation_sym.
    - eapply Permutation.Permutation_NoDup; [|exact Hdistinct].
      apply Permutation.Permutation_map, Permutation.Permutation_sym,
        order_by_departure_perm. }
  unfold fetchTrips. rewrite Hu, Hk, Hd, Hsorted.
  cbn [negb fetched_data page limit offset].
  induction k as [|k IH]; [reflexivity|].
  rewrite seq_S, map_app, concat_app, IH. cbn [map List.concat Nat.add].
  rewrite app_nil_r, range_of_page by exact HL.
  rewrite <- map_app. f_equal.
  replace (S k * Z.to_nat L)%nat with (k * Z.to_nat L + Z.to_nat L)%nat by lia.
  now rewrite firstn_add.
Qed.

End Externals.

(** Twenty-five trips that leave at different times, in pages of ten. *)
Lemma pages_partition_witness :
  List.concat (map (fun i => fetched_data
                          (fetchTrips (fun _ _ => true) Examples.env
                             Examples.listing_answers
                             (Examples.listing_store Examples.upcoming)
                             {| page := Z.of_nat i + 1; limit := 10;
                                offset := Z.of_nat i * 10 |}
                             (buildTripFilters (fun _ => None) Examples.first_page 1000)))
              (seq 0 3))
  = map (with_driver (Examples.listing_store Examples.upcoming))
        (firstn (3 * Z.to_nat 10) Examples.upcoming).
Proof.
  assert (E : filter (matches (fun _ _ => true)
                        (buildTripFilters (fun _ => None) Examples.first_page 1000))
                     (trips (Examples.listing_store Examples.upcoming))
              = Examples.upcoming) by (vm_compute; reflexivity).
  apply (@pages_partition (fun _ _ => true) Examples.env Examples.listing_answers
           (Examples.listing_store Examples.upcoming)
           (buildTripFilters (fun _ => None) Examples.first_page 1000) 10 3
           Examples.upcoming);
    [reflexivity | reflexivity | reflexivity | lia | | | ].
  - rewrite E.
    assert (N : nodup Z.eq_dec (map departure_timestamp Examples.upcoming)
                = map departure_timestamp Examples.upcoming)
      by (vm_compute; reflexivity).
    rewrite <- N. apply NoDup_nodup.
  - vm_compute. repeat split; repeat constructor; discriminate.
  - rewrite E. apply Permutation.Permutation_refl.
Defined.

Lemma listed_trips_witness :
  Forall (fun r => In (row r) (Examples.upcoming ++ Examples.departed) /\
                   1000 <= departure_timestamp (row r) /\
                   driver r = hd_error (profiles_by_id
                                          (Examples.listing_store
                                             (Examples.upcoming ++ Examples.departed))
                                          (driver_id (row r))))
         (map (with_driver (Examples.listing_store
                              (Examples.upcoming ++ Examples.departed)))
              (firstn 10 Examples.upcoming)) /\
  ascending (map row (map (with_driver (Examples.listing_store
                                          (Examples.upcoming ++ Examples.departed)))
                          (firstn 10 Examples.upcoming))) /\
  Z.of_nat (List.length
              (map (with_driver (Examples.listing_store
                                   (Examples.upcoming ++ Examples.departed)))
                   (firstn 10 Examples.upcoming))) <= 10 /\
  10 <= 50.
Proof.
  exact (@listed_trips (fun _ => None) (fun _ _ => true) Examples.env
           Examples.listing_answers 1000 Examples.first_page
           (Examples.listing_store (Examples.upcoming ++ Examples.departed))
           _ {| info_page := 1; info_limit := 10; info_total := Some 31;
                info_totalPages := 4 |} eq_refl).
Defined.

End ListingOrder.

(** ** What a creation request does to the store *)

Module TripCreationInvariants.

Import Config TripCreation.
Import QArith_base.
Local Open Scope string_scope.
Local Open Scope list_scope.

Section Externals.

Variable Date_parse : string -> option Z.
Variable parseFloat : string -> option QArith_base.Q.

Ltac split_all H :=
  unfold validateTripData in H;
  repeat match type of H with
         | (_ ++ _) = [] => apply app_eq_nil in H; destruct H as [? H]
         end.

(** What validation has checked of a form it accepts. *)
Lemma accepted_form now data :
  validateTripData Date_parse parseFloat now data = [] ->
  blank (origin_text data) = false /\
  blank (destination_text data) = false /\
  (exists s, departure_timestamp data = Some s /\
             forall t, Date_parse s = Some t -> (now < t)%Z) /\
  (exists n, JS.parseInt_opt (available_seats data) = Some n /\ (1 <= n <= 7)%Z) /\
  (forall p v, price data = Some p -> p <> "" -> parseFloat p = Some v ->
               Qle_bool 0 v = true).
Proof.
  intros H. split_all H.
  repeat match goal with
         | E : (if ?b then _ else _) = [] |- _ => destruct b eqn:?; [discriminate|]; clear E
         end.
  split; [reflexivity|]. split; [reflexivity|].
  split; [|split].
  - destruct (departure_timestamp data) as [s|]; [|discriminate].
    destruct (s =? ""); [discriminate|]. exists s. split; [reflexivity|].
    intros t Ht. rewrite Ht in *.
    destruct (t <=? now)%Z eqn:El; [discriminate|]. now apply Z.leb_gt in El.
  - destruct (available_seats data) as [s|]; [|discriminate].
    destruct (s =? ""); [discriminate|]. cbn [JS.parseInt_opt].
    destruct (JS.parseInt s) as [n|]; [|discriminate].
    destruct (n <? 1)%Z eqn:E1; [discriminate|].
    destruct (7 <? n)%Z eqn:E2; [discriminate|].
    apply Z.ltb_ge in E1, E2. exists n. split; [reflexivity | lia].
  - intros p v Hp Hne Hv. rewrite Hp in H.
    apply String.eqb_neq in Hne. rewrite Hne, Hv in H.
    destruct (Qle_bool 0 v); [reflexivity | discriminate].
Qed.

Lemma blank_false v : blank v = false -> exists s, v = Some s /\ JS.trim s <> "".
Proof.
  destruct v as [s|]; cbn; [|discriminate].
  intros H. apply String.eqb_neq in H. eauto.
Qed.

(** The two ends of a creation request. *)
Lemma creation_effect env f now req d :
  snd (POST_trips_create Date_parse parseFloat env f now req d) = d \/
  exists driver t,
    user req = Some driver /\
    snd (POST_trips_create Date_parse parseFloat env f now req d)
      = {| Store.profiles := Store.profiles d;
           Store.trips := (Store.trips d ++ [t])%list;
           Store.bookings := Store.bookings d |} /\
    Store.trips_by_id d (new_id f) = [] /\
    Store.id t = new_id f /\
    Store.driver_id t = driver /\
    (1 <= Store.available_seats t <= 7)%Z /\
    (now < Store.departure_timestamp t)%Z /\
    Store.origin_text t <> "" /\
    Store.destination_text t <> "" /\
    match Store.price t with
    | Some p => Qle_bool 0 p = true
    | None => True
    end /\
    fst (POST_trips_create Date_parse parseFloat env f now req d)
      = handleFormResponse req
          [("success", ("Trip created successfully! Your trip from "
                          ++ Store.origin_text t ++ " to "
                          ++ Store.destination_text t ++ " has been created.")%string)]
          true "Trip created successfully!" "/trips".
Proof.
  unfold POST_trips_create.
  destruct (user req) as [driver|]; [|left; reflexivity].
  destruct (validateTripData Date_parse parseFloat now (body req)) eqn:Hv;
    [|left; reflexivity].
  apply accepted_form in Hv.
  destruct Hv as (Ho & Hd & (sd & Hsd & Hdep) & (n & Hn & Hrange) & Hprice).
  apply blank_false in Ho, Hd.
  destruct Ho as (o & Ho & Hot), Hd as (dst & Hd & Hdt).
  unfold createTripData. rewrite Ho, Hd, Hsd. cbn [option_map].
  destruct (Date_parse sd) as [t0|] eqn:Hp; [|left; reflexivity].
  specialize (Hdep t0 eq_refl).
  unfold insertTrip.
  destruct (negb (JS.truthy (SUPABASE_URL env))).
  { cbn [Store.error Store.failed Store.code].
    repeat match goal with
           | |- context [if ?b then _ else _] => destruct b
           end; left; reflexivity. }
  destruct (negb (JS.truthy _)).
  { cbn [Store.error Store.failed Store.code].
    repeat match goal with
           | |- context [if ?b then _ else _] => destruct b
           end; left; reflexivity. }
  destruct (on_insert f) as [e|].
  { cbn [Store.error Store.failed].
    repeat match goal with
           | |- context [if ?b then _ else _] => destruct b
           end; left; reflexivity. }
  unfold insert_trip. cbn [td_available_seats]. rewrite Hn.
  destruct (Store.trips_by_id d (new_id f)) eqn:Hfresh.
  2:{ cbn [Store.error Store.failed Store.code Store.duplicate_key].
      repeat match goal with
             | |- context [if ?b then _ else _] => destruct b
             end; left; reflexivity. }
  cbn [Store.error Store.data Store.ok fst snd].
  right. eexists driver, _. split; [reflexivity|]. split; [reflexivity|].
  cbn [Store.id Store.driver_id Store.available_seats Store.departure_timestamp
       Store.origin_text Store.destination_text Store.price
       td_driver_id td_origin_text td_destination_text td_departure_timestamp
       td_price].
  repeat (split; [first [reflexivity | assumption | lia]|]).
  split; [|reflexivity].
  destruct (price (body req)) as [p|] eqn:Epr; [|exact I].
  destruct (p =? "") eqn:Ee; [exact I|].
  destruct (parseFloat p) as [v|] eqn:Ev; [|exact I].
  apply String.eqb_neq in Ee. eapply Hprice; eauto.
Qed.

(** X7. A creation request leaves the store as it is, or it appends exactly
    one trip and answers with success; the trip it appends has the caller
    as its driver, the key the store generated, from 1 to 7 seats, a
    departure after the instant of the request, non-empty trimmed origin
    and destination, and no price or a price of at least 0.  Profiles,
    bookings and the trips already stored are never touched. *)
Theorem creation_stores_valid_trip env f now req d :
  (snd (POST_trips_create Date_parse parseFloat env f now req d) = d \/
     exists driver t,
       user req = Some driver /\
       snd (POST_trips_create Date_parse parseFloat env f now req d)
         = {| Store.profiles := Store.profiles d;
              Store.trips := (Store.trips d ++ [t])%list;
              Store.bookings := Store.bookings d |} /\
       Store.trips_by_id d (new_id f) = [] /\
       Store.id t = new_id f /\
       Store.driver_id t = driver /\
       (1 <= Store.available_seats t <= 7)%Z /\
       (now < Store.departure_timestamp t)%Z /\
       Store.origin_text t <> "" /\
       Store.destination_text t <> "" /\
       match Store.price t with
       | Some p => Qle_bool 0 p = true
       | None => True
       end /\
       fst (POST_trips_create Date_parse parseFloat env f now req d)
         = handleFormResponse req
             [("success", ("Trip created successfully! Your trip from "
                             ++ Store.origin_text t ++ " to "
                             ++ Store.destination_text t ++ " has been created.")%string)]
             true "Trip created successfully!" "/trips") /\
  Store.profiles (snd (POST_trips_create Date_parse parseFloat env f now req d))
    = Store.profiles d /\
  Store.bookings (snd (POST_trips_create Date_parse parseFloat env f now req d))
    = Store.bookings d /\
  exists added,
    Store.trips (snd (POST_trips_create Date_parse parseFloat env f now req d))
      = (Store.trips d ++ added)%list /\ (List.length added <= 1)%nat.
Proof.
  pose proof (creation_effect env f now req d) as H.
  split; [exact H|].
  destruct H as [-> | (driver & t & _ & -> & _)]; cbn [Store.profiles Store.bookings Store.trips].
  - repeat split. exists []. rewrite app_nil_r. split; [reflexivity | cbn; lia].
  - repeat split. exists [t]. split; [reflexivity | cbn; lia].
Qed.


End Externals.

End TripCreationInvariants.

(** ** Attempts and retries of [fetchWithTimeout] *)

Module FetchFacts.

Import Config Api Invariants.
Local Open Scope string_scope.

Lemma fetchWithTimeout_step net i retries :
  fetchWithTimeout net i retries =
    match thrown_by (net i) with
    | None => match net i with
              | Responded r => inl r
              | NetworkError e => inr e
              end
    | Some e =>
        match retries with
        | S k => if isRetryableError e then fetchWithTimeout net (S i) k else inr e
        | O => inr e
        end
    end.
Proof.
  destruct retries; cbn [fetchWithTimeout];
    destruct (net i) as [e|r]; cbn [thrown_by]; try reflexivity;
    destruct (ok r); reflexivity.
Qed.

(** X8. [fetchWithTimeout] makes at most [retries + 1] attempts and retries
    only after a retryable error: its result is the response of the first
    attempt that succeeds, all earlier ones having failed with retryable
    errors, or the error of the first attempt that fails with an error
    that is not retryable, or of the last attempt allowed. *)
Theorem fetchWithTimeout_attempts net i retries :
  exists k,
    (k <= retries)%nat /\
    (forall j, (j < k)%nat ->
               exists e, thrown_by (net (i + j)%nat) = Some e /\
                         isRetryableError e = true) /\
    match fetchWithTimeout net i retries with
    | inl r => net (i + k)%nat = Responded r /\ ok r = true
    | inr e => thrown_by (net (i + k)%nat) = Some e /\
               (k = retries \/ isRetryableError e = false)
    end.
Proof.
  revert i. induction retries as [|n IH]; intros i;
    rewrite fetchWithTimeout_step.
  - exists 0%nat. rewrite Nat.add_0_r. split; [lia|]. split; [intros j Hj; lia|].
    destruct (net i) as [e|r]; cbn [thrown_by]; [auto|].
    destruct (ok r) eqn:Hok; auto.
  - destruct (thrown_by (net i)) as [e|] eqn:Ht.
    + destruct (isRetryableError e) eqn:Hr.
      * destruct (IH (S i)) as (k & Hk & Hpre & Hres).
        exists (S k). split; [lia|]. split.
        -- intros [|j] Hj.
           ++ rewrite Nat.add_0_r. eauto.
           ++ rewrite Nat.add_succ_r. apply Hpre. lia.
        -- rewrite Nat.add_succ_r.
           destruct (fetchWithTimeout net (S i) n); cbn [Nat.add] in Hres.
           ++ exact Hres.
           ++ destruct Hres as [H1 H2]. split; [exact H1|].
              destruct H2 as [H2|H2]; [left; lia | right; exact H2].
      * exists 0%nat. rewrite Nat.add_0_r. split; [lia|].
        split; [intros j Hj; lia | auto].
    + exists 0%nat. rewrite Nat.add_0_r. split; [lia|]. split; [intros j Hj; lia|].
      destruct (net i) as [e|r]; cbn [thrown_by] in Ht; [discriminate|].
      destruct (ok r) eqn:Hok; [auto | discriminate].
Qed.

Lemma five_hundreds :
  forallb (fun k => prefix "5" (show_Z (500 + Z.of_nat k))) (seq 0 100) = true.
Proof. vm_compute. reflexivity. Qed.

Lemma show_5xx status :
  (500 <= status <= 599)%Z -> exists rest, show_Z status = String "5" rest.
Proof.
  intros H. pose proof five_hundreds as F. rewrite forallb_forall in F.
  specialize (F (Z.to_nat (status - 500))).
  replace (500 + Z.of_nat (Z.to_nat (status - 500)))%Z with status in F by lia.
  assert (Hin : In (Z.to_nat (status - 500)) (seq 0 100)) by (apply in_seq; lia).
  specialize (F Hin).
  destruct (show_Z status) as [|c rest]; cbn [prefix] in F; [discriminate|].
  destruct (ascii_dec "5" c) as [<-|]; [eauto | discriminate].
Qed.

Lemma includes_prefix p s : JS.includes p (p ++ s) = true.
Proof.
  assert (H : prefix p (p ++ s) = true).
  { induction p as [|c p IH]; cbn; [now destruct s|].
    destruct (ascii_dec c c); [assumption | contradiction]. }
  destruct (p ++ s); cbn [JS.includes]; rewrite H; reflexivity.
Qed.

(** X9. A response with a status from 500 to 599 is a retryable failure: while
    retries are left, [fetchWithTimeout] goes on to the next attempt. *)
Theorem server_errors_are_retried net i k r :
  net i = Responded r ->
  ok r = false ->
  (500 <= status r <= 599)%Z ->
  isRetryableError (Error ("HTTP " ++ show_Z (status r) ++ ": " ++ statusText r)) = true /\
  fetchWithTimeout net i (S k) = fetchWithTimeout net (S i) k.
Proof.
  intros Hn Hok Hs.
  assert (Hr : isRetryableError
                 (Error ("HTTP " ++ show_Z (status r) ++ ": " ++ statusText r)) = true).
  { unfold isRetryableError. destruct (existsb _ retryableErrors); [reflexivity|].
    cbn [message Error].
    destruct (show_5xx Hs) as (rest & ->).
    change ("HTTP " ++ String "5" rest ++ ": " ++ statusText r)
      with ("HTTP 5" ++ (rest ++ ": " ++ statusText r)).
    now rewrite includes_prefix. }
  split; [exact Hr|].
  rewrite fetchWithTimeout_step. rewrite Hn. cbn [thrown_by]. rewrite Hok, Hr.
  reflexivity.
Qed.

Lemma server_errors_are_retried_witness :
  isRetryableError (Error "HTTP 503: Service Unavailable") = true /\
  fetchWithTimeout (Examples.provider_says 503 "Service Unavailable") 0 2
    = fetchWithTimeout (Examples.provider_says 503 "Service Unavailable") 1 1.
Proof.
  apply (@server_errors_are_retried
           (Examples.provider_says 503 "Service Unavailable") 0 1
           {| ok := false; status := 503; statusText := "Service Unavailable";
              body := None |} eq_refl eq_refl).
  cbn. lia.
Defined.

End FetchFacts.

(** ** Range of the fallback distance; refusals of POST /api/route *)

Module FallbackFacts.

Import Config Api RoutingFacts.
Import Reals Lra.
Local Open Scope R_scope.

Lemma atan_nonneg x : 0 <= x -> 0 <= atan x.
Proof.
  intros [H | <-]; [|rewrite atan_0; lra].
  pose proof (atan_increasing _ _ H) as Hi. rewrite atan_0 in Hi. lra.
Qed.

Lemma atan2_quadrant y x : 0 <= y -> 0 <= x -> 0 <= atan2 y x <= PI / 2.
Proof.
  intros Hy Hx. pose proof PI_RGT_0 as Hpi. unfold atan2.
  destruct (Rlt_dec 0 x) as [Hp|Hp].
  - pose proof (atan_bound (y / x)) as [_ Hu].
    split; [|lra]. apply atan_nonneg.
    apply Rmult_le_pos; [assumption|]. left. now apply Rinv_0_lt_compat.
  - destruct (Rlt_dec x 0); [lra|].
    destruct (Rlt_dec 0 y); [lra|].
    destruct (Rlt_dec y 0); lra.
Qed.

Lemma getSimpleRoute_nan lat1 lng1 lat2 lng2 :
  ~ 0 <= simple_a lat1 lng1 lat2 lng2 <= 1 ->
  distance (getSimpleRoute (pt lat1 lng1) (pt lat2 lng2)) = None /\
  duration (getSimpleRoute (pt lat1 lng1) (pt lat2 lng2)) = None.
Proof.
  intros Ha. unfold getSimpleRoute, pt. cbn [lat lng distance duration].
  unfold Math_sin, Math_cos, Math_PI, lit, Math_atan2.
  cbn [lift1 lift2 option_map].
  fold (simple_a lat1 lng1 lat2 lng2).
  destruct (Rlt_dec (simple_a lat1 lng1 lat2 lng2) 0) as [Hn|Hn].
  - rewrite (Math_sqrt_neg Hn). split; reflexivity.
  - rewrite Math_sqrt_nonneg by lra.
    rewrite Math_sqrt_neg by lra. split; reflexivity.
Qed.

(** X10. The straight-line fallback never returns a negative distance or one
    beyond half the circumference of the Earth: for finite coordinates the
    distance is not a number, together with the duration, or it lies
    between 0 and 6371 * PI kilometres, in meters, and the duration is the
    time it takes at 50 km/h, in seconds. *)
Theorem fallback_distance_range lat1 lng1 lat2 lng2 :
  match distance (getSimpleRoute (pt lat1 lng1) (pt lat2 lng2)),
        duration (getSimpleRoute (pt lat1 lng1) (pt lat2 lng2)) with
  | Some m, Some s =>
      0 <= m <= EARTH_RADIUS * PI * 1000 /\ s = m / 1000 / AVG_KMH * 3600
  | None, None => True
  | _, _ => False
  end.
Proof.
  destruct (Rle_dec 0 (simple_a lat1 lng1 lat2 lng2)) as [H0|H0];
    [destruct (Rle_dec (simple_a lat1 lng1 lat2 lng2) 1) as [H1|H1]|].
  - rewrite getSimpleRoute_finite by lra. cbn [distance duration].
    unfold simple_km.
    pose proof (@atan2_quadrant (sqrt (simple_a lat1 lng1 lat2 lng2))
                  (sqrt (1 - simple_a lat1 lng1 lat2 lng2))
                  (sqrt_pos _) (sqrt_pos _)) as [Hl Hu].
    set (c := atan2 _ _) in *. unfold EARTH_RADIUS, AVG_KMH.
    pose proof PI_RGT_0. repeat split; [nra | nra | field].
  - destruct (@getSimpleRoute_nan lat1 lng1 lat2 lng2) as [-> ->]; [lra | exact I].
  - destruct (@getSimpleRoute_nan lat1 lng1 lat2 lng2) as [-> ->]; [lra | exact I].
Qed.

Lemma num_truthy_spec c :
  num_truthy c = false <-> c = None \/ c = Some 0.
Proof.
  unfold num_truthy. destruct c as [x|]; [|intuition].
  destruct (Req_dec_T x 0) as [->|Hx]; split; auto.
  - discriminate.
  - intros [H|H]; [discriminate | inversion H; contradiction].
Qed.

(** X12. POST /api/route refuses a body exactly when a point is missing or one
    of the four coordinates is missing, not a number or 0; so a point on
    the equator or on the prime meridian is refused. *)
Theorem route_request_refused env net b :
  (exists e, POST_api_route env net b = RouteBadRequest e) <->
  (origin b = None \/ destination b = None \/
   exists o d, origin b = Some o /\ destination b = Some d /\
               Exists (fun c => c = None \/ c = Some 0)
                      [lat o; lng o; lat d; lng d]).
Proof.
  unfold POST_api_route.
  destruct (origin b) as [o|]; [|split; [auto | eauto]].
  destruct (destination b) as [d|]; [|split; [auto | eauto]].
  rewrite getRoute_run.
  destruct (num_truthy (lat o)) eqn:E1, (num_truthy (lng o)) eqn:E2,
           (num_truthy (lat d)) eqn:E3, (num_truthy (lng d)) eqn:E4;
    cbn [negb orb].
  all: try (split; [intros _; right; right; exists o, d;
                    split; [reflexivity|]; split; [reflexivity|];
                    repeat first
                      [ apply Exists_cons_hd; apply num_truthy_spec; assumption
                      | apply Exists_cons_tl ]
                   | eauto ]; fail).
  split.
  - intros [e He]. discriminate.
  - intros [H | [H | (o' & d' & [= <-] & [= <-] & H)]]; try discriminate.
    repeat match goal with
           | H : Exists _ (_ :: _) |- _ => apply Exists_cons in H; destruct H as [H|H]
           | H : Exists _ [] |- _ => inversion H
           | H : _ = None \/ _ = Some 0 |- _ => apply num_truthy_spec in H; congruence
           end.
Qed.

End FallbackFacts.

(** ** The trip page: identifiers, answers, and the booking it offers *)

Module DetailFacts.

Import Store Handler Config Booking BookingFacts Regex RegexFacts Detail.
Local Open Scope string_scope.
Local Open Scope list_scope.

Lemma lang_hexes n s :
  lang (hexes n) s <-> List.length s = n /\ forallb hex_char s = true.
Proof. apply lang_repeat_class. Qed.

Lemma lang_hyphen s : lang hyphen s <-> s = ["-"%char].
Proof. apply lang_char. Qed.

(** The groups of an accepted identifier. *)
Lemma uuid_groups tripId :
  validateTripId tripId = ValidId <->
  exists g1 g2 v g3 w g4 g5,
    list_ascii_of_string tripId
      = g1 ++ "-"%char :: g2 ++ "-"%char :: v :: g3 ++ "-"%char :: w :: g4
           ++ "-"%char :: g5 /\
    List.length g1 = 8%nat /\ List.length g2 = 4%nat /\ List.length g3 = 3%nat /\
    List.length g4 = 3%nat /\ List.length g5 = 12%nat /\
    forallb hex_char (g1 ++ g2 ++ g3 ++ g4 ++ g5) = true /\
    version_char v = true /\ variant_char w = true.
Proof.
  unfold validateTripId.
  assert (Hshape :
            test uuidRegex tripId = true <->
            exists g1 g2 v g3 w g4 g5,
              list_ascii_of_string tripId
                = g1 ++ "-"%char :: g2 ++ "-"%char :: v :: g3 ++ "-"%char :: w :: g4
                     ++ "-"%char :: g5 /\
              List.length g1 = 8%nat /\ List.length g2 = 4%nat /\
              List.length g3 = 3%nat /\
              List.length g4 = 3%nat /\ List.length g5 = 12%nat /\
              forallb hex_char (g1 ++ g2 ++ g3 ++ g4 ++ g5) = true /\
              version_char v = true /\ variant_char w = true).
  { rewrite test_lang. unfold uuidRegex. split.
    - intros H.
      apply lang_seq_inv in H. destruct H as (g1 & r1 & E & H1 & H).
      apply lang_seq_inv in H. destruct H as (h1 & r2 & -> & Hh1 & H).
      apply lang_seq_inv in H. destruct H as (g2 & r3 & -> & H2 & H).
      apply lang_seq_inv in H. destruct H as (h2 & r4 & -> & Hh2 & H).
      apply lang_seq_inv in H. destruct H as (v' & r5 & -> & Hv & H).
      apply lang_seq_inv in H. destruct H as (g3 & r6 & -> & H3 & H).
      apply lang_seq_inv in H. destruct H as (h3 & r7 & -> & Hh3 & H).
      apply lang_seq_inv in H. destruct H as (w' & r8 & -> & Hw & H).
      apply lang_seq_inv in H. destruct H as (g4 & r9 & -> & H4 & H).
      apply lang_seq_inv in H. destruct H as (h4 & g5 & -> & Hh4 & H5).
      apply lang_hyphen in Hh1, Hh2, Hh3, Hh4. subst h1 h2 h3 h4.
      apply lang_class_inv in Hv, Hw.
      destruct Hv as (v & -> & Hv), Hw as (w & -> & Hw).
      apply lang_hexes in H1, H2, H3, H4, H5.
      destruct H1 as [L1 F1], H2 as [L2 F2], H3 as [L3 F3], H4 as [L4 F4],
               H5 as [L5 F5].
      exists g1, g2, v, g3, w, g4, g5. cbn [app] in E.
      repeat (split; [assumption|]). split; [|auto].
      rewrite !forallb_app, F1, F2, F3, F4, F5. reflexivity.
    - intros (g1 & g2 & v & g3 & w & g4 & g5 & E & L1 & L2 & L3 & L4 & L5 & F & Hv & Hw).
      rewrite !forallb_app, !andb_true_iff in F.
      destruct F as (F1 & F2 & F3 & F4 & F5). rewrite E.
      repeat match goal with
             | |- lang (Seq _ _) (?a ++ ?b) =>
                 apply lang_seq; [|]
             | |- lang (Seq hyphen _) ("-"%char :: ?b) =>
                 apply (@lang_seq hyphen _ ["-"%char] b); [now apply lang_hyphen|]
             | |- lang (Seq (Class _) _) (?c :: ?b) =>
                 apply (@lang_seq (Class _) _ [c] b); [now constructor|]
             | |- lang (hexes _) _ => apply lang_hexes; split; assumption
             end. }
  destruct (tripId =? "") eqn:Ee.
  - apply String.eqb_eq in Ee. subst tripId. split; [discriminate|].
    intros (g1 & g2 & v & g3 & w & g4 & g5 & E & _). destruct g1; discriminate.
  - destruct (test uuidRegex tripId) eqn:Et; cbn [negb].
    + split; [intros _; now apply Hshape | reflexivity].
    + split; [discriminate|]. intros H. apply Hshape in H. discriminate.
Qed.

(** X17. [validateTripId] accepts exactly the identifiers of the form
    [h8-h4-Vh3-Wh3-h12]: groups of 8, 4, 4, 4 and 12 hexadecimal digits
    of either case, joined by hyphens, the third group starting with a
    version digit from 1 to 5 and the fourth with one of [8 9 a b A B];
    so an accepted identifier has 36 characters. *)
Theorem validateTripId_shape tripId :
  (validateTripId tripId = ValidId <->
   exists g1 g2 v g3 w g4 g5,
     list_ascii_of_string tripId
       = g1 ++ "-"%char :: g2 ++ "-"%char :: v :: g3 ++ "-"%char :: w :: g4
            ++ "-"%char :: g5 /\
     List.length g1 = 8%nat /\ List.length g2 = 4%nat /\ List.length g3 = 3%nat /\
     List.length g4 = 3%nat /\ List.length g5 = 12%nat /\
     forallb hex_char (g1 ++ g2 ++ g3 ++ g4 ++ g5) = true /\
     version_char v = true /\ variant_char w = true) /\
  (validateTripId tripId = ValidId -> String.length tripId = 36%nat).
Proof.
  split; [apply uuid_groups|].
  intros H. apply uuid_groups in H.
  destruct H as (g1 & g2 & v & g3 & w & g4 & g5 & E & L1 & L2 & L3 & L4 & L5 & _).
  assert (Hl : String.length tripId = List.length (list_ascii_of_string tripId)).
  { clear. induction tripId; cbn; congruence. }
  rewrite Hl, E.
  repeat (rewrite length_app || cbn [List.length]). lia.
Qed.

(** *** The route *)

Lemma single_some {A} (rows : list A) r :
  data (single rows) = Some r -> error (single rows) = None /\ rows = [r].
Proof.
  destruct rows as [|x [|y l]]; cbn; try discriminate.
  intros [= ->]. auto.
Qed.

Lemma single_error {A} (rows : list A) :
  error (single rows) = None -> exists r, rows = [r] /\ data (single rows) = Some r.
Proof.
  destruct rows as [|x [|y l]]; cbn; try discriminate. eauto.
Qed.

Lemma fetchTripById_answers env f d tid :
  (exists e, error (fetchTripById env f d tid) = Some e /\
             data (fetchTripById env f d tid) = None) \/
  (exists t, error (fetchTripById env f d tid) = None /\
             data (fetchTripById env f d tid) = Some t /\
             trips_by_id d tid = [t] /\ on_trip_fetch f = None /\
             JS.truthy (SUPABASE_URL env) = true /\
             JS.truthy (SUPABASE_SERVICE_ROLE_KEY env) = true).
Proof.
  unfold fetchTripById.
  destruct (JS.truthy (SUPABASE_URL env)); cbn [negb];
    [|left; eexists; split; reflexivity].
  destruct (JS.truthy (SUPABASE_SERVICE_ROLE_KEY env)); cbn [negb];
    [|left; eexists; split; reflexivity].
  destruct (on_trip_fetch f); [left; eexists; split; reflexivity|].
  destruct (trips_by_id d tid) as [|x [|y l]]; cbn [single data error ok failed].
  - left; eexists; split; reflexivity.
  - right. exists x. auto 10.
  - left; eexists; split; reflexivity.
Qed.

(** X18. GET /trips/:id never answers 404: an identifier that is well formed
    but names no trip of the store is answered 500, with the message of
    a failed load, because the query for a single row answers with an
    error when no row matches. *)
Theorem unknown_trip_is_a_server_error env f now req d :
  (forall e details, GET_trips_id env f now req d <> DetailError 404 e details) /\
  (validateTripId (params_id req) = ValidId ->
   trips_by_id d (params_id req) = [] ->
   exists details,
     GET_trips_id env f now req d
       = DetailError 500 "Failed to load trip details. Please try again later."
                     details).
Proof.
  unfold GET_trips_id. cbv zeta. split.
  - intros e details.
    destruct (validateTripId (params_id req)); [|discriminate].
    destruct (fetchTripById_answers env f d (params_id req))
      as [(e' & He & _) | (t & He & Hd & _)]; rewrite He; [discriminate|].
    rewrite Hd.
    destruct (fetchDriverProfile env f d (driver_id t)); discriminate.
  - intros Hv Hn. rewrite Hv.
    destruct (fetchTripById_answers env f d (params_id req))
      as [(e' & He & _) | (t & _ & _ & Ht & _)]; [rewrite He; eauto | congruence].
Qed.

Lemma unknown_trip_is_a_server_error_witness :
  exists details,
    GET_trips_id Examples.env
                 {| on_trip_fetch := None; on_driver_fetch := None |} 1000
                 {| user := None;
                    params_id := "3f2b8c1e-7a4d-4e2b-9c1f-0a1b2c3d4e5f";
                    originalUrl := "/trips/3f2b8c1e-7a4d-4e2b-9c1f-0a1b2c3d4e5f" |}
                 (Examples.store_with 3 [])
      = DetailError 500 "Failed to load trip details. Please try again later."
                    details.
Proof.
  apply (proj2 (unknown_trip_is_a_server_error Examples.env
                  {| on_trip_fetch := None; on_driver_fetch := None |} 1000
                  {| user := None;
                     params_id := "3f2b8c1e-7a4d-4e2b-9c1f-0a1b2c3d4e5f";
                     originalUrl := "/trips/3f2b8c1e-7a4d-4e2b-9c1f-0a1b2c3d4e5f" |}
                  (Examples.store_with 3 [])));
    reflexivity.
Defined.

Lemma detail_shown env f now req d t :
  validateTripId (params_id req) = ValidId ->
  JS.truthy (SUPABASE_URL env) = true ->
  JS.truthy (SUPABASE_SERVICE_ROLE_KEY env) = true ->
  JS.truthy (SUPABASE_ANON_KEY env) = true ->
  on_trip_fetch f = None ->
  trips_by_id d (params_id req) = [t] ->
  exists card,
    GET_trips_id env f now req d
    = DetailShown
        {| page_trip := t; page_driver := card;
           isPastTrip := (departure_timestamp t <? now)%Z;
           canBook := match user req with
                      | Some u => negb (user_id u =? driver_id t)
                                  && (now <? departure_timestamp t)%Z
                      | None => false
                      end |}.
Proof.
  intros Hv Hu Hk Ha Hf Ht. unfold GET_trips_id, fetchTripById, fetchDriverProfile.
  rewrite Hv, Hu, Hk, Ha, Hf, Ht. cbn [negb single ok data error].
  destruct (driver_id t =? ""); [eauto|].
  destruct (on_driver_fetch f); [eauto|].
  destruct (data (single (profiles_by_id d (driver_id t)))); eauto.
Qed.

Lemma client_configured_of env :
  JS.truthy (SUPABASE_URL env) = true ->
  JS.truthy (SUPABASE_SERVICE_ROLE_KEY env) = true ->
  client_configured env = true.
Proof.
  intros Hu Hk. unfold client_configured, or_key. now rewrite Hu, Hk, Hk.
Qed.

(** X19. The detail page does not look at the bookings: to a signed-in caller
    who is not the driver and already holds a booking for a trip that has
    not left, the page says that the trip can be booked, and the booking
    request of that caller is answered [already_booked]. *)
Theorem booked_trip_is_offered env fd fb now req d u t :
  validateTripId (params_id req) = ValidId ->
  JS.truthy (SUPABASE_URL env) = true ->
  JS.truthy (SUPABASE_SERVICE_ROLE_KEY env) = true ->
  JS.truthy (SUPABASE_ANON_KEY env) = true ->
  on_trip_fetch fd = None ->
  on_trip_query fb = None ->
  on_booking_check fb = None ->
  profile_step_passes fb u d = true ->
  user req = Some u ->
  trips_by_id d (params_id req) = [t] ->
  user_id u <> driver_id t ->
  (now < departure_timestamp t)%Z ->
  seats_positive d ->
  bookings_of d (params_id req) (user_id u) <> [] ->
  (exists page, GET_trips_id env fd now req d = DetailShown page /\
                canBook page = true) /\
  fst (POST_trips_book env fb now req (start d))
    = RedirectTrip (params_id req) "already_booked" None.
Proof.
  intros Hv Hu Hk Ha Hf Hq Hck Hp Hreq Ht Hd Hdep Hpos Hheld. split.
  - destruct (@detail_shown env fd now req d t Hv Hu Hk Ha Hf Ht) as (card & ->).
    eexists. split; [reflexivity|]. cbn [canBook]. rewrite Hreq.
    apply String.eqb_neq in Hd. rewrite Hd. cbn [negb andb]. now apply Z.ltb_lt.
  - pose proof (@client_configured_of env Hu Hk) as Hc.
    assert (Hs : (0 < available_seats t)%Z)
      by (apply Hpos; now apply (found_in_store _ _ Ht)).
    pose proof (POST_trips_book_run env fb now req (start d)) as H.
    destruct (POST_trips_book env fb now req (start d)) as [r s'].
    cbn [fst snd start db] in *.
    destruct H as [[C R] | (u0 & t0 & s0 & o & He & _)].
    + destruct R; same_request; try congruence; try lia.
      rewrite Hq, Ht in *. contradiction.
    + destruct He as (Hu0 & _ & _ & _ & _ & _ & _ & Hb0). same_request.
      elim Hheld. now apply Hb0.
Qed.

Lemma booked_trip_is_offered_witness :
  (exists page,
      GET_trips_id Examples.env Samples.detail_answers 1000 Samples.ann_asks
                   Samples.booked_store = DetailShown page /\
      canBook page = true) /\
  fst (POST_trips_book Examples.env no_faults 1000 Samples.ann_asks
                       (start Samples.booked_store))
    = RedirectTrip Samples.trip_key "already_booked" None.
Proof.
  apply (@booked_trip_is_offered Examples.env Samples.detail_answers no_faults 1000
           Samples.ann_asks Samples.booked_store
           (Examples.as_user Examples.ann) (Samples.keyed_trip 3 2000));
    first [reflexivity | cbn; discriminate | cbn; lia | idtac].
  intros t [<-|[]]. cbn. lia.
Defined.

(** X20. The booking handler does not look at the departure time: for a trip
    that has already left the detail page says that it is past and cannot
    be booked, and the booking request of an eligible caller is confirmed
    all the same. *)
Theorem departed_trip_can_be_booked env fd fb now req d u t :
  validateTripId (params_id req) = ValidId ->
  JS.truthy (SUPABASE_URL env) = true ->
  JS.truthy (SUPABASE_SERVICE_ROLE_KEY env) = true ->
  JS.truthy (SUPABASE_ANON_KEY env) = true ->
  on_trip_fetch fd = None ->
  eligible env fb req d u t ->
  on_booking_insert fb = None ->
  booking_rows_hidden fb = false ->
  bookings_of d (params_id req) (user_id u) = [] ->
  (departure_timestamp t < now)%Z ->
  (exists page, GET_trips_id env fd now req d = DetailShown page /\
                isPastTrip page = true /\ canBook page = false) /\
  exists v bid,
    fst (POST_trips_book env fb now req (start d)) = RenderBooking t v bid.
Proof.
  intros Hv Hu Hk Ha Hf He Hi Hh Hn Hdep. split.
  - pose proof He as (Hreq & _ & _ & _ & Ht & _).
    destruct (@detail_shown env fd now req d t Hv Hu Hk Ha Hf Ht) as (card & ->).
    eexists. split; [reflexivity|]. cbn [isPastTrip canBook]. rewrite Hreq.
    split; [now apply Z.ltb_lt|].
    replace (now <? departure_timestamp t)%Z with false
      by (symmetry; apply Z.ltb_ge; lia).
    apply andb_false_r.
  - pose proof (POST_trips_book_run env fb now req (start d)) as H.
    destruct (POST_trips_book env fb now req (start d)) as [r s'].
    cbn [fst snd start db] in *.
    destruct H as [[C R] | (u0 & t0 & s0 & o & He0 & C & F & ->)].
    + elim (eligible_not_rejected He R).
    + assert (u0 = u /\ t0 = t) as [-> ->].
      { destruct He as (Hx & _ & _ & _ & Ht & _), He0 as (Hx0 & _ & _ & _ & Ht' & _).
        split; congruence. }
      destruct (finish_booking_run fb now (user_id u) (params_id req) t s0)
        as (o' & s1 & E & H).
      rewrite E in F. inversion F; subst o' s1. clear F.
      rewrite (bookings_of_calm _ _ C) in H. cbn [start db] in H.
      destruct o as [r|r|m]; [| |contradiction].
      * destruct H as (_ & _ & _ & (v & ->) & _). cbn [sent]. eauto.
      * destruct H as (_ & _ & _ & [Hx | [Hx | Hx]]); congruence.
Qed.

Lemma departed_trip_can_be_booked_witness :
  (exists page,
      GET_trips_id Examples.env Samples.detail_answers 3000 Samples.ann_asks
                   (Samples.keyed_store 2 2000) = DetailShown page /\
      isPastTrip page = true /\ canBook page = false) /\
  exists v bid,
    fst (POST_trips_book Examples.env no_faults 3000 Samples.ann_asks
                         (start (Samples.keyed_store 2 2000)))
      = RenderBooking (Samples.keyed_trip 2 2000) v bid.
Proof.
  apply (@departed_trip_can_be_booked Examples.env Samples.detail_answers no_faults
           3000 Samples.ann_asks (Samples.keyed_store 2 2000)
           (Examples.as_user Examples.ann) (Samples.keyed_trip 2 2000));
    try reflexivity.
  repeat split; try reflexivity; cbn; first [discriminate | lia].
Defined.

End DetailFacts.

(** ** From the creation of a trip to its page *)

Module Journeys.

Import Store Config TripCreationInvariants DetailFacts.
Local Open Scope string_scope.
Local Open Scope list_scope.

Section Externals.

Variable Date_parse : string -> option Z.
Variable parseFloat : string -> option QArith_base.Q.

(** X29. A trip that has just been created can be looked up: when a creation
    request has changed the store, the trip page of the generated key, at
    the same instant, shows the new trip with the caller as its driver,
    not as a past trip, and offers the booking to every signed-in viewer
    but the driver. *)
Theorem created_trip_is_shown env fi fd now req viewer d :
  snd (TripCreation.POST_trips_create Date_parse parseFloat env fi now req d) <> d ->
  Detail.validateTripId (TripCreation.new_id fi) = Detail.ValidId ->
  JS.truthy (SUPABASE_URL env) = true ->
  JS.truthy (SUPABASE_SERVICE_ROLE_KEY env) = true ->
  JS.truthy (SUPABASE_ANON_KEY env) = true ->
  Detail.on_trip_fetch fd = None ->
  Booking.params_id viewer = TripCreation.new_id fi ->
  exists driver t card,
    TripCreation.user req = Some driver /\
    driver_id t = driver /\
    trips_by_id (snd (TripCreation.POST_trips_create Date_parse parseFloat
                        env fi now req d))
                (TripCreation.new_id fi) = [t] /\
    Detail.GET_trips_id env fd now viewer
      (snd (TripCreation.POST_trips_create Date_parse parseFloat env fi now req d))
    = Detail.DetailShown
        {| Detail.page_trip := t;
           Detail.page_driver := card;
           Detail.isPastTrip := false;
           Detail.canBook :=
             match Booking.user viewer with
             | Some u => negb (Booking.user_id u =? driver)
             | None => false
             end |}.
Proof.
  intros Hchanged Hv Hu Hk Ha Hf Hid.
  destruct (creation_effect Date_parse parseFloat env fi now req d)
    as [H | (driver & t & Hreq & Hd' & Hfresh & Hkey & Hdrv & _ & Hdep & _)];
    [contradiction|].
  assert (Hfound : trips_by_id
                     (snd (TripCreation.POST_trips_create Date_parse parseFloat
                             env fi now req d))
                     (TripCreation.new_id fi) = [t]).
  { rewrite Hd'. unfold trips_by_id in *. cbn [trips]. rewrite filter_app, Hfresh.
    cbn [filter app]. rewrite Hkey, String.eqb_refl. reflexivity. }
  rewrite <- Hid in Hv, Hfound at 1.
  destruct (@detail_shown env fd now viewer _ t Hv Hu Hk Ha Hf Hfound) as (card & E).
  exists driver, t, card. rewrite Hid in Hfound.
  repeat (split; [assumption|]). rewrite E. f_equal.
  replace (departure_timestamp t <? now)%Z with false
    by (symmetry; apply Z.ltb_ge; lia).
  replace (now <? departure_timestamp t)%Z with true
    by (symmetry; apply Z.ltb_lt; lia).
  rewrite Hdrv. f_equal. destruct (Booking.user viewer); [apply andb_true_r | reflexivity].
Qed.

End Externals.

Lemma created_trip_is_shown_witness :
  exists driver t card,
    TripCreation.user (TripCreation.request_of
                         (TripCreation.form_leaving "2030-01-01T10:00"))
      = Some driver /\
    driver_id t = driver /\
    trips_by_id
      (snd (TripCreation.POST_trips_create
              TripCreation.Date_parse_minutes TripCreation.parseFloat_decimal
              Examples.env
              {| TripCreation.on_insert := None;
                 TripCreation.new_id := Samples.trip_key |}
              1000
              (TripCreation.request_of (TripCreation.form_leaving "2030-01-01T10:00"))
              (Examples.store_with 3 [])))
      Samples.trip_key = [t] /\
    Detail.GET_trips_id Examples.env Samples.detail_answers 1000 Samples.ann_asks
      (snd (TripCreation.POST_trips_create
              TripCreation.Date_parse_minutes TripCreation.parseFloat_decimal
              Examples.env
              {| TripCreation.on_insert := None;
                 TripCreation.new_id := Samples.trip_key |}
              1000
              (TripCreation.request_of (TripCreation.form_leaving "2030-01-01T10:00"))
              (Examples.store_with 3 [])))
    = Detail.DetailShown
        {| Detail.page_trip := t;
           Detail.page_driver := card;
           Detail.isPastTrip := false;
           Detail.canBook := negb ("ann" =? driver) |}.
Proof.
  apply (@created_trip_is_shown
           TripCreation.Date_parse_minutes TripCreation.parseFloat_decimal
           Examples.env
           {| TripCreation.on_insert := None; TripCreation.new_id := Samples.trip_key |}
           Samples.detail_answers 1000
           (TripCreation.request_of (TripCreation.form_leaving "2030-01-01T10:00"))
           Samples.ann_asks (Examples.store_with 3 []));
    try reflexivity.
  vm_compute. discriminate.
Defined.

End Journeys.

(** ** GET /health and the featured trips *)

Module HomeFacts.

Import Store Config Health Listing Invariants ListingOrder Home.
Local Open Scope string_scope.
Local Open Scope list_scope.

(** X21. GET /health answers 200 exactly when the wrapped store client could be
    built and the probe query was answered without an error; every other
    run answers 503 with the status [degraded], the database [unhealthy]
    and the message of the failure. *)
Theorem site_health_status env p now :
  (fst (GET_health env p now) = 200%Z <->
   JS.truthy (SUPABASE_URL env) = true /\
   JS.truthy (SUPABASE_ANON_KEY env) = true /\
   p = Answered None) /\
  (fst (GET_health env p now) = 200%Z /\
   site_status (snd (GET_health env p now)) = "healthy" /\
   database (snd (GET_health env p now)) = "healthy" /\
   database_error (snd (GET_health env p now)) = None
   \/
   fst (GET_health env p now) = 503%Z /\
   site_status (snd (GET_health env p now)) = "degraded" /\
   database (snd (GET_health env p now)) = "unhealthy" /\
   exists m, database_error (snd (GET_health env p now)) = Some m).
Proof.
  unfold GET_health, supabase_probe.
  destruct (JS.truthy (SUPABASE_URL env)), (JS.truthy (SUPABASE_ANON_KEY env));
    cbn [negb orb].
  1: destruct p as [[e|]|m].
  all: cbn [fst snd site_status database database_error String.eqb Ascii.eqb Bool.eqb].
  all: split;
    [ split; [intros H; try discriminate; auto
             | intros (H1 & H2 & H3); try discriminate; auto]
    | first [ left; repeat split; reflexivity
            | right; repeat split; eauto ] ].
Qed.

(** X22. The two health endpoints disagree on a store that answers the probe
    with an error: [checkApiHealth] only waits for the answer and reports
    the store [healthy], GET /health reads the error and answers 503 with
    the database [unhealthy]. *)
Theorem probe_error_is_read_by_one_endpoint env e net elapsed_db elapsed_ors now :
  JS.truthy (SUPABASE_URL env) = true ->
  JS.truthy (SUPABASE_ANON_KEY env) = true ->
  status (supabase (checkApiHealth env (Answered (Some e)) net
                                   elapsed_db elapsed_ors now)) = "healthy" /\
  fst (GET_health env (Answered (Some e)) now) = 503%Z /\
  database (snd (GET_health env (Answered (Some e)) now)) = "unhealthy" /\
  database_error (snd (GET_health env (Answered (Some e)) now))
    = Some (message e).
Proof.
  intros Hu Ha. unfold checkApiHealth, GET_health, supabase_probe.
  rewrite Hu, Ha. cbn. auto.
Qed.

Lemma probe_error_is_read_by_one_endpoint_witness :
  status (supabase (checkApiHealth Examples.env
                      (Answered (Some Examples.update_refused))
                      Examples.provider_down 12 0 "2026-01-01T00:00:00.000Z"))
    = "healthy" /\
  fst (GET_health Examples.env (Answered (Some Examples.update_refused))
                  "2026-01-01T00:00:00.000Z") = 503%Z /\
  database (snd (GET_health Examples.env (Answered (Some Examples.update_refused))
                            "2026-01-01T00:00:00.000Z")) = "unhealthy" /\
  database_error (snd (GET_health Examples.env
                         (Answered (Some Examples.update_refused))
                         "2026-01-01T00:00:00.000Z"))
    = Some "new row for relation violates check constraint".
Proof.
  exact (@probe_error_is_read_by_one_endpoint Examples.env Examples.update_refused
           Examples.provider_down 12 0 "2026-01-01T00:00:00.000Z"
           eq_refl eq_refl).
Defined.

Lemma firstn_all_of {A} n (l : list A) : (List.length l <= n)%nat -> firstn n l = l.
Proof.
  revert l. induction n as [|n IH]; intros [|x l]; cbn [firstn List.length];
    try reflexivity; intros H; [lia|].
  f_equal. apply IH. lia.
Qed.

(** X23. The featured trips are trips of the store with at least one seat left,
    in ascending order of departure, at most 10 of them, each with the
    profile of its driver; the departure time is not a criterion, so when
    at most 10 trips have a seat left every one of them is featured, also
    one that has already left. *)
Theorem featured_trips env p d rows :
  fetchFeaturedTrips env p d = inl rows ->
  Forall (fun r => In (row r) (trips d) /\
                   (0 < available_seats (row r))%Z /\
                   driver r = hd_error (profiles_by_id d (driver_id (row r))))
         rows /\
  ascending (map row rows) /\
  (List.length rows <= 10)%nat /\
  ((List.length (filter (fun t => (0 <? available_seats t)%Z) (trips d)) <= 10)%nat ->
   forall t, In t (trips d) -> (0 < available_seats t)%Z -> In t (map row rows)).
Proof.
  unfold fetchFeaturedTrips.
  destruct (supabase_probe env p); [|discriminate].
  intros H.
  assert (E : rows = map (with_driver d)
                         (firstn (Z.to_nat TRIPS_LIMIT)
                                 (order_by_departure
                                    (filter (fun t => (0 <? available_seats t)%Z)
                                            (trips d))))).
  { destruct p as [[e|]|m]; [discriminate | |]; now inversion H. }
  clear H. subst rows. rewrite map_row_with_driver.
  split; [|split; [|split]].
  - rewrite Forall_forall. intros r Hr.
    apply in_map_iff in Hr. destruct Hr as (t & <- & Ht).
    cbn [with_driver row driver].
    apply firstn_In, order_by_departure_In, filter_In in Ht.
    destruct Ht as [Ht Hs]. apply Z.ltb_lt in Hs. auto.
  - apply firstn_ascending, order_by_departure_ascending.
  - rewrite length_map. apply firstn_le_length.
  - intros Hfew t Ht Hs.
    rewrite firstn_all_of.
    + apply order_by_departure_In, filter_In. split; [assumption|].
      now apply Z.ltb_lt.
    + rewrite ListingFacts.order_by_departure_length. exact Hfew.
Qed.

Lemma featured_trips_witness :
  let d := Examples.listing_store Examples.departed in
  let rows := map (with_driver d) Examples.departed in
  Forall (fun r => In (row r) (trips d) /\
                   (0 < available_seats (row r))%Z /\
                   driver r = hd_error (profiles_by_id d (driver_id (row r))))
         rows /\
  ascending (map row rows) /\
  (List.length rows <= 10)%nat /\
  ((List.length (filter (fun t => (0 <? available_seats t)%Z) (trips d)) <= 10)%nat ->
   forall t, In t (trips d) -> (0 < available_seats t)%Z -> In t (map row rows)).
Proof.
  exact (@featured_trips Examples.env (Answered None)
           (Examples.listing_store Examples.departed)
           (map (with_driver (Examples.listing_store Examples.departed))
                Examples.departed) eq_refl).
Defined.

End HomeFacts.

(** ** [timeAgo] and [createPagination] *)

Module HelperFacts.

Import Helpers.
Local Open Scope string_scope.
Local Open Scope Z_scope.

Lemma whole_units d secs : 0 < secs -> (1 <=? d / secs) = (secs <=? d).
Proof.
  intros H. destruct (Z.leb_spec secs d) as [Hle|Hlt].
  - apply Z.leb_le. apply Z.div_le_lower_bound; lia.
  - apply Z.leb_gt.
    assert (d / secs < 1) by (apply Z.div_lt_upper_bound; lia). lia.
Qed.

Ltac exists_unit a :=
  match goal with
  | |- exists unit secs, In (unit, secs) ?l /\ _ =>
      match l with
      | context [(?u, a)] =>
          exists u, a;
          split; [cbn [In]; tauto|];
          split; [assumption|];
          split; [cbn [In]; intros ? ? Hin Hle;
                  repeat (destruct Hin as [Hin|Hin]; [inversion Hin; subst; lia|]);
                  contradiction|];
          split; [apply Z.div_le_lower_bound; lia | reflexivity]
      end
  end.

Lemma first_interval_cons d unit secs rest :
  0 < secs ->
  first_interval d ((unit, secs) :: rest)
  = if secs <=? d
    then Api.show_Z (d / secs) ++ " " ++ unit
           ++ (if 1 <? d / secs then "s" else "") ++ " ago"
    else first_interval d rest.
Proof.
  intros H. cbn [first_interval]. now rewrite whole_units.
Qed.

(** X24. [timeAgo] answers [just now] for every date less than a minute in the
    past, every date in the future and every invalid date; for an older
    date it counts whole units of the largest unit that fits, from years
    of 365 days down to minutes, with a plural [s] from two units on. *)
Theorem timeAgo_units now past :
  (timeAgo now None = "just now") /\
  ((now - past) / 1000 < 60 -> timeAgo now (Some past) = "just now") /\
  (60 <= (now - past) / 1000 ->
   exists unit secs,
     In (unit, secs) intervals /\
     secs <= (now - past) / 1000 /\
     (forall unit' secs', In (unit', secs') intervals ->
                          secs' <= (now - past) / 1000 -> secs' <= secs) /\
     1 <= (now - past) / 1000 / secs /\
     timeAgo now (Some past)
     = Api.show_Z ((now - past) / 1000 / secs) ++ " " ++ unit
         ++ (if 1 <? (now - past) / 1000 / secs then "s" else "") ++ " ago").
Proof.
  split; [reflexivity|].
  unfold timeAgo, intervals. set (d := (now - past) / 1000).
  rewrite !first_interval_cons by lia. cbn [first_interval].
  split.
  - intros H.
    repeat match goal with
           | |- context [?a <=? d] => destruct (Z.leb_spec a d); [lia|]
           end.
    reflexivity.
  - intros H.
    repeat match goal with
           | |- context [?a <=? d] =>
               destruct (Z.leb_spec a d);
               [ exists_unit a | ]
           end.
    lia.
Qed.



End HelperFacts.

(** ** POST /api/geocode without results *)

Module GeocodingFacts.

Import Config Api Geocoding.
Local Open Scope string_scope.

Section Externals.

Variable parseFloat : option string -> num.
Variable json : HttpResponse -> payload + JsError.

(** X26. When the geocoder finds nothing, POST /api/geocode answers with an
    empty list of suggestions and the query, for every limit: also for the
    limit 1, for which a result would have been returned as a single pair
    of coordinates. *)
Theorem geocode_without_results env net address limit response :
  address <> "" ->
  fetchWithTimeout net 0 RETRIES_DEFAULT = inl response ->
  json response = inl (JsonArray []) \/ json response = inl JsonNull ->
  POST_api_geocode parseFloat json env net
                   {| geo_address := Some address; geo_limit := limit |}
  = GeoSuggestions [] address.
Proof.
  intros Ha Hf Hj. unfold POST_api_geocode, geocodeAddress. cbn [geo_address geo_limit].
  apply String.eqb_neq in Ha. rewrite Ha, Hf.
  destruct Hj as [-> | ->]; reflexivity.
Qed.

End Externals.

Lemma geocode_without_results_witness :
  POST_api_geocode (fun _ => None) (fun _ => inl (JsonArray [])) Examples.env
                   Examples.provider_answers
                   {| geo_address := Some "Atlantis"; geo_limit := Some 1%Z |}
  = GeoSuggestions [] "Atlantis".
Proof.
  apply (@geocode_without_results (fun _ => None) (fun _ => inl (JsonArray []))
           Examples.env Examples.provider_answers "Atlantis" (Some 1%Z)
           {| ok := true; status := 200; statusText := "OK";
              body := Some {| routes := Some [Examples.provider_route] |} |}).
  - discriminate.
  - reflexivity.
  - left. reflexivity.
Defined.

End GeocodingFacts.

(** ** The token of a request *)

Module AuthFacts.

Import Auth.
Local Open Scope string_scope.

(** Splitting a string that does not hold the separator, and one that
    holds it once. *)
Lemma split_on_word sep w :
  forallb (fun c => negb (Ascii.eqb c sep)) (list_ascii_of_string w) = true ->
  split_on sep w = [w].
Proof.
  induction w as [|c w IH]; cbn [list_ascii_of_string forallb split_on];
    [reflexivity|].
  intros H. apply andb_prop in H. destruct H as [Hc Hw].
  apply negb_true_iff in Hc. rewrite Hc, (IH Hw). reflexivity.
Qed.

Lemma split_on_two sep w1 w2 :
  forallb (fun c => negb (Ascii.eqb c sep)) (list_ascii_of_string w1) = true ->
  forallb (fun c => negb (Ascii.eqb c sep)) (list_ascii_of_string w2) = true ->
  split_on sep (w1 ++ String sep w2) = [w1; w2].
Proof.
  intros H1 H2. induction w1 as [|c w IH];
    cbn [append list_ascii_of_string forallb split_on] in *.
  - rewrite Ascii.eqb_refl, (split_on_word _ _ H2). reflexivity.
  - apply andb_prop in H1. destruct H1 as [Hc Hw].
    apply negb_true_iff in Hc. rewrite Hc, (IH Hw). reflexivity.
Qed.

(** X27. The token of a request is the cookie [sb_access_token] when it is set,
    whatever the header says; without the cookie it is the second word of
    the [Authorization] header, whatever the first word is: the scheme is
    not compared with [Bearer]. *)
Theorem token_of_request scheme token cookie :
  forallb (fun c => negb (Ascii.eqb c " ")) (list_ascii_of_string scheme) = true ->
  forallb (fun c => negb (Ascii.eqb c " ")) (list_ascii_of_string token) = true ->
  token <> "" ->
  getTokenFromRequest (Some (scheme ++ String " " token)) cookie
  = if JS.truthy cookie then cookie else Some token.
Proof.
  intros Hs Ht Hne. unfold getTokenFromRequest.
  destruct (JS.truthy cookie); [reflexivity|].
  assert (E : (scheme ++ String " " token =? "") = false).
  { apply String.eqb_neq. destruct scheme; discriminate. }
  rewrite E, (split_on_two _ _ _ Hs Ht). cbn [nth_error JS.truthy].
  apply String.eqb_neq in Hne. now rewrite Hne.
Qed.

Lemma token_of_request_witness :
  getTokenFromRequest (Some "Basic dXNlcjpwYXNz") None = Some "dXNlcjpwYXNz".
Proof.
  apply (@token_of_request "Basic" "dXNlcjpwYXNz" None);
    [reflexivity | reflexivity | discriminate].
Defined.

End AuthFacts.
